(** * NFT platform: the on-chain settlement protocol

    A shallow embedding of the three Solidity contracts of the repository
    (NFT.sol, NFTMultiEdition.sol, Marketplace.sol) together with the parts
    of the OpenZeppelin 5.x base contracts they inherit (ERC721, ERC1155,
    ERC1155Supply, ERC2981, AccessControl, Ownable, Pausable).

    Conventions of the embedding:
    - a [uint256] (and an [address]) is an [N]; the checked arithmetic of
      Solidity 0.8 is written out: an operation whose result leaves the
      256-bit range returns [Err Panic_overflow];
    - a [mapping] is a [gmap] read through [get], which returns the zero
      value of the value type at an absent key, as the EVM does;
    - an external function is a function from the contract state, the caller
      and the arguments to a [result]: [Ok] with the new state, or [Err]
      with the revert reason.  A reverted call leaves the state as it was;
      the transaction layers ([step], [run]) implement that;
    - [require(c, "reason")] keeps the reason string of the source;
    - calls are modelled at the top level of a transaction, where the
      [nonReentrant] guard is never entered; logs of the token contracts
      are not part of the state and are left out. *)

From Stdlib Require Import NArith ZArith String List Sorted Lia.
From stdpp Require Import base option gmap strings.

Open Scope N_scope.

(** ** Solidity prelude *)
Module Sol.

Abbreviation address := N (only parsing).
Abbreviation uint256 := N (only parsing).

Definition MAX_UINT256 : N := 2 ^ 256 - 1.

Inductive revert : Type :=
| Reason (msg : string)          (* require(cond, "msg") *)
| Panic_overflow                 (* Panic(0x11): checked arithmetic *)
| CustomError (name : string).   (* OpenZeppelin 5.x custom errors *)

Inductive result (A : Type) : Type :=
| Ok (a : A)
| Err (e : revert).
Arguments Ok {A} a.
Arguments Err {A} e.

Definition is_ok {A} (r : result A) : bool :=
  match r with Ok _ => true | Err _ => false end.

#[global] Instance result_ret : MRet result := fun _ a => Ok a.
#[global] Instance result_bind : MBind result :=
  fun _ _ f m => match m with Ok a => f a | Err e => Err e end.
#[global] Instance result_fmap : FMap result :=
  fun _ _ f m => match m with Ok a => Ok (f a) | Err e => Err e end.

Definition require (c : bool) (reason : string) : result unit :=
  if c then Ok tt else Err (Reason reason).

Definition ensure (c : bool) (error : string) : result unit :=
  if c then Ok tt else Err (CustomError error).

Definition checked_add (a b : N) : result N :=
  if a + b <=? MAX_UINT256 then Ok (a + b) else Err Panic_overflow.

Definition checked_mul (a b : N) : result N :=
  if a * b <=? MAX_UINT256 then Ok (a * b) else Err Panic_overflow.

Definition checked_sub (a b : N) : result N :=
  if b <=? a then Ok (a - b) else Err Panic_overflow.

(** Reading a mapping: the zero value [d] at a key never written. *)
Definition get {K V} `{Countable K} (d : V) (m : gmap K V) (k : K) : V :=
  default d (m !! k).

End Sol.
Import Sol.

(** ** The error taxonomy of the specification, as the reasons of the code *)
Module Errors.
Definition InvalidCreator := Reason "Creator cannot be zero address".
Definition InvalidURI := Reason "URI cannot be empty".
Definition InvalidAmount := Reason "Amount must be greater than 0".
Definition TypeNotFound := Reason "Token type does not exist".
Definition TokenNotFound := Reason "Token does not exist".
Definition SupplyExceededAtCreation := Reason "Amount exceeds max supply".
Definition Unauthorized := Reason "Only creator or admin can set royalty".
Definition InvalidRate := Reason "Royalty cannot exceed 10%".
Definition InvalidPrice := Reason "Price must be greater than 0".
Definition NotOwner := Reason "Not token owner".
Definition NotApproved := Reason "Marketplace not approved".
Definition InsufficientBalance := Reason "Insufficient balance".
Definition ListingNotActive := Reason "Listing not active".
Definition SelfPurchase := Reason "Cannot buy own listing".
Definition WrongPayment := Reason "Incorrect payment amount".
Definition NotAuthorized := Reason "Not authorized".
Definition FeeTooHigh := Reason "Fee cannot exceed 10%".
Definition InvalidRecipient := Reason "Invalid recipient".
Definition TransferFailed := Reason "ETH transfer failed".
Definition EnforcedPause := CustomError "EnforcedPause".
Definition ExpectedPause := CustomError "ExpectedPause".
Definition OwnableUnauthorizedAccount := CustomError "OwnableUnauthorizedAccount".
Definition OwnableInvalidOwner := CustomError "OwnableInvalidOwner".
Definition AccessControlUnauthorizedAccount :=
  CustomError "AccessControlUnauthorizedAccount".
Definition AccessControlBadConfirmation :=
  CustomError "AccessControlBadConfirmation".
End Errors.
Import Errors.

(** ** AccessControl (OpenZeppelin): role membership *)
Module AccessControl.

Definition DEFAULT_ADMIN_ROLE : N := 0.
(* keccak256("MINTER_ROLE") *)
Definition MINTER_ROLE : N :=
  0x9f2df0fed2c77648de5860a4cc508cd0818c85b8b8a1ab4ceeef8d981c8956a6.

Definition hasRole (roles : gset (N * N)) (role : N) (account : address) : bool :=
  bool_decide ((role, account) ∈ roles).

Definition onlyRole (roles : gset (N * N)) (role : N) (sender : address)
  : result unit :=
  if hasRole roles role sender then Ok tt
  else Err AccessControlUnauthorizedAccount.

Definition _grantRole (roles : gset (N * N)) (role : N) (account : address)
  : gset (N * N) := {[ (role, account) ]} ∪ roles.

Definition _revokeRole (roles : gset (N * N)) (role : N) (account : address)
  : gset (N * N) := roles ∖ {[ (role, account) ]}.

(* getRoleAdmin is DEFAULT_ADMIN_ROLE for every role: neither contract
   calls _setRoleAdmin. *)
Definition grantRole (roles : gset (N * N)) (sender : address)
    (role : N) (account : address) : result (gset (N * N)) :=
  _ ← onlyRole roles DEFAULT_ADMIN_ROLE sender;
  Ok (_grantRole roles role account).

Definition revokeRole (roles : gset (N * N)) (sender : address)
    (role : N) (account : address) : result (gset (N * N)) :=
  _ ← onlyRole roles DEFAULT_ADMIN_ROLE sender;
  Ok (_revokeRole roles role account).

Definition renounceRole (roles : gset (N * N)) (sender : address)
    (role : N) (callerConfirmation : address) : result (gset (N * N)) :=
  if callerConfirmation =? sender then Ok (_revokeRole roles role sender)
  else Err AccessControlBadConfirmation.

End AccessControl.

(** ** ERC2981 (OpenZeppelin): the per-token royalty registry *)
Module ERC2981.

Record RoyaltyInfo := { receiver : address; royaltyFraction : N }.

Definition no_royalty : RoyaltyInfo := {| receiver := 0; royaltyFraction := 0 |}.

Definition _feeDenominator : N := 10000.

Definition _setTokenRoyalty (m : gmap N RoyaltyInfo)
    (tokenId : N) (rcv : address) (feeNumerator : N)
  : result (gmap N RoyaltyInfo) :=
  _ ← ensure (feeNumerator <=? _feeDenominator) "ERC2981InvalidTokenRoyalty";
  _ ← ensure (negb (rcv =? 0)) "ERC2981InvalidTokenRoyaltyReceiver";
  Ok (<[tokenId := {| receiver := rcv; royaltyFraction := feeNumerator |}]> m).

(* Neither contract ever calls _setDefaultRoyalty, so the fallback entry
   [dflt] of the registry stays the zero entry. *)
Definition royaltyInfo (m : gmap N RoyaltyInfo) (dflt : RoyaltyInfo)
    (tokenId salePrice : N) : result (address * N) :=
  let r := get no_royalty m tokenId in
  let r := if receiver r =? 0 then dflt else r in
  p ← checked_mul salePrice (royaltyFraction r);
  Ok (receiver r, p / _feeDenominator).

End ERC2981.

(** ** NFTMultiEdition.sol: the multi-edition (ERC-1155) ledger *)
Module NFTMultiEdition.
Import AccessControl ERC2981.

Record TokenType := {
  creator : address;
  uri : string;
  maxSupply : N;      (* 0 = unlimited *)
  mintedSupply : N
}.

Definition no_type : TokenType :=
  {| creator := 0; uri := EmptyString; maxSupply := 0; mintedSupply := 0 |}.

Record State := {
  _nextTokenTypeId : N;
  _tokenTypes : gmap N TokenType;
  defaultRoyaltyBps : N;
  _balances : gmap (N * N) N;              (* ERC1155: id => account => balance *)
  _operatorApprovals : gmap (N * N) bool;  (* ERC1155: account => operator *)
  _totalSupply : gmap N N;                 (* ERC1155Supply *)
  _totalSupplyAll : N;                     (* ERC1155Supply *)
  _tokenRoyaltyInfo : gmap N RoyaltyInfo;  (* ERC2981 *)
  _roles : gset (N * N)                    (* AccessControl: (role, account) *)
}.

Definition set_types (s : State) (n : N) (t : gmap N TokenType) : State :=
  {| _nextTokenTypeId := n; _tokenTypes := t;
     defaultRoyaltyBps := defaultRoyaltyBps s; _balances := _balances s;
     _operatorApprovals := _operatorApprovals s; _totalSupply := _totalSupply s;
     _totalSupplyAll := _totalSupplyAll s;
     _tokenRoyaltyInfo := _tokenRoyaltyInfo s; _roles := _roles s |}.

Definition set_ledger (s : State) (b : gmap (N * N) N) (t : gmap N N) (a : N)
  : State :=
  {| _nextTokenTypeId := _nextTokenTypeId s; _tokenTypes := _tokenTypes s;
     defaultRoyaltyBps := defaultRoyaltyBps s; _balances := b;
     _operatorApprovals := _operatorApprovals s; _totalSupply := t;
     _totalSupplyAll := a;
     _tokenRoyaltyInfo := _tokenRoyaltyInfo s; _roles := _roles s |}.

Definition set_approvals (s : State) (o : gmap (N * N) bool) : State :=
  {| _nextTokenTypeId := _nextTokenTypeId s; _tokenTypes := _tokenTypes s;
     defaultRoyaltyBps := defaultRoyaltyBps s; _balances := _balances s;
     _operatorApprovals := o; _totalSupply := _totalSupply s;
     _totalSupplyAll := _totalSupplyAll s;
     _tokenRoyaltyInfo := _tokenRoyaltyInfo s; _roles := _roles s |}.

Definition set_royalties (s : State) (r : gmap N RoyaltyInfo) : State :=
  {| _nextTokenTypeId := _nextTokenTypeId s; _tokenTypes := _tokenTypes s;
     defaultRoyaltyBps := defaultRoyaltyBps s; _balances := _balances s;
     _operatorApprovals := _operatorApprovals s; _totalSupply := _totalSupply s;
     _totalSupplyAll := _totalSupplyAll s;
     _tokenRoyaltyInfo := r; _roles := _roles s |}.

Definition set_roles (s : State) (r : gset (N * N)) : State :=
  {| _nextTokenTypeId := _nextTokenTypeId s; _tokenTypes := _tokenTypes s;
     defaultRoyaltyBps := defaultRoyaltyBps s; _balances := _balances s;
     _operatorApprovals := _operatorApprovals s; _totalSupply := _totalSupply s;
     _totalSupplyAll := _totalSupplyAll s;
     _tokenRoyaltyInfo := _tokenRoyaltyInfo s; _roles := r |}.

(** The constructor: the deployer is administrator and minter. *)
Definition constructor (deployer : address) (_defaultRoyaltyBps : N) : State :=
  {| _nextTokenTypeId := 0; _tokenTypes := ∅;
     defaultRoyaltyBps := if 0 <? _defaultRoyaltyBps then _defaultRoyaltyBps else 500;
     _balances := ∅; _operatorApprovals := ∅; _totalSupply := ∅;
     _totalSupplyAll := 0; _tokenRoyaltyInfo := ∅;
     _roles := _grantRole (_grantRole ∅ DEFAULT_ADMIN_ROLE deployer)
                          MINTER_ROLE deployer |}.

(** *** Views *)
Definition tokenType (s : State) (tokenTypeId : N) : TokenType :=
  get no_type (_tokenTypes s) tokenTypeId.

Definition balanceOf (s : State) (account : address) (id : N) : N :=
  get 0 (_balances s) (id, account).

Definition isApprovedForAll (s : State) (account operator : address) : bool :=
  get false (_operatorApprovals s) (account, operator).

Definition totalSupply (s : State) (id : N) : N := get 0 (_totalSupply s) id.

Definition tokenTypeExists (s : State) (tokenTypeId : N) : bool :=
  negb (creator (tokenType s tokenTypeId) =? 0).

Definition totalTokenTypes (s : State) : N := _nextTokenTypeId s.

Definition getTokenType (s : State) (tokenTypeId : N) : result TokenType :=
  let t := tokenType s tokenTypeId in
  _ ← require (negb (creator t =? 0)) "Token type does not exist";
  Ok t.

Definition creatorOf (s : State) (tokenTypeId : N) : result address :=
  _ ← require (negb (creator (tokenType s tokenTypeId) =? 0))
        "Token type does not exist";
  Ok (creator (tokenType s tokenTypeId)).

(** uri(tokenTypeId), the override of ERC1155.uri; [uri] itself is the
    field of the record. *)
Definition uri_ (s : State) (tokenTypeId : N) : result string :=
  _ ← require (negb (creator (tokenType s tokenTypeId) =? 0))
        "Token type does not exist";
  Ok (uri (tokenType s tokenTypeId)).

Definition royaltyInfo (s : State) (tokenId salePrice : N)
  : result (address * N) :=
  ERC2981.royaltyInfo (_tokenRoyaltyInfo s) no_royalty tokenId salePrice.

Section Ledger.
(** Whether the recipient of a transfer acknowledges it: [true] for an
    externally owned account, and for a contract what its
    onERC1155Received / onERC1155BatchReceived hook answers to
    (operator, from, to, ids, values). *)
Variable acceptance : address → address → address → list N → list N → bool.

(** *** ERC1155._update: the balances, one (id, value) pair at a time *)
Fixpoint _update_balances (bal : gmap (N * N) N) (from to : address)
    (ids values : list N) : result (gmap (N * N) N) :=
  match ids, values with
  | [], [] => Ok bal
  | id :: ids', value :: values' =>
      bal1 ← (if from =? 0 then Ok bal else
                let fromBalance := get 0 bal (id, from) in
                _ ← ensure (value <=? fromBalance) "ERC1155InsufficientBalance";
                Ok (<[(id, from) := fromBalance - value]> bal));
      bal2 ← (if to =? 0 then Ok bal1 else
                b ← checked_add (get 0 bal1 (id, to)) value;
                Ok (<[(id, to) := b]> bal1));
      _update_balances bal2 from to ids' values'
  | _, _ => Err (CustomError "ERC1155InvalidArrayLength")
  end.

(** *** ERC1155Supply._update, the mint branch: checked additions *)
Fixpoint _supply_mint (ts : gmap N N) (total : N) (ids values : list N)
  : result (gmap N N * N) :=
  match ids, values with
  | id :: ids', value :: values' =>
      t ← checked_add (get 0 ts id) value;
      total' ← checked_add total value;
      _supply_mint (<[id := t]> ts) total' ids' values'
  | _, _ => Ok (ts, total)
  end.

(** *** ERC1155Supply._update, the burn branch: unchecked, modulo 2^256 *)
Definition wrap (n : N) : N := n mod 2 ^ 256.

Fixpoint _supply_burn (ts : gmap N N) (total : N) (ids values : list N)
  : gmap N N * N :=
  match ids, values with
  | id :: ids', value :: values' =>
      _supply_burn (<[id := wrap (get 0 ts id + 2 ^ 256 - value)]> ts)
                   (wrap (total + value)) ids' values'
  | _, _ => (ts, total)
  end.

Definition _update (s : State) (from to : address) (ids values : list N)
  : result State :=
  bal ← _update_balances (_balances s) from to ids values;
  '(ts, all) ← (if from =? 0 then
                  '(ts, totalMintValue) ← _supply_mint (_totalSupply s) 0 ids values;
                  all ← checked_add (_totalSupplyAll s) totalMintValue;
                  Ok (ts, all)
                else Ok (_totalSupply s, _totalSupplyAll s));
  let '(ts, all) :=
    if to =? 0 then
      let '(ts', totalBurnValue) := _supply_burn ts 0 ids values in
      (ts', wrap (all + 2 ^ 256 - totalBurnValue))
    else (ts, all) in
  Ok (set_ledger s bal ts all).

Definition _updateWithAcceptanceCheck (s : State) (operator from to : address)
    (ids values : list N) : result State :=
  s' ← _update s from to ids values;
  _ ← ensure ((to =? 0) || acceptance operator from to ids values)
        "ERC1155InvalidReceiver";
  Ok s'.

Definition _mint (s : State) (operator to : address) (id value : N)
  : result State :=
  _ ← ensure (negb (to =? 0)) "ERC1155InvalidReceiver";
  _updateWithAcceptanceCheck s operator 0 to [id] [value].

Definition _burnBatch (s : State) (operator from : address)
    (ids values : list N) : result State :=
  _ ← ensure (negb (from =? 0)) "ERC1155InvalidSender";
  _updateWithAcceptanceCheck s operator from 0 ids values.

(** *** The functions of NFTMultiEdition *)
Definition createEdition (s : State) (sender : address)
    (creator_ : address) (tokenUri : string) (maxSupply_ : N)
  : result (State * N) :=
  _ ← onlyRole (_roles s) MINTER_ROLE sender;
  _ ← require (negb (creator_ =? 0)) "Creator cannot be zero address";
  _ ← require (0 <? N.of_nat (String.length tokenUri)) "URI cannot be empty";
  let tokenTypeId := _nextTokenTypeId s in
  next ← checked_add (_nextTokenTypeId s) 1;
  let s1 := set_types s next
    (<[tokenTypeId := {| creator := creator_; uri := tokenUri;
                         maxSupply := maxSupply_; mintedSupply := 0 |}]>
       (_tokenTypes s)) in
  r ← _setTokenRoyalty (_tokenRoyaltyInfo s1) tokenTypeId creator_
        (defaultRoyaltyBps s1);
  Ok (set_royalties s1 r, tokenTypeId).

Definition mintEdition (s : State) (sender : address)
    (to : address) (tokenTypeId amount : N) : result State :=
  _ ← onlyRole (_roles s) MINTER_ROLE sender;
  _ ← require (0 <? amount) "Amount must be greater than 0";
  _ ← require (negb (creator (tokenType s tokenTypeId) =? 0))
        "Token type does not exist";
  let t := tokenType s tokenTypeId in
  _ ← (if 0 <? maxSupply t then
         sum ← checked_add (mintedSupply t) amount;
         require (sum <=? maxSupply t) "Exceeds max supply"
       else Ok tt);
  minted ← checked_add (mintedSupply t) amount;
  let s1 := set_types s (_nextTokenTypeId s)
    (<[tokenTypeId := {| creator := creator t; uri := uri t;
                         maxSupply := maxSupply t; mintedSupply := minted |}]>
       (_tokenTypes s)) in
  _mint s1 sender to tokenTypeId amount.

Definition createAndMint (s : State) (sender : address)
    (to creator_ : address) (tokenUri : string) (maxSupply_ amount : N)
  : result (State * N) :=
  _ ← onlyRole (_roles s) MINTER_ROLE sender;
  _ ← require (0 <? amount) "Amount must be greater than 0";
  _ ← require ((maxSupply_ =? 0) || (amount <=? maxSupply_))
        "Amount exceeds max supply";
  let tokenTypeId := _nextTokenTypeId s in
  next ← checked_add (_nextTokenTypeId s) 1;
  let s1 := set_types s next
    (<[tokenTypeId := {| creator := creator_; uri := tokenUri;
                         maxSupply := maxSupply_; mintedSupply := amount |}]>
       (_tokenTypes s)) in
  r ← _setTokenRoyalty (_tokenRoyaltyInfo s1) tokenTypeId creator_
        (defaultRoyaltyBps s1);
  s2 ← _mint (set_royalties s1 r) sender to tokenTypeId amount;
  Ok (s2, tokenTypeId).

Definition setTokenRoyalty (s : State) (sender : address)
    (tokenTypeId : N) (rcv : address) (royaltyBps : N) : result State :=
  _ ← require (negb (creator (tokenType s tokenTypeId) =? 0))
        "Token type does not exist";
  _ ← require ((creator (tokenType s tokenTypeId) =? sender)
               || hasRole (_roles s) DEFAULT_ADMIN_ROLE sender)
        "Only creator or admin can set royalty";
  _ ← require (royaltyBps <=? 1000) "Royalty cannot exceed 10%";
  r ← _setTokenRoyalty (_tokenRoyaltyInfo s) tokenTypeId rcv royaltyBps;
  Ok (set_royalties s r).

(** *** Inherited external functions (ERC1155, ERC1155Burnable, AccessControl) *)
Definition setApprovalForAll (s : State) (sender : address)
    (operator : address) (approved : bool) : result State :=
  _ ← ensure (negb (operator =? 0)) "ERC1155InvalidOperator";
  Ok (set_approvals s (<[(sender, operator) := approved]> (_operatorApprovals s))).

Definition safeBatchTransferFrom (s : State) (sender : address)
    (from to : address) (ids values : list N) : result State :=
  _ ← ensure ((from =? sender) || isApprovedForAll s from sender)
        "ERC1155MissingApprovalForAll";
  _ ← ensure (negb (to =? 0)) "ERC1155InvalidReceiver";
  _ ← ensure (negb (from =? 0)) "ERC1155InvalidSender";
  _updateWithAcceptanceCheck s sender from to ids values.

Definition safeTransferFrom (s : State) (sender : address)
    (from to : address) (id value : N) : result State :=
  safeBatchTransferFrom s sender from to [id] [value].

Definition burnBatch (s : State) (sender : address)
    (account : address) (ids values : list N) : result State :=
  _ ← ensure ((account =? sender) || isApprovedForAll s account sender)
        "ERC1155MissingApprovalForAll";
  _burnBatch s sender account ids values.

Definition burn (s : State) (sender : address)
    (account : address) (id value : N) : result State :=
  burnBatch s sender account [id] [value].

(** *** Transactions *)
Inductive call :=
| CreateEdition (creator_ : address) (tokenUri : string) (maxSupply_ : N)
| MintEdition (to : address) (tokenTypeId amount : N)
| CreateAndMint (to creator_ : address) (tokenUri : string) (maxSupply_ amount : N)
| SetTokenRoyalty (tokenTypeId : N) (rcv : address) (royaltyBps : N)
| SetApprovalForAll (operator : address) (approved : bool)
| SafeTransferFrom (from to : address) (id value : N)
| SafeBatchTransferFrom (from to : address) (ids values : list N)
| Burn (account : address) (id value : N)
| BurnBatch (account : address) (ids values : list N)
| GrantRole (role : N) (account : address)
| RevokeRole (role : N) (account : address)
| RenounceRole (role : N) (callerConfirmation : address).

Definition exec (s : State) (sender : address) (c : call) : result State :=
  match c with
  | CreateEdition cr u m => fst <$> createEdition s sender cr u m
  | MintEdition to id a => mintEdition s sender to id a
  | CreateAndMint to cr u m a => fst <$> createAndMint s sender to cr u m a
  | SetTokenRoyalty id r b => setTokenRoyalty s sender id r b
  | SetApprovalForAll o a => setApprovalForAll s sender o a
  | SafeTransferFrom f t id v => safeTransferFrom s sender f t id v
  | SafeBatchTransferFrom f t ids vs => safeBatchTransferFrom s sender f t ids vs
  | Burn a id v => burn s sender a id v
  | BurnBatch a ids vs => burnBatch s sender a ids vs
  | GrantRole r a => set_roles s <$> grantRole (_roles s) sender r a
  | RevokeRole r a => set_roles s <$> revokeRole (_roles s) sender r a
  | RenounceRole r a => set_roles s <$> renounceRole (_roles s) sender r a
  end.

(** A transaction that reverts leaves the state as it was. *)
Definition step (s : State) (tx : address * call) : State :=
  match exec s tx.1 tx.2 with
  | Ok s' => s'
  | Err _ => s
  end.

Definition run (s : State) (txs : list (address * call)) : State :=
  fold_left step txs s.


(** createEdition followed by mintEdition of the new type, as one atomic
    transaction: the composition createAndMint is documented to be. *)
Definition createEdition_then_mintEdition (s : State) (sender : address)
    (to creator_ : address) (tokenUri : string) (maxSupply_ amount : N)
  : result (State * N) :=
  '(s1, tokenTypeId) ← createEdition s sender creator_ tokenUri maxSupply_;
  s2 ← mintEdition s1 sender to tokenTypeId amount;
  Ok (s2, tokenTypeId).

End Ledger.

(** *** Invariants of the type records *)

(** No record is stored at an identifier that was not assigned yet. *)
Definition fresh_above (s : State) : Prop :=
  ∀ id, _nextTokenTypeId s ≤ id → _tokenTypes s !! id = None.

(** A bounded type never has more units minted than its maximum. *)
Definition within_max (s : State) : Prop :=
  ∀ id, 0 < maxSupply (tokenType s id) →
        mintedSupply (tokenType s id) ≤ maxSupply (tokenType s id).

(** A type record after [amount] more units were minted. *)
Definition minted_type (t : TokenType) (amount : N) : TokenType :=
  {| creator := creator t; uri := uri t; maxSupply := maxSupply t;
     mintedSupply := mintedSupply t + amount |}.

(** The ways one transaction can change the type records. *)
Inductive types_change (s : State) : State → Prop :=
| tc_none s' :
    _nextTokenTypeId s' = _nextTokenTypeId s →
    _tokenTypes s' = _tokenTypes s →
    types_change s s'
| tc_created s' t :
    _nextTokenTypeId s' = _nextTokenTypeId s + 1 →
    _tokenTypes s' = <[_nextTokenTypeId s := t]> (_tokenTypes s) →
    maxSupply t = 0 ∨ mintedSupply t ≤ maxSupply t →
    types_change s s'
| tc_minted s' id amount :
    _nextTokenTypeId s' = _nextTokenTypeId s →
    creator (tokenType s id) ≠ 0 →
    _tokenTypes s' =
      <[id := {| creator := creator (tokenType s id);
                 uri := uri (tokenType s id);
                 maxSupply := maxSupply (tokenType s id);
                 mintedSupply := mintedSupply (tokenType s id) + amount |}]>
        (_tokenTypes s) →
    (0 < maxSupply (tokenType s id) →
       mintedSupply (tokenType s id) + amount ≤ maxSupply (tokenType s id)) →
    types_change s s'.

End NFTMultiEdition.

(** ** NFTMultiEdition.sol: the units in circulation *)
Module NFTMultiEditionSupply.
Import NFTMultiEdition.

(** The units of [id] that all accounts hold together. *)
Definition held (bal : gmap (N * N) N) (id : N) : N :=
  map_fold (λ k v acc, if k.1 =? id then v + acc else acc) 0 bal.

(** The units of [id] among the (id, value) pairs of a batch. *)
Fixpoint batch_total (id : N) (ids values : list N) : N :=
  match ids, values with
  | i :: ids', v :: values' =>
      (if i =? id then v else 0) + batch_total id ids' values'
  | _, _ => 0
  end.

(** What ERC1155Supply counts is what the accounts hold, and no more than
    what NFTMultiEdition recorded as minted. *)
Definition supply_consistent (s : State) : Prop :=
  ∀ id, held (_balances s) id = totalSupply s id
        ∧ totalSupply s id ≤ mintedSupply (tokenType s id)
        ∧ totalSupply s id ≤ MAX_UINT256.

End NFTMultiEditionSupply.

(** ** NFT.sol: the single-edition (ERC-721) ledger *)
Module NFT.
Import AccessControl ERC2981.

Record State := {
  _nextTokenId : N;
  _creators : gmap N address;
  defaultRoyaltyBps : N;
  _owners : gmap N address;                (* ERC721 *)
  _balances : gmap N N;                    (* ERC721: owner => token count *)
  _tokenApprovals : gmap N address;        (* ERC721 *)
  _operatorApprovals : gmap (N * N) bool;  (* ERC721: owner => operator *)
  _tokenURIs : gmap N string;              (* ERC721URIStorage *)
  _tokenRoyaltyInfo : gmap N RoyaltyInfo;  (* ERC2981 *)
  _roles : gset (N * N)                    (* AccessControl: (role, account) *)
}.

Definition set_counter (s : State) (n : N) : State :=
  {| _nextTokenId := n; _creators := _creators s;
     defaultRoyaltyBps := defaultRoyaltyBps s; _owners := _owners s;
     _balances := _balances s; _tokenApprovals := _tokenApprovals s;
     _operatorApprovals := _operatorApprovals s; _tokenURIs := _tokenURIs s;
     _tokenRoyaltyInfo := _tokenRoyaltyInfo s; _roles := _roles s |}.

Definition set_creators (s : State) (c : gmap N address) : State :=
  {| _nextTokenId := _nextTokenId s; _creators := c;
     defaultRoyaltyBps := defaultRoyaltyBps s; _owners := _owners s;
     _balances := _balances s; _tokenApprovals := _tokenApprovals s;
     _operatorApprovals := _operatorApprovals s; _tokenURIs := _tokenURIs s;
     _tokenRoyaltyInfo := _tokenRoyaltyInfo s; _roles := _roles s |}.

Definition set_defaultRoyaltyBps (s : State) (b : N) : State :=
  {| _nextTokenId := _nextTokenId s; _creators := _creators s;
     defaultRoyaltyBps := b; _owners := _owners s;
     _balances := _balances s; _tokenApprovals := _tokenApprovals s;
     _operatorApprovals := _operatorApprovals s; _tokenURIs := _tokenURIs s;
     _tokenRoyaltyInfo := _tokenRoyaltyInfo s; _roles := _roles s |}.

Definition set_ownership (s : State) (o : gmap N address) (b : gmap N N)
    (a : gmap N address) : State :=
  {| _nextTokenId := _nextTokenId s; _creators := _creators s;
     defaultRoyaltyBps := defaultRoyaltyBps s; _owners := o;
     _balances := b; _tokenApprovals := a;
     _operatorApprovals := _operatorApprovals s; _tokenURIs := _tokenURIs s;
     _tokenRoyaltyInfo := _tokenRoyaltyInfo s; _roles := _roles s |}.

Definition set_tokenApprovals (s : State) (a : gmap N address) : State :=
  set_ownership s (_owners s) (_balances s) a.

Definition set_approvals (s : State) (o : gmap (N * N) bool) : State :=
  {| _nextTokenId := _nextTokenId s; _creators := _creators s;
     defaultRoyaltyBps := defaultRoyaltyBps s; _owners := _owners s;
     _balances := _balances s; _tokenApprovals := _tokenApprovals s;
     _operatorApprovals := o; _tokenURIs := _tokenURIs s;
     _tokenRoyaltyInfo := _tokenRoyaltyInfo s; _roles := _roles s |}.

Definition set_tokenURIs (s : State) (u : gmap N string) : State :=
  {| _nextTokenId := _nextTokenId s; _creators := _creators s;
     defaultRoyaltyBps := defaultRoyaltyBps s; _owners := _owners s;
     _balances := _balances s; _tokenApprovals := _tokenApprovals s;
     _operatorApprovals := _operatorApprovals s; _tokenURIs := u;
     _tokenRoyaltyInfo := _tokenRoyaltyInfo s; _roles := _roles s |}.

Definition set_royalties (s : State) (r : gmap N RoyaltyInfo) : State :=
  {| _nextTokenId := _nextTokenId s; _creators := _creators s;
     defaultRoyaltyBps := defaultRoyaltyBps s; _owners := _owners s;
     _balances := _balances s; _tokenApprovals := _tokenApprovals s;
     _operatorApprovals := _operatorApprovals s; _tokenURIs := _tokenURIs s;
     _tokenRoyaltyInfo := r; _roles := _roles s |}.

Definition set_roles (s : State) (r : gset (N * N)) : State :=
  {| _nextTokenId := _nextTokenId s; _creators := _creators s;
     defaultRoyaltyBps := defaultRoyaltyBps s; _owners := _owners s;
     _balances := _balances s; _tokenApprovals := _tokenApprovals s;
     _operatorApprovals := _operatorApprovals s; _tokenURIs := _tokenURIs s;
     _tokenRoyaltyInfo := _tokenRoyaltyInfo s; _roles := r |}.

Definition constructor (deployer : address) (_defaultRoyaltyBps : N) : State :=
  {| _nextTokenId := 0; _creators := ∅;
     defaultRoyaltyBps := if 0 <? _defaultRoyaltyBps then _defaultRoyaltyBps else 500;
     _owners := ∅; _balances := ∅; _tokenApprovals := ∅;
     _operatorApprovals := ∅; _tokenURIs := ∅; _tokenRoyaltyInfo := ∅;
     _roles := _grantRole (_grantRole ∅ DEFAULT_ADMIN_ROLE deployer)
                          MINTER_ROLE deployer |}.

(** *** ERC721 internals and views *)
Definition _ownerOf (s : State) (tokenId : N) : address :=
  get 0 (_owners s) tokenId.

Definition _getApproved (s : State) (tokenId : N) : address :=
  get 0 (_tokenApprovals s) tokenId.

Definition isApprovedForAll (s : State) (owner operator : address) : bool :=
  get false (_operatorApprovals s) (owner, operator).

Definition _requireOwned (s : State) (tokenId : N) : result address :=
  _ ← ensure (negb (_ownerOf s tokenId =? 0)) "ERC721NonexistentToken";
  Ok (_ownerOf s tokenId).

Definition ownerOf (s : State) (tokenId : N) : result address :=
  _requireOwned s tokenId.

Definition getApproved (s : State) (tokenId : N) : result address :=
  _ ← _requireOwned s tokenId;
  Ok (_getApproved s tokenId).

Definition _isAuthorized (s : State) (owner spender : address) (tokenId : N)
  : bool :=
  negb (spender =? 0)
  && ((owner =? spender) || isApprovedForAll s owner spender
      || (_getApproved s tokenId =? spender)).

Definition _checkAuthorized (s : State) (owner spender : address) (tokenId : N)
  : result unit :=
  if _isAuthorized s owner spender tokenId then Ok tt
  else if owner =? 0 then Err (CustomError "ERC721NonexistentToken")
  else Err (CustomError "ERC721InsufficientApproval").

Definition wrap (n : N) : N := n mod 2 ^ 256.

(** ERC721._update: moves [tokenId] to [to] (mint when there is no owner,
    burn when [to] is the null address) and returns the previous owner. *)
Definition _update (s : State) (to : address) (tokenId : N) (auth : address)
  : result (State * address) :=
  let from := _ownerOf s tokenId in
  _ ← (if auth =? 0 then Ok tt else _checkAuthorized s from auth tokenId);
  let '(appr, bal) :=
    if from =? 0 then (_tokenApprovals s, _balances s)
    else (<[tokenId := 0]> (_tokenApprovals s),
          <[from := wrap (get 0 (_balances s) from + 2 ^ 256 - 1)]> (_balances s)) in
  let bal :=
    if to =? 0 then bal else <[to := wrap (get 0 bal to + 1)]> bal in
  Ok (set_ownership s (<[tokenId := to]> (_owners s)) bal appr, from).

Section Ledger.
(** Whether the recipient acknowledges a safe transfer: [true] for an
    externally owned account, and for a contract what its onERC721Received
    hook answers to (operator, from, to, tokenId). *)
Variable acceptance : address → address → address → N → bool.

Definition _safeMint (s : State) (operator to : address) (tokenId : N)
  : result State :=
  _ ← ensure (negb (to =? 0)) "ERC721InvalidReceiver";
  '(s', previousOwner) ← _update s to tokenId 0;
  _ ← ensure (previousOwner =? 0) "ERC721InvalidSender";
  _ ← ensure (acceptance operator 0 to tokenId) "ERC721InvalidReceiver";
  Ok s'.

Definition _setTokenURI (s : State) (tokenId : N) (uri : string) : State :=
  set_tokenURIs s (<[tokenId := uri]> (_tokenURIs s)).

(** *** The functions of NFT *)
Definition mint (s : State) (sender : address) (to : address) (uri : string)
  : result (State * N) :=
  _ ← onlyRole (_roles s) MINTER_ROLE sender;
  let tokenId := _nextTokenId s in
  next ← checked_add (_nextTokenId s) 1;
  s1 ← _safeMint (set_counter s next) sender to tokenId;
  let s2 := _setTokenURI s1 tokenId uri in
  let s3 := set_creators s2 (<[tokenId := to]> (_creators s2)) in
  r ← _setTokenRoyalty (_tokenRoyaltyInfo s3) tokenId to (defaultRoyaltyBps s3);
  Ok (set_royalties s3 r, tokenId).

Definition mintFor (s : State) (sender : address)
    (to creator : address) (uri : string) : result (State * N) :=
  _ ← onlyRole (_roles s) MINTER_ROLE sender;
  _ ← require (negb (creator =? 0)) "Creator cannot be zero address";
  let tokenId := _nextTokenId s in
  next ← checked_add (_nextTokenId s) 1;
  s1 ← _safeMint (set_counter s next) sender to tokenId;
  let s2 := _setTokenURI s1 tokenId uri in
  let s3 := set_creators s2 (<[tokenId := creator]> (_creators s2)) in
  r ← _setTokenRoyalty (_tokenRoyaltyInfo s3) tokenId creator
        (defaultRoyaltyBps s3);
  Ok (set_royalties s3 r, tokenId).

Definition setTokenRoyalty (s : State) (sender : address)
    (tokenId : N) (rcv : address) (royaltyBps : N) : result State :=
  _ ← require (negb (_ownerOf s tokenId =? 0)) "Token does not exist";
  _ ← require ((get 0 (_creators s) tokenId =? sender)
               || hasRole (_roles s) DEFAULT_ADMIN_ROLE sender)
        "Only creator or admin can set royalty";
  _ ← require (royaltyBps <=? 1000) "Royalty cannot exceed 10%";
  r ← _setTokenRoyalty (_tokenRoyaltyInfo s) tokenId rcv royaltyBps;
  Ok (set_royalties s r).

Definition setDefaultRoyalty (s : State) (sender : address) (newRoyaltyBps : N)
  : result State :=
  _ ← onlyRole (_roles s) DEFAULT_ADMIN_ROLE sender;
  _ ← require (newRoyaltyBps <=? 1000) "Royalty cannot exceed 10%";
  Ok (set_defaultRoyaltyBps s newRoyaltyBps).

Definition creatorOf (s : State) (tokenId : N) : result address :=
  _ ← require (negb (_ownerOf s tokenId =? 0)) "Token does not exist";
  Ok (get 0 (_creators s) tokenId).

Definition totalSupply (s : State) : N := _nextTokenId s.

Definition exists_ (s : State) (tokenId : N) : bool :=
  negb (_ownerOf s tokenId =? 0).

Definition royaltyInfo (s : State) (tokenId salePrice : N)
  : result (address * N) :=
  ERC2981.royaltyInfo (_tokenRoyaltyInfo s) no_royalty tokenId salePrice.

(** *** Inherited external functions (ERC721, ERC721Burnable, AccessControl) *)
Definition approve (s : State) (sender : address) (to : address) (tokenId : N)
  : result State :=
  owner ← _requireOwned s tokenId;
  _ ← ensure ((sender =? 0) || (owner =? sender) || isApprovedForAll s owner sender)
        "ERC721InvalidApprover";
  Ok (set_tokenApprovals s (<[tokenId := to]> (_tokenApprovals s))).

Definition setApprovalForAll (s : State) (sender : address)
    (operator : address) (approved : bool) : result State :=
  _ ← ensure (negb (operator =? 0)) "ERC721InvalidOperator";
  Ok (set_approvals s (<[(sender, operator) := approved]> (_operatorApprovals s))).

Definition transferFrom (s : State) (sender : address)
    (from to : address) (tokenId : N) : result State :=
  _ ← ensure (negb (to =? 0)) "ERC721InvalidReceiver";
  '(s', previousOwner) ← _update s to tokenId sender;
  _ ← ensure (previousOwner =? from) "ERC721IncorrectOwner";
  Ok s'.

Definition safeTransferFrom (s : State) (sender : address)
    (from to : address) (tokenId : N) : result State :=
  s' ← transferFrom s sender from to tokenId;
  _ ← ensure (acceptance sender from to tokenId) "ERC721InvalidReceiver";
  Ok s'.

Definition burn (s : State) (sender : address) (tokenId : N) : result State :=
  fst <$> _update s 0 tokenId sender.

(** *** Transactions *)
Inductive call :=
| Mint (to : address) (uri : string)
| MintFor (to creator : address) (uri : string)
| SetTokenRoyalty (tokenId : N) (rcv : address) (royaltyBps : N)
| SetDefaultRoyalty (newRoyaltyBps : N)
| Approve (to : address) (tokenId : N)
| SetApprovalForAll (operator : address) (approved : bool)
| TransferFrom (from to : address) (tokenId : N)
| SafeTransferFrom (from to : address) (tokenId : N)
| Burn (tokenId : N)
| GrantRole (role : N) (account : address)
| RevokeRole (role : N) (account : address)
| RenounceRole (role : N) (callerConfirmation : address).

Definition exec (s : State) (sender : address) (c : call) : result State :=
  match c with
  | Mint to u => fst <$> mint s sender to u
  | MintFor to cr u => fst <$> mintFor s sender to cr u
  | SetTokenRoyalty id r b => setTokenRoyalty s sender id r b
  | SetDefaultRoyalty b => setDefaultRoyalty s sender b
  | Approve to id => approve s sender to id
  | SetApprovalForAll o a => setApprovalForAll s sender o a
  | TransferFrom f t id => transferFrom s sender f t id
  | SafeTransferFrom f t id => safeTransferFrom s sender f t id
  | Burn id => burn s sender id
  | GrantRole r a => set_roles s <$> grantRole (_roles s) sender r a
  | RevokeRole r a => set_roles s <$> revokeRole (_roles s) sender r a
  | RenounceRole r a => set_roles s <$> renounceRole (_roles s) sender r a
  end.

Definition is_mint (c : call) : bool :=
  match c with Mint _ _ | MintFor _ _ _ => true | _ => false end.

(** A transaction that reverts leaves the state as it was. *)
Definition step (s : State) (tx : address * call) : State :=
  match exec s tx.1 tx.2 with
  | Ok s' => s'
  | Err _ => s
  end.

Definition run (s : State) (txs : list (address * call)) : State :=
  fold_left step txs s.

(** The number of mint operations performed along a run: the mint and
    mintFor transactions that did not revert. *)
Fixpoint mints_performed (s : State) (txs : list (address * call)) : N :=
  match txs with
  | [] => 0
  | tx :: txs' =>
      (if is_mint tx.2 && is_ok (exec s tx.1 tx.2) then 1 else 0)
      + mints_performed (step s tx) txs'
  end.

End Ledger.
End NFT.

(** ** NFT.sol: what one transaction can change *)
Module NFTChanges.
Import AccessControl ERC2981 NFT.

(** The state after ERC721._update moved [tokenId] from [from] to [to]. *)
Definition moved (s : State) (from to : address) (tokenId : N) : State :=
  let '(appr, bal) :=
    if from =? 0 then (_tokenApprovals s, _balances s)
    else (<[tokenId := 0]> (_tokenApprovals s),
          <[from := wrap (get 0 (_balances s) from + 2 ^ 256 - 1)]> (_balances s)) in
  let bal :=
    if to =? 0 then bal else <[to := wrap (get 0 bal to + 1)]> bal in
  set_ownership s (<[tokenId := to]> (_owners s)) bal appr.

(** The state after mint or mintFor issued the next identifier. *)
Definition minted (s : State) (to creator : address) (uri : string) : State :=
  let tokenId := _nextTokenId s in
  let s1 := moved (set_counter s (tokenId + 1)) 0 to tokenId in
  let s2 := set_tokenURIs s1 (<[tokenId := uri]> (_tokenURIs s1)) in
  let s3 := set_creators s2 (<[tokenId := creator]> (_creators s2)) in
  set_royalties s3
    (<[tokenId := {| receiver := creator;
                     royaltyFraction := defaultRoyaltyBps s |}]>
       (_tokenRoyaltyInfo s3)).

(** Every successful transaction of [sender] changes the state in one of
    these ways ([NFTFacts.exec_change]). *)
Inductive change (s : State) (sender : address) : State → Prop :=
| ch_minted to creator uri :
    hasRole (_roles s) MINTER_ROLE sender = true →
    to ≠ 0 → creator ≠ 0 → _ownerOf s (_nextTokenId s) = 0 →
    _nextTokenId s + 1 ≤ MAX_UINT256 → defaultRoyaltyBps s ≤ 10000 →
    change s sender (minted s to creator uri)
| ch_moved to tokenId :
    (sender ≠ 0 →
     _isAuthorized s (_ownerOf s tokenId) sender tokenId = true) →
    change s sender (moved s (_ownerOf s tokenId) to tokenId)
| ch_royalty tokenId rcv bps :
    _ownerOf s tokenId ≠ 0 → rcv ≠ 0 → bps ≤ 1000 →
    get 0 (_creators s) tokenId = sender
    ∨ hasRole (_roles s) DEFAULT_ADMIN_ROLE sender = true →
    change s sender
      (set_royalties s
         (<[tokenId := {| receiver := rcv; royaltyFraction := bps |}]>
            (_tokenRoyaltyInfo s)))
| ch_default bps :
    hasRole (_roles s) DEFAULT_ADMIN_ROLE sender = true → bps ≤ 1000 →
    change s sender (set_defaultRoyaltyBps s bps)
| ch_approved to tokenId :
    _ownerOf s tokenId ≠ 0 →
    change s sender
      (set_tokenApprovals s (<[tokenId := to]> (_tokenApprovals s)))
| ch_operator operator approved :
    operator ≠ 0 →
    change s sender
      (set_approvals s (<[(sender, operator) := approved]> (_operatorApprovals s)))
| ch_roles roles :
    change s sender (set_roles s roles).

(** Identifiers that were not issued yet have no owner. *)
Definition unminted_above (s : State) : Prop :=
  ∀ tokenId, _nextTokenId s ≤ tokenId → _ownerOf s tokenId = 0.

(** A token without an owner has no approved spender, and the null address
    has no operators. *)
Definition approvals_sane (s : State) : Prop :=
  (∀ tokenId, _ownerOf s tokenId = 0 → _getApproved s tokenId = 0)
  ∧ (∀ operator, isApprovedForAll s 0 operator = false).

(** Whether every transaction of a list comes from a real account. *)
Definition real_senders (txs : list (address * call)) : Prop :=
  Forall (λ tx, tx.1 ≠ 0) txs.

End NFTChanges.

(** ** Marketplace.sol: the settlement engine *)
Module Marketplace.

Inductive TokenStandard := ERC721 | ERC1155.

Inductive ListingStatus := Active | Sold | Cancelled.

Definition status_eqb (a b : ListingStatus) : bool :=
  match a, b with
  | Active, Active | Sold, Sold | Cancelled, Cancelled => true
  | _, _ => false
  end.

Record Listing := {
  seller : address;
  tokenContract : address;
  tokenId : N;
  amount : N;      (* 1 for ERC721, variable for ERC1155 *)
  price : N;       (* price in wei *)
  standard : TokenStandard;
  status : ListingStatus;
  createdAt : N
}.

(** The value of [listings[id]] at an id never written: every field is the
    zero value of its type, and the zero value of an enum is its first
    member. *)
Definition no_listing : Listing :=
  {| seller := 0; tokenContract := 0; tokenId := 0; amount := 0; price := 0;
     standard := ERC721; status := Active; createdAt := 0 |}.

Definition with_status (l : Listing) (st : ListingStatus) : Listing :=
  {| seller := seller l; tokenContract := tokenContract l;
     tokenId := tokenId l; amount := amount l; price := price l;
     standard := standard l; status := st; createdAt := createdAt l |}.

Record State := {
  platformFeeBps : N;
  feeRecipient : address;
  _listingIdCounter : N;
  listings : gmap N Listing;
  _sellerListings : gmap N (list N);
  _owner : address;      (* Ownable *)
  _paused : bool         (* Pausable *)
}.

Definition set_platformFeeBps (s : State) (b : N) : State :=
  {| platformFeeBps := b; feeRecipient := feeRecipient s;
     _listingIdCounter := _listingIdCounter s; listings := listings s;
     _sellerListings := _sellerListings s; _owner := _owner s;
     _paused := _paused s |}.

Definition set_feeRecipient (s : State) (a : address) : State :=
  {| platformFeeBps := platformFeeBps s; feeRecipient := a;
     _listingIdCounter := _listingIdCounter s; listings := listings s;
     _sellerListings := _sellerListings s; _owner := _owner s;
     _paused := _paused s |}.

Definition set_listing (s : State) (listingId : N) (l : Listing) : State :=
  {| platformFeeBps := platformFeeBps s; feeRecipient := feeRecipient s;
     _listingIdCounter := _listingIdCounter s;
     listings := <[listingId := l]> (listings s);
     _sellerListings := _sellerListings s; _owner := _owner s;
     _paused := _paused s |}.

Definition add_listing (s : State) (next : N) (listingId : N) (l : Listing)
  : State :=
  {| platformFeeBps := platformFeeBps s; feeRecipient := feeRecipient s;
     _listingIdCounter := next;
     listings := <[listingId := l]> (listings s);
     _sellerListings :=
       <[seller l := get [] (_sellerListings s) (seller l) ++ [listingId]]>
         (_sellerListings s);
     _owner := _owner s; _paused := _paused s |}.

Definition set_owner (s : State) (a : address) : State :=
  {| platformFeeBps := platformFeeBps s; feeRecipient := feeRecipient s;
     _listingIdCounter := _listingIdCounter s; listings := listings s;
     _sellerListings := _sellerListings s; _owner := a;
     _paused := _paused s |}.

Definition set_paused (s : State) (p : bool) : State :=
  {| platformFeeBps := platformFeeBps s; feeRecipient := feeRecipient s;
     _listingIdCounter := _listingIdCounter s; listings := listings s;
     _sellerListings := _sellerListings s; _owner := _owner s;
     _paused := p |}.

Definition constructor (deployer : address) (_feeRecipient : address)
  : result State :=
  _ ← require (negb (_feeRecipient =? 0)) "Invalid fee recipient";
  Ok {| platformFeeBps := 250; feeRecipient := _feeRecipient;
        _listingIdCounter := 0; listings := ∅; _sellerListings := ∅;
        _owner := deployer; _paused := false |}.

(** *** Queries *)
Definition getListing (s : State) (listingId : N) : Listing :=
  get no_listing (listings s) listingId.

Definition getSellerListings (s : State) (seller_ : address) : list N :=
  get [] (_sellerListings s) seller_.

Definition totalListings (s : State) : N := _listingIdCounter s.

Definition isListingActive (s : State) (listingId : N) : bool :=
  status_eqb (status (get no_listing (listings s) listingId)) Active.

(** *** Modifiers (Ownable, Pausable) *)
Definition onlyOwner (s : State) (sender : address) : result unit :=
  if _owner s =? sender then Ok tt else Err OwnableUnauthorizedAccount.

Definition whenNotPaused (s : State) : result unit :=
  if _paused s then Err EnforcedPause else Ok tt.

Definition whenPaused (s : State) : result unit :=
  if _paused s then Ok tt else Err ExpectedPause.

(** *** The token contracts, as the marketplace consumes them

    [T] is the state of every token contract of the chain; each function
    takes the address of the contract that is called.  A call that reverts
    (or reaches an address without such a function) is an [Err]. *)
Class Tokens (T : Type) := {
  (* IERC721: contract, tokenId *)
  IERC721_ownerOf : T → address → N → result address;
  (* IERC721: contract, owner, operator *)
  IERC721_isApprovedForAll : T → address → address → address → result bool;
  (* IERC721: contract, tokenId *)
  IERC721_getApproved : T → address → N → result address;
  (* IERC721: contract, msg.sender, from, to, tokenId *)
  IERC721_safeTransferFrom :
    T → address → address → address → address → N → result T;
  (* IERC1155: contract, account, id *)
  IERC1155_balanceOf : T → address → address → N → result N;
  (* IERC1155: contract, account, operator *)
  IERC1155_isApprovedForAll : T → address → address → address → result bool;
  (* IERC1155: contract, msg.sender, from, to, id, value *)
  IERC1155_safeTransferFrom :
    T → address → address → address → address → N → N → result T;
  (* IERC165: contract; the answer for type(IERC2981).interfaceId *)
  IERC165_supportsRoyalty : T → address → result bool;
  (* IERC2981: contract, tokenId, salePrice *)
  IERC2981_royaltyInfo : T → address → N → N → result (address * N)
}.

(** The chain as far as the marketplace is concerned. *)
Record World (T : Type) := {
  market : State;
  tokens : T;
  balances : gmap N N     (* native currency, in wei *)
}.
Arguments market {T} w.
Arguments tokens {T} w.
Arguments balances {T} w.

(** The Sale event. *)
Record Sale := {
  sale_listingId : N;
  sale_buyer : address;
  sale_seller : address;
  sale_price : N;
  sale_platformFee : N;
  sale_royaltyAmount : N;
  sale_royaltyReceiver : address
}.

(** What a successful buy did: the event it emitted and the value transfers
    it performed, in order. *)
Record Receipt := {
  sale : Sale;
  payouts : list (address * N)
}.

Section Engine.
Context {T : Type} `{Tokens T}.
(** The address of the marketplace contract. *)
Variable this : address.
(** Whether a plain value transfer to an address succeeds: [true] for an
    externally owned account, and for a contract whether its receive hook
    accepts.  The hook is taken to have no other effect on the modelled
    state. *)
Variable payable : address → bool.

(** _transferETH: (bool success, ) = payable(to).call{value: amount}("") *)
Definition _transferETH (eth : gmap N N) (to : address) (amount : N)
  : result (gmap N N) :=
  _ ← require ((amount <=? get 0 eth this) && payable to) "ETH transfer failed";
  let eth1 := <[this := get 0 eth this - amount]> eth in
  Ok (<[to := get 0 eth1 to + amount]> eth1).

(** _supportsRoyalty: try ... catch { return false; } *)
Definition _supportsRoyalty (t : T) (tokenContract_ : address) : bool :=
  match IERC165_supportsRoyalty t tokenContract_ with
  | Ok supported => supported
  | Err _ => false
  end.

Definition listERC721 (w : World T) (sender : address) (timestamp : N)
    (tokenContract_ : address) (tokenId_ price_ : N)
  : result (World T * N) :=
  _ ← whenNotPaused (market w);
  _ ← require (0 <? price_) "Price must be greater than 0";
  owner ← IERC721_ownerOf (tokens w) tokenContract_ tokenId_;
  _ ← require (owner =? sender) "Not token owner";
  all ← IERC721_isApprovedForAll (tokens w) tokenContract_ sender this;
  approved ← (if all : bool then Ok true else
                a ← IERC721_getApproved (tokens w) tokenContract_ tokenId_;
                Ok (a =? this));
  _ ← require approved "Marketplace not approved";
  let listingId := _listingIdCounter (market w) in
  next ← checked_add (_listingIdCounter (market w)) 1;
  let l := {| seller := sender; tokenContract := tokenContract_;
              tokenId := tokenId_; amount := 1; price := price_;
              standard := ERC721; status := Active; createdAt := timestamp |} in
  Ok ({| market := add_listing (market w) next listingId l;
         tokens := tokens w; balances := balances w |}, listingId).

Definition listERC1155 (w : World T) (sender : address) (timestamp : N)
    (tokenContract_ : address) (tokenId_ amount_ price_ : N)
  : result (World T * N) :=
  _ ← whenNotPaused (market w);
  _ ← require (0 <? price_) "Price must be greater than 0";
  _ ← require (0 <? amount_) "Amount must be greater than 0";
  bal ← IERC1155_balanceOf (tokens w) tokenContract_ sender tokenId_;
  _ ← require (amount_ <=? bal) "Insufficient balance";
  approved ← IERC1155_isApprovedForAll (tokens w) tokenContract_ sender this;
  _ ← require approved "Marketplace not approved";
  let listingId := _listingIdCounter (market w) in
  next ← checked_add (_listingIdCounter (market w)) 1;
  let l := {| seller := sender; tokenContract := tokenContract_;
              tokenId := tokenId_; amount := amount_; price := price_;
              standard := ERC1155; status := Active; createdAt := timestamp |} in
  Ok ({| market := add_listing (market w) next listingId l;
         tokens := tokens w; balances := balances w |}, listingId).

(** The fee and royalty computation of buy (the royalty part). *)
Definition royalty_due (t : T) (listing : Listing) : result (address * N) :=
  if _supportsRoyalty t (tokenContract listing) then
    '(royaltyReceiver, royaltyAmount) ←
      IERC2981_royaltyInfo t (tokenContract listing) (tokenId listing)
        (price listing);
    (* Cap royalty at 10% to prevent abuse *)
    p ← checked_mul (price listing) 1000;
    let maxRoyalty := p / 10000 in
    let royaltyAmount :=
      if maxRoyalty <? royaltyAmount then maxRoyalty else royaltyAmount in
    (* Don't pay royalty to seller *)
    let royaltyAmount :=
      if royaltyReceiver =? seller listing then 0 else royaltyAmount in
    Ok (royaltyReceiver, royaltyAmount)
  else Ok (0, 0).

(** buy, on the world in which [msg.value] has already been credited to the
    marketplace. *)
Definition buy (w : World T) (sender : address) (value : N) (listingId : N)
  : result (World T * Receipt) :=
  _ ← whenNotPaused (market w);
  let listing := get no_listing (listings (market w)) listingId in
  _ ← require (status_eqb (status listing) Active) "Listing not active";
  _ ← require (negb (sender =? seller listing)) "Cannot buy own listing";
  _ ← require (value =? price listing) "Incorrect payment amount";
  let m := set_listing (market w) listingId (with_status listing Sold) in
  (* Calculate fees *)
  p ← checked_mul (price listing) (platformFeeBps m);
  let platformFee := p / 10000 in
  '(royaltyReceiver, royaltyAmount) ← royalty_due (tokens w) listing;
  (* Calculate seller proceeds *)
  d ← checked_sub (price listing) platformFee;
  sellerProceeds ← checked_sub d royaltyAmount;
  (* Transfer NFT to buyer *)
  t ← match standard listing with
      | ERC721 =>
          IERC721_safeTransferFrom (tokens w) (tokenContract listing) this
            (seller listing) sender (tokenId listing)
      | ERC1155 =>
          IERC1155_safeTransferFrom (tokens w) (tokenContract listing) this
            (seller listing) sender (tokenId listing) (amount listing)
      end;
  (* Transfer payments *)
  '(eth1, paid1) ←
    (if 0 <? platformFee then
       e ← _transferETH (balances w) (feeRecipient m) platformFee;
       Ok (e, [(feeRecipient m, platformFee)])
     else Ok (balances w, []));
  '(eth2, paid2) ←
    (if (0 <? royaltyAmount) && negb (royaltyReceiver =? 0) then
       e ← _transferETH eth1 royaltyReceiver royaltyAmount;
       Ok (e, paid1 ++ [(royaltyReceiver, royaltyAmount)])
     else Ok (eth1, paid1));
  eth3 ← _transferETH eth2 (seller listing) sellerProceeds;
  Ok ({| market := m; tokens := t; balances := eth3 |},
      {| sale := {| sale_listingId := listingId; sale_buyer := sender;
                    sale_seller := seller listing;
                    sale_price := price listing;
                    sale_platformFee := platformFee;
                    sale_royaltyAmount := royaltyAmount;
                    sale_royaltyReceiver := royaltyReceiver |};
         payouts := paid2 ++ [(seller listing, sellerProceeds)] |}).

Definition cancelListing (s : State) (sender : address) (listingId : N)
  : result State :=
  let listing := get no_listing (listings s) listingId in
  _ ← require (status_eqb (status listing) Active) "Listing not active";
  _ ← require ((seller listing =? sender) || (sender =? _owner s))
        "Not authorized";
  Ok (set_listing s listingId (with_status listing Cancelled)).

Definition setPlatformFee (s : State) (sender : address) (newFeeBps : N)
  : result State :=
  _ ← onlyOwner s sender;
  _ ← require (newFeeBps <=? 1000) "Fee cannot exceed 10%";
  Ok (set_platformFeeBps s newFeeBps).

Definition setFeeRecipient (s : State) (sender : address)
    (newRecipient : address) : result State :=
  _ ← onlyOwner s sender;
  _ ← require (negb (newRecipient =? 0)) "Invalid recipient";
  Ok (set_feeRecipient s newRecipient).

Definition pause (s : State) (sender : address) : result State :=
  _ ← onlyOwner s sender;
  _ ← whenNotPaused s;
  Ok (set_paused s true).

Definition unpause (s : State) (sender : address) : result State :=
  _ ← onlyOwner s sender;
  _ ← whenPaused s;
  Ok (set_paused s false).

Definition transferOwnership (s : State) (sender : address)
    (newOwner : address) : result State :=
  _ ← onlyOwner s sender;
  _ ← ensure (negb (newOwner =? 0)) "OwnableInvalidOwner";
  Ok (set_owner s newOwner).

Definition renounceOwnership (s : State) (sender : address) : result State :=
  _ ← onlyOwner s sender;
  Ok (set_owner s 0).

(** *** Transactions *)
Inductive call :=
| ListERC721 (tokenContract_ : address) (tokenId_ price_ : N)
| ListERC1155 (tokenContract_ : address) (tokenId_ amount_ price_ : N)
| Buy (listingId : N)
| CancelListing (listingId : N)
| SetPlatformFee (newFeeBps : N)
| SetFeeRecipient (newRecipient : address)
| Pause
| Unpause
| TransferOwnership (newOwner : address)
| RenounceOwnership
| Receive.

Record tx := {
  tx_sender : address;
  tx_value : N;
  tx_timestamp : N;
  tx_call : call
}.

Definition with_market (w : World T) (s : State) : World T :=
  {| market := s; tokens := tokens w; balances := balances w |}.

(** Moving [msg.value] from the caller to the marketplace, which the EVM
    does before the first instruction of the callee. *)
Definition credit (w : World T) (sender : address) (value : N) : World T :=
  let eth1 := <[sender := get 0 (balances w) sender - value]> (balances w) in
  {| market := market w; tokens := tokens w;
     balances := <[this := get 0 eth1 this + value]> eth1 |}.

Definition payable_call (c : call) : bool :=
  match c with Buy _ | Receive => true | _ => false end.

(** The external functions, by selector. *)
Definition dispatch (w : World T) (x : tx) : result (World T) :=
  let sender := tx_sender x in
  match tx_call x with
  | ListERC721 tc id p => fst <$> listERC721 w sender (tx_timestamp x) tc id p
  | ListERC1155 tc id a p =>
      fst <$> listERC1155 w sender (tx_timestamp x) tc id a p
  | Buy id => fst <$> buy w sender (tx_value x) id
  | CancelListing id => with_market w <$> cancelListing (market w) sender id
  | SetPlatformFee b => with_market w <$> setPlatformFee (market w) sender b
  | SetFeeRecipient a => with_market w <$> setFeeRecipient (market w) sender a
  | Pause => with_market w <$> pause (market w) sender
  | Unpause => with_market w <$> unpause (market w) sender
  | TransferOwnership a => with_market w <$> transferOwnership (market w) sender a
  | RenounceOwnership => with_market w <$> renounceOwnership (market w) sender
  | Receive => Ok w
  end.

(** A transaction: the caller must hold [msg.value], only buy and the
    receive hook take value, and the value is credited before the call. *)
Definition exec (w : World T) (x : tx) : result (World T) :=
  _ ← ensure (tx_value x <=? get 0 (balances w) (tx_sender x)) "InsufficientFunds";
  _ ← ensure (payable_call (tx_call x) || (tx_value x =? 0)) "NonPayable";
  dispatch (credit w (tx_sender x) (tx_value x)) x.

(** What can happen between two observations of the marketplace: one of
    its own transactions, or anything else on the chain, which changes the
    token contracts and the native balances but not the marketplace's
    storage. *)
Inductive event :=
| Tx (x : tx)
| Elsewhere (t : T) (eth : gmap N N).

(** The listing a buy or a cancellation names. *)
Definition target_of (e : event) : option N :=
  match e with
  | Tx x =>
      match tx_call x with
      | Buy listingId | CancelListing listingId => Some listingId
      | _ => None
      end
  | Elsewhere _ _ => None
  end.

(** A transaction that reverts leaves the world as it was. *)
Definition step (w : World T) (e : event) : World T :=
  match e with
  | Tx x => match exec w x with Ok w' => w' | Err _ => w end
  | Elsewhere t eth => {| market := market w; tokens := t; balances := eth |}
  end.

Definition run (w : World T) (es : list event) : World T :=
  fold_left step es w.

Definition is_list (c : call) : bool :=
  match c with
  | ListERC721 _ _ _ | ListERC1155 _ _ _ _ => true
  | _ => false
  end.

(** The number of listings created along a run: the listERC721 and
    listERC1155 transactions that did not revert. *)
Fixpoint lists_performed (w : World T) (es : list event) : N :=
  match es with
  | [] => 0
  | e :: es' =>
      (match e with
       | Tx x => if is_list (tx_call x) && is_ok (exec w x) then 1 else 0
       | Elsewhere _ _ => 0
       end)
      + lists_performed (step w e) es'
  end.



End Engine.


(** The administrative configuration. *)
Definition config (m : State) : N * address * address * bool :=
  (platformFeeBps m, feeRecipient m, _owner m, _paused m).

(** The index of a seller holds, in increasing order, the ids of the
    listings the seller created. *)
Definition index_consistent (m : State) : Prop :=
  ∀ a, StronglySorted N.lt (getSellerListings m a)
       ∧ ∀ listingId,
           listingId ∈ getSellerListings m a
           ↔ listingId < _listingIdCounter m
             ∧ seller (getListing m listingId) = a.

(** *** The ways one step can change the marketplace's storage

    Every event leaves the storage as it is or changes it in one of these
    ways ([MarketplaceFacts.step_market_change]); the invariants of the engine are
    proved by cases on this relation. *)
Inductive market_change (m : State) (tgt : option N) : State → Prop :=
| mc_none : market_change m tgt m
| mc_listed l :
    status l = Active → 0 < price l → _paused m = false →
    _listingIdCounter m + 1 ≤ MAX_UINT256 →
    market_change m tgt
      (add_listing m (_listingIdCounter m + 1) (_listingIdCounter m) l)
| mc_sold listingId :
    tgt = Some listingId →
    status (getListing m listingId) = Active → _paused m = false →
    market_change m tgt
      (set_listing m listingId (with_status (getListing m listingId) Sold))
| mc_cancelled listingId :
    tgt = Some listingId →
    status (getListing m listingId) = Active →
    market_change m tgt
      (set_listing m listingId (with_status (getListing m listingId) Cancelled))
| mc_fee b : b ≤ 1000 → market_change m tgt (set_platformFeeBps m b)
| mc_recipient a : a ≠ 0 → market_change m tgt (set_feeRecipient m a)
| mc_paused b : market_change m tgt (set_paused m b)
| mc_owner a : market_change m tgt (set_owner m a).

End Marketplace.

(** ** The two ledgers of the repository behind the marketplace's interfaces *)
Module Deployment.
Import Marketplace.

Record Chain := {
  nft : NFT.State;
  editions : NFTMultiEdition.State
}.

Definition NoSuchFunction : revert := CustomError "NoSuchFunction".

Section Deployed.
(** Where the two token contracts live. *)
Variables nftAddress editionsAddress : address.
(** The receiver hooks of the accounts of the chain. *)
Variable accept721 : address → address → address → N → bool.
Variable accept1155 : address → address → address → list N → list N → bool.

(** isApprovedForAll(address,address) has one selector in both standards;
    the other functions exist in one of the two contracts only. *)
#[local] Instance deployed : Tokens Chain := {|
  IERC721_ownerOf c a id :=
    if a =? nftAddress then NFT.ownerOf (nft c) id else Err NoSuchFunction;
  IERC721_isApprovedForAll c a owner operator :=
    if a =? nftAddress then Ok (NFT.isApprovedForAll (nft c) owner operator)
    else if a =? editionsAddress
    then Ok (NFTMultiEdition.isApprovedForAll (editions c) owner operator)
    else Err NoSuchFunction;
  IERC721_getApproved c a id :=
    if a =? nftAddress then NFT.getApproved (nft c) id else Err NoSuchFunction;
  IERC721_safeTransferFrom c a sender from to id :=
    if a =? nftAddress then
      n ← NFT.safeTransferFrom accept721 (nft c) sender from to id;
      Ok {| nft := n; editions := editions c |}
    else Err NoSuchFunction;
  IERC1155_balanceOf c a account id :=
    if a =? nftAddress then Err NoSuchFunction
    else if a =? editionsAddress
    then Ok (NFTMultiEdition.balanceOf (editions c) account id)
    else Err NoSuchFunction;
  IERC1155_isApprovedForAll c a owner operator :=
    if a =? nftAddress then Ok (NFT.isApprovedForAll (nft c) owner operator)
    else if a =? editionsAddress
    then Ok (NFTMultiEdition.isApprovedForAll (editions c) owner operator)
    else Err NoSuchFunction;
  IERC1155_safeTransferFrom c a sender from to id value :=
    if a =? nftAddress then Err NoSuchFunction
    else if a =? editionsAddress then
      e ← NFTMultiEdition.safeTransferFrom accept1155 (editions c) sender
            from to id value;
      Ok {| nft := nft c; editions := e |}
    else Err NoSuchFunction;
  IERC165_supportsRoyalty c a :=
    if (a =? nftAddress) || (a =? editionsAddress) then Ok true
    else Err NoSuchFunction;
  IERC2981_royaltyInfo c a id salePrice :=
    if a =? nftAddress then NFT.royaltyInfo (nft c) id salePrice
    else if a =? editionsAddress
    then NFTMultiEdition.royaltyInfo (editions c) id salePrice
    else Err NoSuchFunction
|}.

Variable this : address.
Variable payable : address → bool.


End Deployed.

(** *** A concrete chain, for the examples *)
Definition everyone721 : address → address → address → N → bool :=
  fun _ _ _ _ => true.
Definition everyone1155
  : address → address → address → list N → list N → bool :=
  fun _ _ _ _ _ => true.
Definition everyone : address → bool := fun _ => true.

Definition deployer : address := 0xD0.
Definition feeAccount : address := 0xFE.
Definition alice : address := 0xA1.     (* seller *)
Definition bob : address := 0xB0.       (* buyer *)
Definition carol : address := 0xC0.     (* creator *)
Definition nftAt : address := 0x721.
Definition editionsAt : address := 0x1155.
Definition marketAt : address := 0x3A.

Definition ether : N := 1000000000000000000.

#[export] Instance chain_tokens : Tokens Chain :=
  deployed nftAt editionsAt everyone721 everyone1155.

Definition market0 : State :=
  {| platformFeeBps := 250; feeRecipient := feeAccount;
     _listingIdCounter := 0; listings := ∅; _sellerListings := ∅;
     _owner := deployer; _paused := false |}.

Definition genesis : World Chain :=
  {| market := market0;
     tokens := {| nft := NFT.constructor deployer 500;
                  editions := NFTMultiEdition.constructor deployer 500 |};
     balances := <[bob := 10 * ether]> ∅ |}.

Definition at_nft (c : NFT.call) (w : World Chain) (sender : address)
  : World Chain :=
  {| market := market w;
     tokens := {| nft := NFT.step everyone721 (nft (tokens w)) (sender, c);
                  editions := editions (tokens w) |};
     balances := balances w |}.

Definition at_editions (c : NFTMultiEdition.call) (w : World Chain)
    (sender : address) : World Chain :=
  {| market := market w;
     tokens := {| nft := nft (tokens w);
                  editions := NFTMultiEdition.step everyone1155
                                (editions (tokens w)) (sender, c) |};
     balances := balances w |}.


(** The deployer mints token 0 for alice with creator carol; alice approves
    the marketplace for it and lists it at one ether. *)
Definition minted : World Chain :=
  at_nft (NFT.Approve marketAt 0)
    (at_nft (NFT.MintFor alice carol "ipfs://withRoyalty") genesis deployer)
    alice.

Definition call_at (sender : address) (value : N) (c : call) : @event Chain :=
  Tx {| tx_sender := sender; tx_value := value; tx_timestamp := 1700000000;
        tx_call := c |}.

Definition listing_events : list (@event Chain) :=
  [Elsewhere (tokens minted) (balances minted);
   call_at alice 0 (ListERC721 nftAt 0 ether)].

Definition listed : World Chain := run marketAt everyone genesis listing_events.

Definition sold : World Chain :=
  run marketAt everyone genesis (listing_events ++ [call_at bob ether (Buy 0)]).

Definition halted : World Chain :=
  run marketAt everyone genesis (listing_events ++ [call_at deployer 0 Pause]).

(** The deployer creates an edition of at most 100 and mints 10 of it to
    alice; alice approves the marketplace and lists 3 of them at a tenth of
    an ether. *)
Definition editions_minted : World Chain :=
  at_editions (NFTMultiEdition.SetApprovalForAll marketAt true)
    (at_editions
       (NFTMultiEdition.CreateAndMint alice alice "ipfs://token1155" 100 10)
       genesis deployer)
    alice.

Definition editions_listed : World Chain :=
  run marketAt everyone genesis
    [Elsewhere (tokens editions_minted) (balances editions_minted);
     call_at alice 0 (ListERC1155 editionsAt 0 3 (ether / 10))].

(** The deployer creates a type of at most 10 units and mints 5 to alice. *)
Definition half_minted : list (address * NFTMultiEdition.call) :=
  [(deployer, NFTMultiEdition.CreateEdition carol "ipfs://edition" 10);
   (deployer, NFTMultiEdition.MintEdition alice 0 5)].

End Deployment.

(** * Properties *)

(** ** Facts about the prelude *)
Module SolFacts.

Lemma get_insert_eq {K V} `{Countable K} (d : V) (m : gmap K V) k v :
  get d (<[k := v]> m) k = v.
Proof. unfold get. by rewrite lookup_insert_eq. Qed.

Lemma get_insert_ne {K V} `{Countable K} (d : V) (m : gmap K V) k k' v :
  k ≠ k' → get d (<[k := v]> m) k' = get d m k'.
Proof. intros. unfold get. by rewrite lookup_insert_ne. Qed.

Lemma bind_ok {A B} (m : result A) (f : A → result B) b :
  m ≫= f = Ok b → ∃ a, m = Ok a ∧ f a = Ok b.
Proof. destruct m; cbn; [eauto | discriminate]. Qed.

Lemma require_ok c reason : require c reason = Ok tt → c = true.
Proof. by destruct c. Qed.

Lemma ensure_ok c e : ensure c e = Ok tt → c = true.
Proof. by destruct c. Qed.


Lemma fmap_ok {A B} (f : A → B) (m : result A) b :
  f <$> m = Ok b → ∃ a, m = Ok a ∧ b = f a.
Proof. destruct m; cbn; [intros [= <-]; eauto | discriminate]. Qed.

Lemma checked_add_ok a b c :
  checked_add a b = Ok c → c = a + b ∧ a + b ≤ MAX_UINT256.
Proof.
  unfold checked_add. destruct (N.leb_spec (a + b) MAX_UINT256); [|discriminate].
  by intros [= <-].
Qed.

Lemma checked_mul_ok a b c : checked_mul a b = Ok c → c = a * b.
Proof. unfold checked_mul. case_match; [|discriminate]. by intros [= <-]. Qed.

Lemma checked_sub_ok a b c : checked_sub a b = Ok c → b ≤ a ∧ c = a - b.
Proof.
  unfold checked_sub. destruct (N.leb_spec b a); [|discriminate].
  by intros [= <-].
Qed.

Lemma checked_add_fits a b :
  a + b ≤ MAX_UINT256 → checked_add a b = Ok (a + b).
Proof. intros Hle. unfold checked_add. by apply N.leb_le in Hle as ->. Qed.

End SolFacts.
Import SolFacts.

(** Division by a constant, for [lia] and [nia]. *)
Ltac Zify.zify_post_hook ::= Z.to_euclidean_division_equations.

(** Closing a goal about concrete data by evaluation in the virtual
    machine; the two sides of an equation are compared there, so that no
    evaluated state ends up in the proof. *)
Ltac by_compute :=
  lazymatch goal with
  | |- _ ∧ _ => split; by_compute
  | |- @eq _ _ ?b => vm_cast_no_check (@eq_refl _ b)
  | |- N.lt _ _ => vm_cast_no_check (@eq_refl comparison Lt)
  | |- _ => let H := fresh in intros H; vm_compute in H; discriminate H
  end.

(** Splitting a monadic equation [x ← m; k = Ok r] at its first call. *)
Ltac bind_inv H x Hx := apply bind_ok in H; destruct H as (x & Hx & H).
Ltac require_inv H Hc :=
  let u := fresh "u" in
  apply bind_ok in H; destruct H as (u & Hc & H); destruct u;
  first [apply require_ok in Hc | apply ensure_ok in Hc].

(** ** The multi-edition ledger *)
Module NFTMultiEditionFacts.
Import AccessControl ERC2981 NFTMultiEdition.

Lemma onlyRole_ok roles role sender u :
  onlyRole roles role sender = Ok u → hasRole roles role sender = true.
Proof. unfold onlyRole. by destruct (hasRole roles role sender). Qed.

Lemma onlyRole_granted roles role sender :
  hasRole roles role sender = true → onlyRole roles role sender = Ok tt.
Proof. unfold onlyRole. by intros ->. Qed.

Lemma _setTokenRoyalty_ok m id rcv fee m' :
  _setTokenRoyalty m id rcv fee = Ok m' →
  fee ≤ 10000 ∧ rcv ≠ 0
  ∧ m' = <[id := {| receiver := rcv; royaltyFraction := fee |}]> m.
Proof.
  unfold _setTokenRoyalty. intros Hs. require_inv Hs Hfee. require_inv Hs Hrcv.
  injection Hs as <-. apply N.leb_le in Hfee.
  by apply negb_true_iff, N.eqb_neq in Hrcv.
Qed.

Lemma tokenType_set_types_eq s n m id t :
  tokenType (set_types s n (<[id := t]> m)) id = t.
Proof. unfold tokenType. cbn. apply get_insert_eq. Qed.

Section Ledger.
Variable acceptance : address → address → address → list N → list N → bool.

(** The ledger functions leave the type records, the royalties and the
    roles alone. *)
Lemma _update_ok s from to ids values s' :
  _update s from to ids values = Ok s' →
  ∃ b t a, s' = set_ledger s b t a.
Proof.
  unfold _update. intros Hu. bind_inv Hu bal Hbal.
  bind_inv Hu ta Hta. destruct ta as [ts all].
  destruct (to =? 0); [destruct (_supply_burn ts 0 ids values)|];
    injection Hu as <-; eauto.
Qed.

Lemma _updateWithAcceptanceCheck_ok s operator from to ids values s' :
  _updateWithAcceptanceCheck acceptance s operator from to ids values = Ok s' →
  ∃ b t a, s' = set_ledger s b t a.
Proof.
  unfold _updateWithAcceptanceCheck. intros Hu. bind_inv Hu s1 Hs1.
  require_inv Hu Hacc. injection Hu as <-. by eapply _update_ok.
Qed.

(** Minting one id, spelled out. *)
Lemma _mint_eq s operator to id value :
  _mint acceptance s operator to id value =
    (_ ← ensure (negb (to =? 0)) "ERC1155InvalidReceiver";
     b ← checked_add (balanceOf s to id) value;
     t ← checked_add (totalSupply s id) value;
     v ← checked_add 0 value;
     a ← checked_add (_totalSupplyAll s) v;
     _ ← ensure (acceptance operator 0 to [id] [value]) "ERC1155InvalidReceiver";
     Ok (set_ledger s (<[(id, to) := b]> (_balances s))
           (<[id := t]> (_totalSupply s)) a)).
Proof.
  unfold _mint, _updateWithAcceptanceCheck, _update, balanceOf, totalSupply.
  destruct (N.eqb_spec to 0) as [->|Hto]; [done|]. cbn.
  apply N.eqb_neq in Hto. rewrite ?Hto.
  destruct (checked_add (get 0 (_balances s) (id, to)) value); [|done]. cbn.
  destruct (checked_add (get 0 (_totalSupply s) id) value); [|done]. cbn.
  destruct (checked_add 0 value) as [v|]; [|done]. cbn.
  by destruct (checked_add (_totalSupplyAll s) v).
Qed.

Lemma _mint_ok s operator to id value s' :
  _mint acceptance s operator to id value = Ok s' →
  to ≠ 0 ∧
  s' = set_ledger s (<[(id, to) := balanceOf s to id + value]> (_balances s))
         (<[id := totalSupply s id + value]> (_totalSupply s))
         (_totalSupplyAll s + value)
  ∧ acceptance operator 0 to [id] [value] = true
  ∧ balanceOf s to id + value ≤ MAX_UINT256
  ∧ totalSupply s id + value ≤ MAX_UINT256
  ∧ _totalSupplyAll s + value ≤ MAX_UINT256.
Proof.
  rewrite _mint_eq. intros Hm. require_inv Hm Hto.
  apply negb_true_iff, N.eqb_neq in Hto.
  bind_inv Hm b Hb. apply checked_add_ok in Hb as [-> ?].
  bind_inv Hm t Ht. apply checked_add_ok in Ht as [-> ?].
  bind_inv Hm v Hv. apply checked_add_ok in Hv as [-> ?].
  bind_inv Hm a Ha. apply checked_add_ok in Ha as [-> ?].
  require_inv Hm Hacc. by injection Hm as <-.
Qed.


Lemma mintEdition_ok s sender to id amount s' :
  mintEdition acceptance s sender to id amount = Ok s' →
  let t := tokenType s id in
  hasRole (_roles s) MINTER_ROLE sender = true ∧ 0 < amount ∧ creator t ≠ 0
  ∧ (0 < maxSupply t → mintedSupply t + amount ≤ maxSupply t)
  ∧ to ≠ 0
  ∧ s' = set_ledger
           (set_types s (_nextTokenTypeId s)
              (<[id := minted_type t amount]> (_tokenTypes s)))
           (<[(id, to) := balanceOf s to id + amount]> (_balances s))
           (<[id := totalSupply s id + amount]> (_totalSupply s))
           (_totalSupplyAll s + amount).
Proof.
  unfold mintEdition. intros Hm. bind_inv Hm u Hrole.
  apply onlyRole_ok in Hrole. require_inv Hm Hamt. apply N.ltb_lt in Hamt.
  require_inv Hm Hex. apply negb_true_iff, N.eqb_neq in Hex.
  bind_inv Hm u' Hmax. bind_inv Hm minted Hminted.
  apply checked_add_ok in Hminted as [-> _].
  apply _mint_ok in Hm as (Hto & -> & _). cbv zeta.
  split; [done|]. split; [done|]. split; [done|]. split; [|done].
  intros Hb. apply N.ltb_lt in Hb. rewrite Hb in Hmax.
  bind_inv Hmax sm Hsum. apply checked_add_ok in Hsum as [-> _].
  destruct u'. apply require_ok in Hmax. by apply N.leb_le.
Qed.

Lemma createEdition_ok s sender cr u m s' id :
  createEdition s sender cr u m = Ok (s', id) →
  hasRole (_roles s) MINTER_ROLE sender = true ∧ cr ≠ 0 ∧ u ≠ EmptyString
  ∧ id = _nextTokenTypeId s ∧ id + 1 ≤ MAX_UINT256
  ∧ s' = set_royalties
           (set_types s (id + 1)
              (<[id := {| creator := cr; uri := u; maxSupply := m;
                          mintedSupply := 0 |}]> (_tokenTypes s)))
           (<[id := {| receiver := cr; royaltyFraction := defaultRoyaltyBps s |}]>
              (_tokenRoyaltyInfo s)).
Proof.
  unfold createEdition. intros Hc. bind_inv Hc u0 Hrole.
  apply onlyRole_ok in Hrole. require_inv Hc Hcr.
  apply negb_true_iff, N.eqb_neq in Hcr. require_inv Hc Huri.
  bind_inv Hc next Hnext. apply checked_add_ok in Hnext as [-> Hfit].
  bind_inv Hc r Hr. apply _setTokenRoyalty_ok in Hr as (_ & _ & ->).
  injection Hc as <- <-. repeat split; try done.
  intros ->. discriminate.
Qed.

Lemma createAndMint_ok s sender to cr u m amount s' id :
  createAndMint acceptance s sender to cr u m amount = Ok (s', id) →
  hasRole (_roles s) MINTER_ROLE sender = true ∧ 0 < amount
  ∧ (m = 0 ∨ amount ≤ m) ∧ cr ≠ 0 ∧ to ≠ 0
  ∧ id = _nextTokenTypeId s ∧ id + 1 ≤ MAX_UINT256
  ∧ s' = set_ledger
           (set_royalties
              (set_types s (id + 1)
                 (<[id := {| creator := cr; uri := u; maxSupply := m;
                             mintedSupply := amount |}]> (_tokenTypes s)))
              (<[id := {| receiver := cr;
                          royaltyFraction := defaultRoyaltyBps s |}]>
                 (_tokenRoyaltyInfo s)))
           (<[(id, to) := balanceOf s to id + amount]> (_balances s))
           (<[id := totalSupply s id + amount]> (_totalSupply s))
           (_totalSupplyAll s + amount).
Proof.
  unfold createAndMint. intros Hc. bind_inv Hc u0 Hrole.
  apply onlyRole_ok in Hrole. require_inv Hc Hamt. apply N.ltb_lt in Hamt.
  require_inv Hc Hmax.
  bind_inv Hc next Hnext. apply checked_add_ok in Hnext as [-> Hfit].
  bind_inv Hc r Hr. apply _setTokenRoyalty_ok in Hr as (_ & Hcr & ->).
  bind_inv Hc s2 Hs2. apply _mint_ok in Hs2 as (Hto & -> & _).
  injection Hc as <- <-. repeat split; try done.
  apply orb_true_iff in Hmax as [?%N.eqb_eq | ?%N.leb_le]; auto.
Qed.

(** One transaction changes the type records in one of the ways of
    [types_change]. *)
Lemma exec_types_change s sender c s' :
  exec acceptance s sender c = Ok s' → types_change s s'.
Proof.
  destruct c; cbn [exec]; intros He.
  - apply fmap_ok in He as ([s1 id] & Hc & ->).
    apply createEdition_ok in Hc as (_ & _ & _ & -> & _ & ->).
    eapply tc_created; cbn; [done | done | by right; cbn; lia].
  - apply mintEdition_ok in He as (_ & _ & Hex & Hmax & _ & ->).
    by eapply tc_minted.
  - apply fmap_ok in He as ([s1 id] & Hc & ->).
    apply createAndMint_ok in Hc as (_ & _ & Hmax & _ & _ & -> & _ & ->).
    eapply tc_created; cbn; [done | done | ].
    cbn. destruct Hmax; auto.
  - unfold setTokenRoyalty in He. require_inv He H1. require_inv He H2.
    require_inv He H3. bind_inv He r Hr. injection He as <-. by apply tc_none.
  - unfold setApprovalForAll in He. require_inv He H1. injection He as <-.
    by apply tc_none.
  - unfold safeTransferFrom, safeBatchTransferFrom in He.
    require_inv He H1. require_inv He H2. require_inv He H3.
    apply _updateWithAcceptanceCheck_ok in He as (b & t & a & ->).
    by apply tc_none.
  - unfold safeBatchTransferFrom in He.
    require_inv He H1. require_inv He H2. require_inv He H3.
    apply _updateWithAcceptanceCheck_ok in He as (b & t & a & ->).
    by apply tc_none.
  - unfold burn, burnBatch, _burnBatch in He.
    require_inv He H1. require_inv He H2.
    apply _updateWithAcceptanceCheck_ok in He as (b & t & a & ->).
    by apply tc_none.
  - unfold burnBatch, _burnBatch in He.
    require_inv He H1. require_inv He H2.
    apply _updateWithAcceptanceCheck_ok in He as (b & t & a & ->).
    by apply tc_none.
  - apply fmap_ok in He as (r & _ & ->). by apply tc_none.
  - apply fmap_ok in He as (r & _ & ->). by apply tc_none.
  - apply fmap_ok in He as (r & _ & ->). by apply tc_none.
Qed.

Lemma step_types_change s tx : types_change s (step acceptance s tx).
Proof.
  unfold step. destruct (exec acceptance s tx.1 tx.2) eqn:He.
  - by eapply exec_types_change.
  - by apply tc_none.
Qed.

Lemma fresh_above_change s s' :
  types_change s s' → fresh_above s → fresh_above s'.
Proof.
  intros Hc Hf id. destruct Hc as [s' Hn Ht | s' t Hn Ht _ | s' id' a Hn Hex Ht _];
    rewrite Hn, Ht; intros Hid.
  - by apply Hf.
  - rewrite lookup_insert_ne by lia. apply Hf. lia.
  - rewrite lookup_insert_ne; [by apply Hf|].
    intros ->. apply Hex. unfold tokenType, get. by rewrite (Hf id Hid).
Qed.

Lemma within_max_change s s' :
  types_change s s' → fresh_above s → within_max s → within_max s'.
Proof.
  intros Hc Hf Hw id. unfold tokenType.
  destruct Hc as [s' Hn Ht | s' t Hn Ht Hm | s' id' a Hn Hex Ht Hm]; rewrite Ht.
  - apply Hw.
  - destruct (decide (_nextTokenTypeId s = id)) as [<-|Hne].
    + rewrite get_insert_eq. destruct Hm; lia.
    + rewrite get_insert_ne by done. apply Hw.
  - destruct (decide (id' = id)) as [<-|Hne].
    + rewrite get_insert_eq. cbn. done.
    + rewrite get_insert_ne by done. apply Hw.
Qed.


Lemma run_snoc s txs tx :
  run acceptance s (txs ++ [tx]) = step acceptance (run acceptance s txs) tx.
Proof. unfold run. by rewrite fold_left_app. Qed.

Lemma invariants_run deployer bps txs :
  let s := run acceptance (constructor deployer bps) txs in
  fresh_above s ∧ within_max s.
Proof.
  induction txs as [|tx txs IH] using rev_ind; cbv zeta.
  - split; intros id; cbn; [done|]. unfold tokenType, get. cbn.
    rewrite lookup_empty. cbn. lia.
  - rewrite run_snoc. destruct IH as [Hf Hw].
    pose proof (step_types_change (run acceptance (constructor deployer bps) txs) tx).
    split; [by eapply fresh_above_change | by eapply within_max_change].
Qed.


(** X25: where createAndMint and the composition of createEdition and
    mintEdition agree: with a creator and a non-empty URI, one succeeds
    exactly when the other does, and with the same state and identifier. *)
Lemma createAndMint_agrees s sender to cr u m amount r :
  u ≠ EmptyString →
  createAndMint acceptance s sender to cr u m amount = Ok r
  ↔ createEdition_then_mintEdition acceptance s sender to cr u m amount = Ok r.
Proof.
  intros Hu.
  assert (Huri : (0 <? N.of_nat (String.length u)) = true).
  { apply N.ltb_lt. destruct u; [done | cbn; lia]. }
  unfold createAndMint, createEdition_then_mintEdition, createEdition,
    mintEdition.
  destruct (onlyRole (_roles s) MINTER_ROLE sender) as [[]|] eqn:Hrole;
    cbn; [|done].
  rewrite Huri. cbn.
  destruct (N.eqb_spec cr 0) as [->|Hcr]; cbn.
  { split; [|done]. intros Hc. require_inv Hc H1. require_inv Hc H2.
    bind_inv Hc n Hn. bind_inv Hc r0 Hr.
    by apply _setTokenRoyalty_ok in Hr as (_ & ? & _). }
  destruct (checked_add (_nextTokenTypeId s) 1) as [next|] eqn:Hnext; cbn;
    [|by destruct (require (0 <? amount) _), (require (_ || _) _)].
  destruct (_setTokenRoyalty (_tokenRoyaltyInfo s) (_nextTokenTypeId s) cr
              (defaultRoyaltyBps s)) as [roy|] eqn:Hroy; cbn;
    [|by destruct (require (0 <? amount) _), (require (_ || _) _)].
  rewrite Hrole. cbn.
  destruct (N.ltb_spec 0 amount) as [Hamt|Hamt]; cbn; [|done].
  unfold tokenType. cbn. rewrite get_insert_eq. cbn.
  apply N.eqb_neq in Hcr as ->. cbn.
  assert (Hadd : checked_add 0 amount =
                 if amount <=? MAX_UINT256 then Ok amount else Err Panic_overflow).
  { unfold checked_add. by rewrite N.add_0_l. }
  assert (Hover : MAX_UINT256 < amount → ∀ (s0 : State) x,
            _mint acceptance s0 sender to (_nextTokenTypeId s) amount ≠ Ok x).
  { intros Hfit s0 x Hc. rewrite _mint_eq in Hc. require_inv Hc Hto.
    bind_inv Hc b Hb. bind_inv Hc t Ht. bind_inv Hc v Hv.
    rewrite Hadd in Hv. apply N.leb_gt in Hfit. by rewrite Hfit in Hv. }
  destruct (N.leb_spec amount MAX_UINT256) as [Hfit|Hfit].
  - rewrite Hadd. cbn. rewrite insert_insert_eq.
    assert (∀ t1 t2, _mint acceptance (set_types (set_royalties
                       (set_types s next t1) roy) next t2)
                       sender to (_nextTokenTypeId s) amount
                     = _mint acceptance (set_royalties (set_types s next t2) roy)
                         sender to (_nextTokenTypeId s) amount) as ->.
    { intros. by rewrite !_mint_eq. }
    destruct (N.eqb_spec m 0) as [->|Hm]; cbn; [done|].
    assert ((0 <? m) = true) as -> by (apply N.ltb_lt; lia).
    cbn. by destruct (amount <=? m).
  - split; intros Hc.
    + require_inv Hc Hle. bind_inv Hc s2 Hs2. by apply Hover in Hs2.
    + bind_inv Hc s2 Hs2. bind_inv Hs2 u0 H0. bind_inv Hs2 minted Hminted.
      congruence.
Qed.

(** A createAndMint that succeeds, as the transaction it is. *)
Lemma createAndMint_is_step s sender to cr u m amount id :
  snd <$> createAndMint acceptance s sender to cr u m amount = Ok id →
  createAndMint acceptance s sender to cr u m amount
  = Ok (step acceptance s (sender, CreateAndMint to cr u m amount), id).
Proof.
  intros Hid. unfold step. cbn [exec fst snd].
  destruct (createAndMint acceptance s sender to cr u m amount)
    as [[s0 id0]|e]; [|discriminate].
  cbn in Hid |- *. by injection Hid as ->.
Qed.

(** X26: setTokenRoyalty on an existing type: who may call it, which
    rates it takes, what it stores, and that a failed call changes
    nothing. *)
Lemma setTokenRoyalty_guarded s sender id rcv bps :
  tokenTypeExists s id = true →
  let authorized := (creator (tokenType s id) =? sender)
                    || hasRole (_roles s) DEFAULT_ADMIN_ROLE sender in
  (∀ s', setTokenRoyalty s sender id rcv bps = Ok s' →
         authorized = true ∧ bps ≤ 1000
         ∧ get no_royalty (_tokenRoyaltyInfo s') id
           = {| receiver := rcv; royaltyFraction := bps |})
  ∧ (authorized = false →
     setTokenRoyalty s sender id rcv bps = Err Unauthorized)
  ∧ (authorized = true → 1000 < bps →
     setTokenRoyalty s sender id rcv bps = Err InvalidRate)
  ∧ (1000 < bps → is_ok (setTokenRoyalty s sender id rcv bps) = false)
  ∧ (authorized = true → bps ≤ 1000 → rcv ≠ 0 →
     is_ok (setTokenRoyalty s sender id rcv bps) = true)
  ∧ (is_ok (setTokenRoyalty s sender id rcv bps) = false →
     step acceptance s (sender, SetTokenRoyalty id rcv bps) = s).
Proof.
  intros Hex authorized. unfold tokenTypeExists in Hex.
  unfold setTokenRoyalty. rewrite Hex. cbn. fold authorized.
  split; [|split; [|split; [|split; [|split]]]].
  - intros s' Hs. require_inv Hs Hauth. require_inv Hs Hbps.
    apply N.leb_le in Hbps. bind_inv Hs r Hr.
    apply _setTokenRoyalty_ok in Hr as (_ & _ & ->). injection Hs as <-.
    cbn. by rewrite get_insert_eq.
  - by intros ->.
  - intros -> Hbps. apply N.leb_gt in Hbps as ->. done.
  - intros Hbps. apply N.leb_gt in Hbps as ->. by destruct authorized.
  - intros -> Hbps Hrcv. apply N.leb_le in Hbps as Hb. rewrite Hb. cbn.
    unfold _setTokenRoyalty.
    assert ((bps <=? _feeDenominator) = true) as ->.
    { apply N.leb_le. unfold _feeDenominator. lia. }
    apply N.eqb_neq in Hrcv as ->. done.
  - intros Hfail. unfold step. cbn. unfold setTokenRoyalty. rewrite Hex. cbn.
    fold authorized.
    by destruct (_ ← require authorized _; _).
Qed.

End Ledger.
End NFTMultiEditionFacts.

(** ** The multi-edition ledger on the concrete chain *)
Module NFTMultiEditionExamples.
Import AccessControl ERC2981 NFTMultiEdition Deployment NFTMultiEditionFacts.

(** C4, on the code: createAndMint takes an empty URI, which createEdition
    refuses with InvalidURI, and so creates a type that the composition of
    createEdition and mintEdition can never create; and for the null
    creator it fails inside the royalty registry, not with InvalidCreator. *)
Theorem createAndMint_skips_the_checks_of_createEdition :
  let s := constructor deployer 500 in
  let s' := step everyone1155 s (deployer, CreateAndMint alice carol "" 100 10) in
  createAndMint everyone1155 s deployer alice carol "" 100 10 = Ok (s', 0)
  ∧ tokenTypeExists s' 0 = true
  ∧ uri (tokenType s' 0) = ""
  ∧ balanceOf s' alice 0 = 10
  ∧ createEdition s deployer carol "" 100 = Err InvalidURI
  ∧ createEdition_then_mintEdition everyone1155 s deployer alice carol "" 100 10
    = Err InvalidURI
  ∧ createAndMint everyone1155 s deployer alice 0 "ipfs://token1155" 100 10
    = Err (CustomError "ERC2981InvalidTokenRoyaltyReceiver")
  ∧ createEdition_then_mintEdition everyone1155 s deployer alice 0
      "ipfs://token1155" 100 10
    = Err InvalidCreator.
Proof.
  cbv zeta. split; [|by_compute].
  apply createAndMint_is_step. by_compute.
Qed.


End NFTMultiEditionExamples.

(** ** The settlement engine *)
Module MarketplaceFacts.
Import Marketplace.

Lemma status_eqb_eq a b : status_eqb a b = true ↔ a = b.
Proof. destruct a, b; cbn; split; congruence. Qed.

Lemma status_eqb_Active st : status_eqb st Active = false ↔ st ≠ Active.
Proof. destruct st; cbn; split; congruence. Qed.

Section Engine.
Context {T : Type} `{Tokens T}.
Variable this : address.
Variable payable : address → bool.

Lemma whenNotPaused_ok s u : whenNotPaused s = Ok u → _paused s = false.
Proof. unfold whenNotPaused. by destruct (_paused s). Qed.

Lemma onlyOwner_ok s sender u : onlyOwner s sender = Ok u → _owner s = sender.
Proof.
  unfold onlyOwner. destruct (N.eqb_spec (_owner s) sender); [done | discriminate].
Qed.

(** What the royalty computation of buy returns, whatever the token
    contract reports. *)
Lemma royalty_due_ok (t : T) l rcv amt :
  royalty_due t l = Ok (rcv, amt) →
  amt ≤ price l * 1000 / 10000 ∧ (rcv = seller l → amt = 0) ∧
  (_supportsRoyalty t (tokenContract l) = false → amt = 0) ∧
  ∀ rcv' amt',
    _supportsRoyalty t (tokenContract l) = true →
    IERC2981_royaltyInfo t (tokenContract l) (tokenId l) (price l)
      = Ok (rcv', amt') →
    rcv = rcv' ∧
    amt = if rcv' =? seller l then 0 else N.min amt' (price l * 1000 / 10000).
Proof.
  unfold royalty_due. destruct (_supportsRoyalty t (tokenContract l)).
  - intros Hr. bind_inv Hr ra Hinfo. destruct ra as [rcv0 amt0].
    bind_inv Hr p Hp. apply checked_mul_ok in Hp as ->.
    injection Hr as <- <-.
    split; [|split; [|split]].
    + destruct (N.eqb_spec rcv0 (seller l)); [lia|].
      destruct (N.ltb_spec (price l * 1000 / 10000) amt0); lia.
    + intros ->. by rewrite N.eqb_refl.
    + discriminate.
    + intros rcv' amt' _ Hinfo'. rewrite Hinfo in Hinfo'.
      injection Hinfo' as <- <-. split; [done|].
      destruct (N.eqb_spec rcv0 (seller l)); [done|].
      destruct (N.ltb_spec (price l * 1000 / 10000) amt0); lia.
  - intros [= <- <-]. split; [lia|]. split; [done|]. split; [done|].
    intros ? ? [=].
Qed.

Lemma buy_ok_inv (w w' : World T) sender value listingId r :
  buy this payable w sender value listingId = Ok (w', r) →
  let l := getListing (market w) listingId in
  let fee := price l * platformFeeBps (market w) / 10000 in
  _paused (market w) = false ∧ status l = Active ∧ sender ≠ seller l ∧
  value = price l ∧
  market w' = set_listing (market w) listingId (with_status l Sold) ∧
  ∃ rcv amt,
    royalty_due (tokens w) l = Ok (rcv, amt) ∧
    fee + amt ≤ price l ∧
    sale r = {| sale_listingId := listingId; sale_buyer := sender;
                sale_seller := seller l; sale_price := price l;
                sale_platformFee := fee; sale_royaltyAmount := amt;
                sale_royaltyReceiver := rcv |} ∧
    last (payouts r) = Some (seller l, price l - fee - amt).
Proof.
  unfold buy, getListing. cbn [platformFeeBps feeRecipient set_listing].
  intros Hb.
  bind_inv Hb u Hpaused. apply whenNotPaused_ok in Hpaused.
  require_inv Hb Hst. require_inv Hb Hself.
  require_inv Hb Hval.
  bind_inv Hb p Hp. apply checked_mul_ok in Hp as ->.
  bind_inv Hb ra Hroy. destruct ra as [rcv amt].
  bind_inv Hb d Hd. apply checked_sub_ok in Hd as [Hd ->].
  bind_inv Hb sp Hsp. apply checked_sub_ok in Hsp as [Hsp ->].
  bind_inv Hb t Ht. bind_inv Hb e1 He1. destruct e1 as [eth1 paid1].
  bind_inv Hb e2 He2. destruct e2 as [eth2 paid2].
  bind_inv Hb eth3 He3. injection Hb as <- <-. cbn.
  apply status_eqb_eq in Hst. apply negb_true_iff, N.eqb_neq in Hself.
  apply N.eqb_eq in Hval.
  repeat split; try done.
  exists rcv, amt. repeat split; try done; [lia|].
  by rewrite last_snoc.
Qed.

Lemma listERC721_ok_inv (w w' : World T) sender ts tc id p listingId :
  listERC721 this w sender ts tc id p = Ok (w', listingId) →
  let l := {| seller := sender; tokenContract := tc; tokenId := id;
              amount := 1; price := p; standard := ERC721; status := Active;
              createdAt := ts |} in
  _paused (market w) = false ∧ 0 < p ∧
  listingId = _listingIdCounter (market w) ∧ listingId + 1 ≤ MAX_UINT256 ∧
  w' = {| market := add_listing (market w) (listingId + 1) listingId l;
          tokens := tokens w; balances := balances w |}.
Proof.
  unfold listERC721. intros Hl.
  bind_inv Hl u Hpaused. apply whenNotPaused_ok in Hpaused.
  require_inv Hl Hp. apply N.ltb_lt in Hp.
  bind_inv Hl owner Hown. require_inv Hl Hown'.
  bind_inv Hl appall Hall. bind_inv Hl approved Happ. require_inv Hl Happ'.
  bind_inv Hl next Hnext. apply checked_add_ok in Hnext as [-> Hfit].
  by injection Hl as <- <-.
Qed.

Lemma listERC1155_ok_inv (w w' : World T) sender ts tc id a p listingId :
  listERC1155 this w sender ts tc id a p = Ok (w', listingId) →
  let l := {| seller := sender; tokenContract := tc; tokenId := id;
              amount := a; price := p; standard := ERC1155; status := Active;
              createdAt := ts |} in
  _paused (market w) = false ∧ 0 < p ∧ 0 < a ∧
  listingId = _listingIdCounter (market w) ∧ listingId + 1 ≤ MAX_UINT256 ∧
  w' = {| market := add_listing (market w) (listingId + 1) listingId l;
          tokens := tokens w; balances := balances w |}.
Proof.
  unfold listERC1155. intros Hl.
  bind_inv Hl u Hpaused. apply whenNotPaused_ok in Hpaused.
  require_inv Hl Hp. apply N.ltb_lt in Hp.
  require_inv Hl Ha. apply N.ltb_lt in Ha.
  bind_inv Hl bal Hbal. require_inv Hl Hbal'.
  bind_inv Hl approved Happ. require_inv Hl Happ'.
  bind_inv Hl next Hnext. apply checked_add_ok in Hnext as [-> Hfit].
  by injection Hl as <- <-.
Qed.

Lemma cancelListing_ok_inv s sender listingId s' :
  cancelListing s sender listingId = Ok s' →
  status (getListing s listingId) = Active ∧
  (seller (getListing s listingId) = sender ∨ sender = _owner s) ∧
  s' = set_listing s listingId (with_status (getListing s listingId) Cancelled).
Proof.
  unfold cancelListing, getListing. intros Hc.
  require_inv Hc Hst. apply status_eqb_eq in Hst.
  require_inv Hc Hauth. injection Hc as <-.
  apply orb_true_iff in Hauth as [?%N.eqb_eq | ?%N.eqb_eq]; auto.
Qed.

(** One transaction changes the storage of the marketplace in one of the
    ways of [market_change]. *)
Lemma exec_market_change (w w' : World T) x :
  exec this payable w x = Ok w' →
  market_change (market w) (target_of (@Tx T x)) (market w').
Proof.
  unfold exec. intros He. require_inv He Hfunds. require_inv He Hpay.
  unfold dispatch in He. cbn [target_of].
  destruct (tx_call x) as [tc id p | tc id a p | id | id | b | a | | | a | | ];
    [apply fmap_ok in He as (r & Hr & ->) .. |].
  - destruct r as [w1 lid].
    apply listERC721_ok_inv in Hr as (Hp & Hprice & -> & Hfit & ->).
    cbn [fst market]. by apply mc_listed.
  - destruct r as [w1 lid].
    apply listERC1155_ok_inv in Hr as (Hp & Hprice & _ & -> & Hfit & ->).
    cbn [fst market]. by apply mc_listed.
  - destruct r as [w1 rc].
    apply buy_ok_inv in Hr as (Hp & Hst & _ & _ & Hm & _).
    cbn [fst]. rewrite Hm. by apply mc_sold.
  - apply cancelListing_ok_inv in Hr as (Hst & _ & ->). by apply mc_cancelled.
  - unfold setPlatformFee in Hr. bind_inv Hr u Ho. require_inv Hr Hb.
    injection Hr as <-. apply mc_fee. by apply N.leb_le.
  - unfold setFeeRecipient in Hr. bind_inv Hr u Ho. require_inv Hr Ha.
    injection Hr as <-. apply mc_recipient.
    by apply negb_true_iff, N.eqb_neq in Ha.
  - unfold pause in Hr. bind_inv Hr u Ho. bind_inv Hr u' Hp'.
    injection Hr as <-. apply mc_paused.
  - unfold unpause in Hr. bind_inv Hr u Ho. bind_inv Hr u' Hp'.
    injection Hr as <-. apply mc_paused.
  - unfold transferOwnership in Hr. bind_inv Hr u Ho. require_inv Hr Ha.
    injection Hr as <-. apply mc_owner.
  - unfold renounceOwnership in Hr. bind_inv Hr u Ho.
    injection Hr as <-. apply mc_owner.
  - injection He as <-. apply mc_none.
Qed.

Lemma step_market_change (w : World T) e :
  market_change (market w) (target_of e) (market (step this payable w e)).
Proof.
  destruct e as [x | t eth]; [|apply mc_none].
  unfold step. destruct (exec this payable w x) eqn:He; [|apply mc_none].
  by apply exec_market_change.
Qed.

Lemma run_cons (w : World T) e es :
  run this payable w (e :: es) = run this payable (step this payable w e) es.
Proof. done. Qed.

(** *** Invariants of the storage *)
Lemma fee_bounded_change m tgt m' :
  market_change m tgt m' → platformFeeBps m ≤ 1000 → platformFeeBps m' ≤ 1000.
Proof. by destruct 1. Qed.

Lemma fee_bounded_run (w : World T) es :
  platformFeeBps (market w) ≤ 1000 →
  platformFeeBps (market (run this payable w es)) ≤ 1000.
Proof.
  revert w. induction es as [|e es IH]; intros w Hw; [done|].
  cbn. apply IH. eapply fee_bounded_change; [apply step_market_change | done].
Qed.



Lemma getListing_set_eq m listingId l :
  getListing (set_listing m listingId l) listingId = l.
Proof. unfold getListing. cbn. apply get_insert_eq. Qed.

Lemma getListing_set_ne m listingId listingId' l :
  listingId ≠ listingId' →
  getListing (set_listing m listingId l) listingId' = getListing m listingId'.
Proof. intros. unfold getListing. cbn. by apply get_insert_ne. Qed.





(** A transaction whose call reverts reverts, and leaves the world as it
    was. *)
Lemma exec_call_err (w : World T) x :
  (∃ e, dispatch this payable (credit this w (tx_sender x) (tx_value x)) x
        = Err e) →
  is_ok (exec this payable w x) = false ∧ step this payable w (Tx x) = w.
Proof.
  intros [e He]. unfold step, exec.
  destruct (ensure _ "InsufficientFunds"); cbn; [|done].
  destruct (ensure _ "NonPayable"); cbn; [|done].
  by rewrite He.
Qed.

(** A buy that succeeds, as the transaction it is. *)
Lemma buy_is_step (w : World T) sender value ts listingId r :
  (value <=? get 0 (balances w) sender) = true →
  snd <$> buy this payable (credit this w sender value) sender value listingId
    = Ok r →
  buy this payable (credit this w sender value) sender value listingId
  = Ok (step this payable w
          (Tx {| tx_sender := sender; tx_value := value;
                 tx_timestamp := ts; tx_call := Buy listingId |}), r).
Proof.
  intros Hfunds Hr. unfold step, exec, dispatch.
  cbn [tx_sender tx_value tx_timestamp tx_call payable_call orb].
  rewrite Hfunds. cbn [ensure mbind result_bind].
  destruct (buy this payable (credit this w sender value) sender value
              listingId) as [[w0 r0]|e]; [|discriminate].
  cbn in Hr |- *. by injection Hr as ->.
Qed.

(** *** The claims about the engine *)

(** C1: for every successful buy, in every state the marketplace can reach
    from its deployment, the platform fee is floor(price * platformFeeBps /
    10000); the royalty is the value the token contract reports, clamped to
    floor(price * 1000 / 10000) whatever that value is, and zero when the
    reported receiver is the seller; fee, royalty and the amount paid to
    the seller add up to the price exactly; and fee and royalty are each at
    most a tenth of the price. *)
Theorem buy_split_exact_and_capped
    (deployer feeRecipient_ : address) (m0 : State) (t0 : T)
    (eth0 : gmap N N) (es : list event)
    (sender value listingId : N) (w' : World T) (r : Receipt) :
  constructor deployer feeRecipient_ = Ok m0 →
  let w := run this payable
             {| market := m0; tokens := t0; balances := eth0 |} es in
  buy this payable (credit this w sender value) sender value listingId
    = Ok (w', r) →
  let l := getListing (market w) listingId in
  let fee := sale_platformFee (sale r) in
  let royalty := sale_royaltyAmount (sale r) in
  fee = price l * platformFeeBps (market w) / 10000
  ∧ royalty ≤ price l * 1000 / 10000
  ∧ (∀ rcv amt,
       _supportsRoyalty (tokens w) (tokenContract l) = true →
       IERC2981_royaltyInfo (tokens w) (tokenContract l) (tokenId l) (price l)
         = Ok (rcv, amt) →
       sale_royaltyReceiver (sale r) = rcv ∧
       royalty = if rcv =? seller l then 0
                 else N.min amt (price l * 1000 / 10000))
  ∧ (sale_royaltyReceiver (sale r) = seller l → royalty = 0)
  ∧ (∃ sellerProceeds,
       last (payouts r) = Some (seller l, sellerProceeds) ∧
       fee + royalty + sellerProceeds = price l)
  ∧ 10 * fee ≤ price l
  ∧ 10 * royalty ≤ price l.
Proof.
  intros Hdeploy w Hbuy l fee royalty.
  assert (Hbps : platformFeeBps (market w) ≤ 1000).
  { apply fee_bounded_run. unfold constructor in Hdeploy.
    require_inv Hdeploy Hr. injection Hdeploy as <-. cbn. lia. }
  apply buy_ok_inv in Hbuy
    as (_ & _ & _ & _ & _ & rcv & amt & Hroy & Hsum & Hsale & Hlast).
  cbn [market tokens credit] in Hroy, Hsum, Hsale, Hlast.
  fold w in Hroy, Hsum, Hsale, Hlast. fold l in Hroy, Hsum, Hsale, Hlast.
  apply royalty_due_ok in Hroy as (Hcap & Hself & _ & Hrep).
  subst fee royalty. rewrite Hsale. cbn [sale_platformFee sale_royaltyAmount
    sale_royaltyReceiver].
  split; [done|]. split; [done|]. split; [exact Hrep|]. split; [exact Hself|].
  split; [|split].
  - eexists. split; [exact Hlast | lia].
  - nia.
  - lia.
Qed.


Lemma buy_wrong_payment (w : World T) sender value listingId :
  _paused (market w) = false →
  status (getListing (market w) listingId) = Active →
  sender ≠ seller (getListing (market w) listingId) →
  value ≠ price (getListing (market w) listingId) →
  buy this payable w sender value listingId = Err WrongPayment.
Proof.
  unfold buy, getListing, whenNotPaused. intros -> -> Hs Hv. cbn.
  apply N.eqb_neq in Hs as ->. apply N.eqb_neq in Hv as ->. done.
Qed.


(** C6: while the marketplace is paused, listERC721, listERC1155 and buy
    fail at their first check (EnforcedPause), whatever their arguments and
    the rest of the state are, and as transactions leave the world as it
    was; cancelListing of an Active listing by its seller or by the owner
    still succeeds and makes it Cancelled. *)
Theorem paused_blocks_list_and_buy_not_cancel (w : World T) :
  _paused (market w) = true →
  (∀ sender ts tc id p,
     listERC721 this w sender ts tc id p = Err EnforcedPause)
  ∧ (∀ sender ts tc id a p,
       listERC1155 this w sender ts tc id a p = Err EnforcedPause)
  ∧ (∀ sender value listingId,
       buy this payable w sender value listingId = Err EnforcedPause)
  ∧ (∀ x, match tx_call x with
          | ListERC721 _ _ _ | ListERC1155 _ _ _ _ | Buy _ =>
              is_ok (exec this payable w x) = false
              ∧ step this payable w (Tx x) = w
          | _ => True
          end)
  ∧ (∀ sender listingId,
       status (getListing (market w) listingId) = Active →
       sender = seller (getListing (market w) listingId)
       ∨ sender = _owner (market w) →
       ∃ m', cancelListing (market w) sender listingId = Ok m'
             ∧ status (getListing m' listingId) = Cancelled
             ∧ exec this payable w
                 {| tx_sender := sender; tx_value := 0; tx_timestamp := 0;
                    tx_call := CancelListing listingId |}
               = Ok (with_market (credit this w sender 0) m')).
Proof.
  intros Hp. split; [|split; [|split; [|split]]].
  - intros. unfold listERC721, whenNotPaused. by rewrite Hp.
  - intros. unfold listERC1155, whenNotPaused. by rewrite Hp.
  - intros. unfold buy, whenNotPaused. by rewrite Hp.
  - intros x. destruct (tx_call x) eqn:Hx; try done;
      apply exec_call_err; unfold dispatch; rewrite Hx.
    + unfold listERC721, whenNotPaused. cbn [market credit]. rewrite Hp.
      by eexists.
    + unfold listERC1155, whenNotPaused. cbn [market credit]. rewrite Hp.
      by eexists.
    + unfold buy, whenNotPaused. cbn [market credit]. rewrite Hp.
      by eexists.
  - intros sender listingId Hst Hauth.
    assert (Hc : cancelListing (market w) sender listingId
                 = Ok (set_listing (market w) listingId
                         (with_status (getListing (market w) listingId)
                            Cancelled))).
    { unfold cancelListing. fold (getListing (market w) listingId).
      rewrite Hst. cbn.
      assert ((seller (getListing (market w) listingId) =? sender)
              || (sender =? _owner (market w)) = true) as ->; [|done].
      apply orb_true_iff. destruct Hauth as [-> | ->]; [left | right];
        apply N.eqb_refl. }
    eexists. split; [exact Hc|]. split.
    + by rewrite getListing_set_eq.
    + unfold exec, dispatch. cbn [tx_value tx_sender tx_call payable_call].
      rewrite (proj2 (N.leb_le 0 _) (N.le_0_l _)). cbn.
      by rewrite Hc.
Qed.


End Engine.
End MarketplaceFacts.

(** ** The engine on the concrete chain *)
Module MarketplaceExamples.
Import Marketplace Deployment MarketplaceFacts.

Lemma buy_split_exact_and_capped_witness :
  let w' := step marketAt everyone listed (call_at bob ether (Buy 0)) in
  let r := {| sale := {| sale_listingId := 0; sale_buyer := bob;
                         sale_seller := alice; sale_price := ether;
                         sale_platformFee := 25000000000000000;
                         sale_royaltyAmount := 50000000000000000;
                         sale_royaltyReceiver := carol |};
              payouts := [(feeAccount, 25000000000000000);
                          (carol, 50000000000000000);
                          (alice, 925000000000000000)] |} in
  constructor deployer feeAccount = Ok market0
  ∧ buy marketAt everyone (credit marketAt listed bob ether) bob ether 0
    = Ok (w', r)
  ∧ sale_platformFee (sale r) = ether * 250 / 10000
  ∧ 10 * sale_platformFee (sale r) ≤ ether
  ∧ 10 * sale_royaltyAmount (sale r) ≤ ether.
Proof.
  cbv zeta.
  assert (Hbuy : buy marketAt everyone (credit marketAt listed bob ether)
                   bob ether 0
                 = Ok (step marketAt everyone listed (call_at bob ether (Buy 0)),
                       {| sale := {| sale_listingId := 0; sale_buyer := bob;
                                     sale_seller := alice; sale_price := ether;
                                     sale_platformFee := 25000000000000000;
                                     sale_royaltyAmount := 50000000000000000;
                                     sale_royaltyReceiver := carol |};
                          payouts := [(feeAccount, 25000000000000000);
                                      (carol, 50000000000000000);
                                      (alice, 925000000000000000)] |}))
    by (apply (buy_is_step (T:=Chain)); by_compute).
  destruct (buy_split_exact_and_capped (T:=Chain) marketAt everyone
              deployer feeAccount market0 (tokens genesis) (balances genesis)
              listing_events bob ether 0 _ _ eq_refl Hbuy)
    as (Hfee & _ & _ & _ & _ & Hfee10 & Hroy10).
  split; [reflexivity|]. split; [exact Hbuy|].
  split; [exact Hfee|]. split; [exact Hfee10 | exact Hroy10].
Defined.

(** C2, on the code: alice lists 3 editions with the price argument a
    tenth of an ether, which the documentation of listERC1155 calls the
    price per token.  A buyer who pays 3 times that price is rejected with
    WrongPayment; a buyer who pays that price once receives all 3. *)
Theorem multi_edition_listing_sells_at_unit_price :
  let l := getListing (market editions_listed) 0 in
  let p := ether / 10 in
  let w' := step marketAt everyone editions_listed (call_at bob p (Buy 0)) in
  standard l = ERC1155 ∧ amount l = 3 ∧ price l = p
  ∧ buy marketAt everyone (credit marketAt editions_listed bob (p * 3))
      bob (p * 3) 0 = Err WrongPayment
  ∧ is_ok (exec marketAt everyone editions_listed
             {| tx_sender := bob; tx_value := p * 3;
                tx_timestamp := 1700000000; tx_call := Buy 0 |}) = false
  ∧ buy marketAt everyone (credit marketAt editions_listed bob p) bob p 0
    = Ok (w', {| sale := {| sale_listingId := 0; sale_buyer := bob;
                            sale_seller := alice; sale_price := p;
                            sale_platformFee := p * 250 / 10000;
                            sale_royaltyAmount := 0;
                            sale_royaltyReceiver := alice |};
                 payouts := [(feeAccount, p * 250 / 10000);
                             (alice, p - p * 250 / 10000)] |})
  ∧ status (getListing (market w') 0) = Sold
  ∧ NFTMultiEdition.balanceOf (editions (tokens w')) bob 0 = 3.
Proof.
  cbv zeta. split; [by_compute|]. split; [by_compute|]. split; [by_compute|].
  split; [by_compute|]. split; [by_compute|]. split; [|by_compute].
  apply (buy_is_step (T:=Chain)); by_compute.
Qed.


Lemma paused_blocks_list_and_buy_not_cancel_witness :
  _paused (market halted) = true
  ∧ status (getListing (market halted) 0) = Active
  ∧ listERC721 marketAt halted alice 1700000000 nftAt 0 ether
    = Err EnforcedPause
  ∧ buy marketAt everyone halted bob ether 0 = Err EnforcedPause
  ∧ ∃ m', cancelListing (market halted) alice 0 = Ok m'
          ∧ status (getListing m' 0) = Cancelled.
Proof.
  assert (Hp : _paused (market halted) = true) by by_compute.
  assert (Hst : status (getListing (market halted) 0) = Active)
    by by_compute.
  assert (Hal : alice = seller (getListing (market halted) 0))
    by by_compute.
  destruct (paused_blocks_list_and_buy_not_cancel (T:=Chain) marketAt everyone
              halted Hp) as (H721 & _ & Hbuy & _ & Hcancel).
  split; [exact Hp|]. split; [exact Hst|].
  split; [exact (H721 _ _ _ _ _)|]. split; [exact (Hbuy _ _ _)|].
  destruct (Hcancel alice 0 Hst (or_introl Hal)) as (m' & Hc & Hs & _).
  exists m'. split; [exact Hc | exact Hs].
Defined.


(** The slot the owner cancelled is overwritten when its id is allocated:
    below totalListings the status of a slot is monotone, above it is not. *)
Example cancelled_slot_is_reused :
  let w := run marketAt everyone genesis
             [call_at deployer 0 (CancelListing 0)] in
  status (getListing (market w) 0) = Cancelled
  ∧ status (getListing (market (run marketAt everyone w listing_events)) 0)
    = Active.
Proof. cbv zeta. by_compute. Qed.


End MarketplaceExamples.

(** ** The settlement engine: the rest of its behaviour *)
Module MarketplaceSpec.
Import Marketplace MarketplaceFacts.

Section Engine.
Context {T : Type} `{Tokens T}.
Variable this : address.
Variable payable : address → bool.

(** *** Listing *)

(** X1: listERC721 checks, in this order, that the engine is not paused,
    that the price is positive, that the caller owns the token and that the
    marketplace is approved, for all tokens of the caller or for this one
    (the second is only asked when the first is not granted); it succeeds
    exactly when these hold and the listing counter fits 256 bits.  A
    successful call returns the old value of totalListings as the new id,
    stores an Active listing of one unit for the caller, appends the id to
    the caller's index, and leaves the token contracts and every balance
    as they were: nothing is escrowed. *)
Theorem listERC721_checks (w : World T) (sender ts tc id p : N) :
  let m := market w in
  let approved :=
    IERC721_isApprovedForAll (tokens w) tc sender this = Ok true
    ∨ (IERC721_isApprovedForAll (tokens w) tc sender this = Ok false
       ∧ IERC721_getApproved (tokens w) tc id = Ok this) in
  (_paused m = true → listERC721 this w sender ts tc id p = Err EnforcedPause)
  ∧ (_paused m = false → p = 0 →
     listERC721 this w sender ts tc id p = Err InvalidPrice)
  ∧ (_paused m = false → 0 < p → ∀ owner,
     IERC721_ownerOf (tokens w) tc id = Ok owner → owner ≠ sender →
     listERC721 this w sender ts tc id p = Err NotOwner)
  ∧ (_paused m = false → 0 < p →
     IERC721_ownerOf (tokens w) tc id = Ok sender →
     IERC721_isApprovedForAll (tokens w) tc sender this = Ok false →
     ∀ a, IERC721_getApproved (tokens w) tc id = Ok a → a ≠ this →
     listERC721 this w sender ts tc id p = Err NotApproved)
  ∧ (is_ok (listERC721 this w sender ts tc id p) = true
     ↔ _paused m = false ∧ 0 < p
       ∧ IERC721_ownerOf (tokens w) tc id = Ok sender ∧ approved
       ∧ _listingIdCounter m + 1 ≤ MAX_UINT256)
  ∧ (∀ w' listingId,
       listERC721 this w sender ts tc id p = Ok (w', listingId) →
       listingId = totalListings m
       ∧ totalListings (market w') = totalListings m + 1
       ∧ getListing (market w') listingId
         = {| seller := sender; tokenContract := tc; tokenId := id;
              amount := 1; price := p; standard := ERC721;
              status := Active; createdAt := ts |}
       ∧ getSellerListings (market w') sender
         = getSellerListings m sender ++ [listingId]
       ∧ (∀ other, other ≠ listingId →
            getListing (market w') other = getListing m other)
       ∧ tokens w' = tokens w ∧ balances w' = balances w
       ∧ config (market w') = config m).
Proof.
  intros m approved. subst m.
  split; [|split; [|split; [|split; [|split]]]].
  - intros Hp. unfold listERC721, whenNotPaused. by rewrite Hp.
  - intros Hp ->. unfold listERC721, whenNotPaused. by rewrite Hp.
  - intros Hp Hprice owner Hown Hne. unfold listERC721, whenNotPaused.
    rewrite Hp. cbn. apply N.ltb_lt in Hprice as ->. cbn. rewrite Hown. cbn.
    by apply N.eqb_neq in Hne as ->.
  - intros Hp Hprice Hown Hall a Ha Hne. unfold listERC721, whenNotPaused.
    rewrite Hp. cbn. apply N.ltb_lt in Hprice as ->. cbn. rewrite Hown. cbn.
    rewrite N.eqb_refl. cbn. rewrite Hall. cbn. rewrite Ha. cbn.
    by apply N.eqb_neq in Hne as ->.
  - split.
    + intros Hok.
      destruct (listERC721 this w sender ts tc id p) as [[w' lid]|] eqn:Hl;
        [clear Hok | discriminate].
      pose proof Hl as Hinv.
      apply listERC721_ok_inv in Hinv as (Hp & Hprice & -> & Hfit & _).
      split; [done|]. split; [done|].
      unfold listERC721 in Hl. bind_inv Hl u Hu. require_inv Hl Hpr.
      bind_inv Hl owner Hown. require_inv Hl Hown'.
      apply N.eqb_eq in Hown' as ->. split; [done|].
      bind_inv Hl appall Hall. bind_inv Hl appr Happ. require_inv Hl Happ'.
      subst appr. split; [|done]. unfold approved.
      destruct appall; [by left|]. right. split; [done|].
      bind_inv Happ a Ha. injection Happ as Happ. by apply N.eqb_eq in Happ as ->.
    + intros (Hp & Hprice & Hown & Happ & Hfit).
      unfold listERC721, whenNotPaused. rewrite Hp. cbn.
      apply N.ltb_lt in Hprice as ->. cbn. rewrite Hown. cbn.
      rewrite N.eqb_refl. cbn.
      assert (Hchk : (all ← IERC721_isApprovedForAll (tokens w) tc sender this;
                      if all : bool then Ok true
                      else a ← IERC721_getApproved (tokens w) tc id;
                           Ok (a =? this)) = Ok true).
      { destruct Happ as [-> | [-> ->]]; cbn; [done|]. by rewrite N.eqb_refl. }
      destruct (IERC721_isApprovedForAll (tokens w) tc sender this)
        as [[]|]; cbn in Hchk |- *; [| |discriminate].
      * by rewrite checked_add_fits.
      * destruct (IERC721_getApproved (tokens w) tc id); cbn in Hchk |- *;
          [|discriminate].
        injection Hchk as ->. cbn. by rewrite checked_add_fits.
  - intros w' lid Hl.
    apply listERC721_ok_inv in Hl as (Hp & Hprice & -> & Hfit & ->).
    cbn [market tokens balances]. unfold totalListings.
    split; [done|]. split; [done|]. split.
    { unfold getListing. cbn. apply get_insert_eq. }
    split.
    { unfold getSellerListings. cbn. apply get_insert_eq. }
    split; [|done].
    intros other Hne. unfold getListing. cbn. by apply get_insert_ne.
Qed.

(** X2: listERC1155 checks, in this order, the pause, the price, the
    amount, the caller's balance of the token and the blanket approval of
    the marketplace; it succeeds exactly when these hold and the listing
    counter fits 256 bits, and then stores an Active listing of [amount]
    units at the stored price, whatever units the caller already listed:
    nothing is escrowed or reserved. *)
Theorem listERC1155_checks (w : World T) (sender ts tc id a p : N) :
  let m := market w in
  (_paused m = true →
   listERC1155 this w sender ts tc id a p = Err EnforcedPause)
  ∧ (_paused m = false → p = 0 →
     listERC1155 this w sender ts tc id a p = Err InvalidPrice)
  ∧ (_paused m = false → 0 < p → a = 0 →
     listERC1155 this w sender ts tc id a p = Err InvalidAmount)
  ∧ (_paused m = false → 0 < p → 0 < a → ∀ bal,
     IERC1155_balanceOf (tokens w) tc sender id = Ok bal → bal < a →
     listERC1155 this w sender ts tc id a p = Err InsufficientBalance)
  ∧ (_paused m = false → 0 < p → 0 < a → ∀ bal,
     IERC1155_balanceOf (tokens w) tc sender id = Ok bal → a ≤ bal →
     IERC1155_isApprovedForAll (tokens w) tc sender this = Ok false →
     listERC1155 this w sender ts tc id a p = Err NotApproved)
  ∧ (is_ok (listERC1155 this w sender ts tc id a p) = true
     ↔ _paused m = false ∧ 0 < p ∧ 0 < a
       ∧ (∃ bal, IERC1155_balanceOf (tokens w) tc sender id = Ok bal ∧ a ≤ bal)
       ∧ IERC1155_isApprovedForAll (tokens w) tc sender this = Ok true
       ∧ _listingIdCounter m + 1 ≤ MAX_UINT256)
  ∧ (∀ w' listingId,
       listERC1155 this w sender ts tc id a p = Ok (w', listingId) →
       listingId = totalListings m
       ∧ totalListings (market w') = totalListings m + 1
       ∧ getListing (market w') listingId
         = {| seller := sender; tokenContract := tc; tokenId := id;
              amount := a; price := p; standard := ERC1155;
              status := Active; createdAt := ts |}
       ∧ getSellerListings (market w') sender
         = getSellerListings m sender ++ [listingId]
       ∧ (∀ other, other ≠ listingId →
            getListing (market w') other = getListing m other)
       ∧ tokens w' = tokens w ∧ balances w' = balances w
       ∧ config (market w') = config m).
Proof.
  intros m. subst m.
  split; [|split; [|split; [|split; [|split; [|split]]]]].
  - intros Hp. unfold listERC1155, whenNotPaused. by rewrite Hp.
  - intros Hp ->. unfold listERC1155, whenNotPaused. by rewrite Hp.
  - intros Hp Hprice ->. unfold listERC1155, whenNotPaused. rewrite Hp. cbn.
    by apply N.ltb_lt in Hprice as ->.
  - intros Hp Hprice Ha bal Hbal Hlt. unfold listERC1155, whenNotPaused.
    rewrite Hp. cbn. apply N.ltb_lt in Hprice as ->. cbn.
    apply N.ltb_lt in Ha as ->. cbn. rewrite Hbal. cbn.
    by apply N.leb_gt in Hlt as ->.
  - intros Hp Hprice Ha bal Hbal Hle Happ. unfold listERC1155, whenNotPaused.
    rewrite Hp. cbn. apply N.ltb_lt in Hprice as ->. cbn.
    apply N.ltb_lt in Ha as ->. cbn. rewrite Hbal. cbn.
    apply N.leb_le in Hle as ->. cbn. by rewrite Happ.
  - split.
    + intros Hok.
      destruct (listERC1155 this w sender ts tc id a p) as [[w' lid]|] eqn:Hl;
        [clear Hok | discriminate].
      pose proof Hl as Hinv.
      apply listERC1155_ok_inv in Hinv as (Hp & Hprice & Ha & -> & Hfit & _).
      split; [done|]. split; [done|]. split; [done|].
      unfold listERC1155 in Hl. bind_inv Hl u Hu. require_inv Hl Hpr.
      require_inv Hl Ha'. bind_inv Hl bal Hbal. require_inv Hl Hle.
      apply N.leb_le in Hle. split; [by exists bal|].
      bind_inv Hl appr Happ. require_inv Hl Happ'. by subst appr.
    + intros (Hp & Hprice & Ha & (bal & Hbal & Hle) & Happ & Hfit).
      unfold listERC1155, whenNotPaused. rewrite Hp. cbn.
      apply N.ltb_lt in Hprice as ->. cbn. apply N.ltb_lt in Ha as ->. cbn.
      rewrite Hbal. cbn. apply N.leb_le in Hle as ->. cbn. rewrite Happ. cbn.
      by rewrite checked_add_fits.
  - intros w' lid Hl.
    apply listERC1155_ok_inv in Hl as (Hp & Hprice & Ha & -> & Hfit & ->).
    cbn [market tokens balances]. unfold totalListings.
    split; [done|]. split; [done|]. split.
    { unfold getListing. cbn. apply get_insert_eq. }
    split.
    { unfold getSellerListings. cbn. apply get_insert_eq. }
    split; [|done].
    intros other Hne. unfold getListing. cbn. by apply get_insert_ne.
Qed.

(** *** The seller index and the counter *)

Lemma index_consistent_change m tgt m' :
  market_change m tgt m' → index_consistent m → index_consistent m'.
Proof.
  intros Hc Hi.
  destruct Hc as [|l Hst Hprice Hp Hfit| id' Ht Hst Hp | id' Ht Hst | | | | ];
    try exact Hi.
  - (* a new listing *)
    intros a. destruct (Hi a) as [Hsorted Hmem].
    unfold getSellerListings, getListing in *. cbn.
    destruct (decide (seller l = a)) as [<-|Hne].
    + rewrite get_insert_eq. split.
      * clear Hmem.
        assert (Hall : Forall (λ i, i < _listingIdCounter m)
                         (get [] (_sellerListings m) (seller l))).
        { apply Forall_forall. intros i Hi'. by apply (Hi (seller l)). }
        revert Hsorted Hall.
        generalize (get [] (_sellerListings m) (seller l)).
        intros ids. induction ids as [|i rest IH]; intros Hs Hall; cbn.
        -- repeat constructor.
        -- inversion Hs; subst. inversion Hall; subst. constructor.
           ++ by apply IH.
           ++ apply Forall_app. split; [done|]. by repeat constructor.
      * intros i. rewrite elem_of_app, list_elem_of_singleton, Hmem.
        destruct (decide (i = _listingIdCounter m)) as [->|Hi'].
        -- rewrite get_insert_eq. split; [intros _; split; [lia|done]|].
           intros _. by right.
        -- rewrite get_insert_ne by done. split.
           ++ intros [[Hlt Hs]|?]; [|done]. split; [lia|done].
           ++ intros [Hlt Hs]. left. split; [lia|done].
    + rewrite get_insert_ne by done. split; [done|].
      intros i. rewrite Hmem.
      destruct (decide (i = _listingIdCounter m)) as [->|Hi'].
      * rewrite get_insert_eq. split; [lia|]. intros [_ ?]. done.
      * rewrite get_insert_ne by done. split; intros [Hlt Hs]; (split; [lia|done]).
  - (* sold *)
    intros a. destruct (Hi a) as [Hsorted Hmem]. split; [exact Hsorted|].
    intros i. rewrite (Hmem i). cbn [_listingIdCounter set_listing].
    destruct (decide (id' = i)) as [->|Hne].
    + by rewrite getListing_set_eq.
    + by rewrite getListing_set_ne.
  - (* cancelled *)
    intros a. destruct (Hi a) as [Hsorted Hmem]. split; [exact Hsorted|].
    intros i. rewrite (Hmem i). cbn [_listingIdCounter set_listing].
    destruct (decide (id' = i)) as [->|Hne].
    + by rewrite getListing_set_eq.
    + by rewrite getListing_set_ne.
Qed.

(** X3: in every state the marketplace can reach from its deployment,
    getSellerListings(a) is strictly increasing and holds exactly the ids
    below totalListings whose listing has seller a: the listings a created,
    in the order of their creation, sold and cancelled ones included. *)
Theorem seller_index_is_the_sellers_listings
    (deployer feeRecipient_ : address) (m0 : State) (t0 : T)
    (eth0 : gmap N N) (es : list event) (a : address) :
  constructor deployer feeRecipient_ = Ok m0 →
  let m := market (run this payable
                     {| market := m0; tokens := t0; balances := eth0 |} es) in
  StronglySorted N.lt (getSellerListings m a)
  ∧ ∀ listingId,
      listingId ∈ getSellerListings m a
      ↔ listingId < totalListings m ∧ seller (getListing m listingId) = a.
Proof.
  intros Hdeploy m. subst m.
  assert (Hinit : index_consistent m0).
  { unfold constructor in Hdeploy. require_inv Hdeploy Hr.
    injection Hdeploy as <-. intros b. unfold getSellerListings, get. cbn.
    rewrite lookup_empty. cbn. split; [constructor|].
    intros i. split; [by intros ?%elem_of_nil | lia]. }
  assert (Hrun : ∀ w : World T, index_consistent (market w) →
                   index_consistent (market (run this payable w es))).
  { induction es as [|e es' IH]; intros w Hw; [done|].
    rewrite run_cons. apply IH.
    eapply index_consistent_change; [apply step_market_change | done]. }
  apply (Hrun {| market := m0; tokens := t0; balances := eth0 |} Hinit).
Qed.

Lemma exec_listing_counter (w w' : World T) x :
  exec this payable w x = Ok w' →
  _listingIdCounter (market w')
  = _listingIdCounter (market w) + (if is_list (tx_call x) then 1 else 0).
Proof.
  unfold exec. intros He. require_inv He Hfunds. require_inv He Hpay.
  unfold dispatch in He.
  destruct (tx_call x) as [tc id p | tc id a p | id | id | b | a | | | a | | ];
    [apply fmap_ok in He as (r & Hr & ->) .. |]; cbn [is_list].
  - destruct r as [w1 lid].
    by apply listERC721_ok_inv in Hr as (_ & _ & -> & _ & ->).
  - destruct r as [w1 lid].
    by apply listERC1155_ok_inv in Hr as (_ & _ & _ & -> & _ & ->).
  - destruct r as [w1 rc].
    apply buy_ok_inv in Hr as (_ & _ & _ & _ & Hm & _).
    cbn [fst]. rewrite Hm. cbn. lia.
  - apply cancelListing_ok_inv in Hr as (_ & _ & ->). cbn. lia.
  - unfold setPlatformFee in Hr. bind_inv Hr u Ho. require_inv Hr Hb.
    injection Hr as <-. cbn. lia.
  - unfold setFeeRecipient in Hr. bind_inv Hr u Ho. require_inv Hr Ha.
    injection Hr as <-. cbn. lia.
  - unfold pause in Hr. bind_inv Hr u Ho. bind_inv Hr u' Hp'.
    injection Hr as <-. cbn. lia.
  - unfold unpause in Hr. bind_inv Hr u Ho. bind_inv Hr u' Hp'.
    injection Hr as <-. cbn. lia.
  - unfold transferOwnership in Hr. bind_inv Hr u Ho. require_inv Hr Ha.
    injection Hr as <-. cbn. lia.
  - unfold renounceOwnership in Hr. bind_inv Hr u Ho.
    injection Hr as <-. cbn. lia.
  - injection He as <-. cbn. lia.
Qed.

(** X4: totalListings() counts the listings ever created: along any
    sequence of events it grows by exactly the number of listERC721 and
    listERC1155 transactions that did not revert; purchases, cancellations
    and administrative calls leave it alone, so ids are never reused. *)
Theorem totalListings_counts_the_listings (w : World T) (es : list event) :
  totalListings (market (run this payable w es))
  = totalListings (market w) + lists_performed this payable w es.
Proof.
  revert w. induction es as [|e es' IH]; intros w.
  - cbn. unfold totalListings. lia.
  - rewrite run_cons, IH. cbn [lists_performed]. unfold totalListings.
    destruct e as [x | t eth]; cbn [step]; [|cbn; lia].
    destruct (exec this payable w x) as [w1|] eqn:He; cbn [is_ok].
    + rewrite (exec_listing_counter _ _ _ He). rewrite andb_true_r.
      destruct (is_list (tx_call x)); lia.
    + rewrite andb_false_r. lia.
Qed.

(** *** The administrative configuration *)

Lemma exec_config (w w' : World T) x :
  exec this payable w x = Ok w' →
  config (market w') = config (market w)
  ∨ (tx_sender x = _owner (market w)
     ∧ match tx_call x with
       | SetPlatformFee _ | SetFeeRecipient _ | Pause | Unpause
       | TransferOwnership _ | RenounceOwnership => True
       | _ => False
       end).
Proof.
  unfold exec. intros He. require_inv He Hfunds. require_inv He Hpay.
  unfold dispatch in He.
  destruct (tx_call x) as [tc id p | tc id a p | id | id | b | a | | | a | | ];
    [apply fmap_ok in He as (r & Hr & ->) .. |].
  - left. destruct r as [w1 lid].
    by apply listERC721_ok_inv in Hr as (_ & _ & -> & _ & ->).
  - left. destruct r as [w1 lid].
    by apply listERC1155_ok_inv in Hr as (_ & _ & _ & -> & _ & ->).
  - left. destruct r as [w1 rc].
    apply buy_ok_inv in Hr as (_ & _ & _ & _ & Hm & _).
    cbn [fst]. by rewrite Hm.
  - left. by apply cancelListing_ok_inv in Hr as (_ & _ & ->).
  - right. unfold setPlatformFee in Hr. bind_inv Hr u Ho.
    by apply onlyOwner_ok in Ho.
  - right. unfold setFeeRecipient in Hr. bind_inv Hr u Ho.
    by apply onlyOwner_ok in Ho.
  - right. unfold pause in Hr. bind_inv Hr u Ho. by apply onlyOwner_ok in Ho.
  - right. unfold unpause in Hr. bind_inv Hr u Ho. by apply onlyOwner_ok in Ho.
  - right. unfold transferOwnership in Hr. bind_inv Hr u Ho.
    by apply onlyOwner_ok in Ho.
  - right. unfold renounceOwnership in Hr. bind_inv Hr u Ho.
    by apply onlyOwner_ok in Ho.
  - left. by injection He as <-.
Qed.

(** X5: the fee, the fee recipient, the pause flag and the owner change
    only through a transaction of the current owner that calls one of the
    six administrative functions: any other event -- a listing, a purchase,
    a cancellation, a call by anybody else, a reverted call -- leaves them
    as they are. *)
Theorem only_the_owner_changes_the_configuration (w : World T) (e : event) :
  config (market (step this payable w e)) ≠ config (market w) →
  ∃ x, e = Tx x
       ∧ tx_sender x = _owner (market w)
       ∧ is_ok (exec this payable w x) = true
       ∧ match tx_call x with
         | SetPlatformFee _ | SetFeeRecipient _ | Pause | Unpause
         | TransferOwnership _ | RenounceOwnership => True
         | _ => False
         end.
Proof.
  destruct e as [x | t eth]; cbn [step]; [|done].
  destruct (exec this payable w x) as [w1|] eqn:He; [|done].
  intros Hne. exists x.
  destruct (exec_config _ _ _ He) as [Hc|[Hs Hcall]]; [done|].
  split; [done|]. split; [exact Hs|]. split; [by rewrite He | exact Hcall].
Qed.

(** X6: once the ownership is renounced, the configuration is frozen: as
    no transaction comes from the null address, the fee, the fee recipient
    and the pause flag keep their values for ever, and the owner stays the
    null address.  A marketplace that was paused when its owner renounced
    can never list or sell again. *)
Theorem renounced_ownership_freezes_the_configuration
    (w : World T) (es : list event) :
  _owner (market w) = 0 →
  (∀ x, Tx x ∈ es → tx_sender x ≠ 0) →
  config (market (run this payable w es)) = config (market w).
Proof.
  revert w. induction es as [|e es' IH]; intros w Ho Hes; [done|].
  rewrite run_cons.
  assert (Hstep : config (market (step this payable w e)) = config (market w)).
  { destruct (decide (config (market (step this payable w e))
                      = config (market w))) as [|Hne]; [done|].
    apply only_the_owner_changes_the_configuration in Hne
      as (x & -> & Hs & _).
    exfalso. apply (Hes x); [by left | congruence]. }
  rewrite IH; [done | | ].
  - unfold config in Hstep. congruence.
  - intros x Hx. apply Hes. by right.
Qed.

(** X7: in every state the marketplace can reach from its deployment the
    platform fee is at most 1000 basis points and the fee recipient is not
    the null address. *)
Theorem fee_and_recipient_stay_valid
    (deployer feeRecipient_ : address) (m0 : State) (t0 : T)
    (eth0 : gmap N N) (es : list event) :
  constructor deployer feeRecipient_ = Ok m0 →
  let m := market (run this payable
                     {| market := m0; tokens := t0; balances := eth0 |} es) in
  platformFeeBps m ≤ 1000 ∧ feeRecipient m ≠ 0.
Proof.
  intros Hdeploy m. subst m.
  unfold constructor in Hdeploy. require_inv Hdeploy Hr.
  apply negb_true_iff, N.eqb_neq in Hr. injection Hdeploy as <-.
  split; [apply fee_bounded_run; cbn; lia|].
  assert (Hrun : ∀ w : World T, feeRecipient (market w) ≠ 0 →
                   feeRecipient (market (run this payable w es)) ≠ 0).
  { induction es as [|e es' IH]; intros w Hw; [done|].
    rewrite run_cons. apply IH.
    by destruct (step_market_change this payable w e). }
  by apply Hrun.
Qed.

(** X8: cancelListing checks that the listing is Active and then that
    the caller is its seller or the owner of the marketplace; it succeeds
    exactly when both hold, paused or not.  It marks the listing Cancelled
    and changes nothing else: the other listings, the counter, the index of
    every seller and the configuration are as before.  No token comes back
    with it, as none was taken. *)
Theorem cancelListing_checks (s : State) (sender listingId : N) :
  let l := getListing s listingId in
  (status l ≠ Active →
   cancelListing s sender listingId = Err ListingNotActive)
  ∧ (status l = Active → seller l ≠ sender → sender ≠ _owner s →
     cancelListing s sender listingId = Err NotAuthorized)
  ∧ (is_ok (cancelListing s sender listingId) = true
     ↔ status l = Active ∧ (seller l = sender ∨ sender = _owner s))
  ∧ (∀ s', cancelListing s sender listingId = Ok s' →
       getListing s' listingId = with_status l Cancelled
       ∧ isListingActive s' listingId = false
       ∧ (∀ other, other ≠ listingId →
            getListing s' other = getListing s other)
       ∧ totalListings s' = totalListings s
       ∧ (∀ a, getSellerListings s' a = getSellerListings s a)
       ∧ config s' = config s).
Proof.
  intros l. subst l. unfold cancelListing. fold (getListing s listingId).
  split; [|split; [|split]].
  - intros Hst. apply status_eqb_Active in Hst. by rewrite Hst.
  - intros Hst Hs Ho. apply status_eqb_eq in Hst. rewrite Hst.
    apply N.eqb_neq in Hs, Ho. by rewrite Hs, Ho.
  - split.
    + intros Hok.
      destruct (status_eqb (status (getListing s listingId)) Active) eqn:Hst;
        [|done].
      apply status_eqb_eq in Hst. split; [done|]. cbn in Hok.
      destruct (N.eqb_spec (seller (getListing s listingId)) sender); [by left|].
      destruct (N.eqb_spec sender (_owner s)); [by right|done].
    + intros [Hst Hauth]. apply status_eqb_eq in Hst. rewrite Hst.
      assert ((seller (getListing s listingId) =? sender)
              || (sender =? _owner s) = true) as ->; [|done].
      apply orb_true_iff. destruct Hauth as [?%N.eqb_eq|?%N.eqb_eq]; auto.
  - intros s' Hc. change (cancelListing s sender listingId = Ok s') in Hc.
    apply cancelListing_ok_inv in Hc as (_ & _ & ->).
    split; [by rewrite getListing_set_eq|]. split.
    { unfold isListingActive. fold (getListing (set_listing s listingId
        (with_status (getListing s listingId) Cancelled)) listingId).
      by rewrite getListing_set_eq. }
    split; [|done]. intros other Hne. by rewrite getListing_set_ne.
Qed.

(** *** The payments of a buy *)







End Engine.
End MarketplaceSpec.

(** ** The single-edition ledger *)
Module NFTFacts.
Import AccessControl ERC2981 NFT NFTChanges NFTMultiEditionFacts.

Lemma _update_moved s to tokenId auth s' from :
  _update s to tokenId auth = Ok (s', from) →
  from = _ownerOf s tokenId
  ∧ (auth ≠ 0 → _isAuthorized s from auth tokenId = true)
  ∧ s' = moved s from to tokenId.
Proof.
  unfold _update, moved. intros Hu. bind_inv Hu u Hauth.
  assert (Hauth' : auth ≠ 0 →
            _isAuthorized s (_ownerOf s tokenId) auth tokenId = true).
  { intros Ha. apply N.eqb_neq in Ha. rewrite Ha in Hauth.
    unfold _checkAuthorized in Hauth.
    destruct (_isAuthorized s (_ownerOf s tokenId) auth tokenId); [done|].
    by destruct (_ownerOf s tokenId =? 0). }
  destruct (_ownerOf s tokenId =? 0) eqn:Hfrom; injection Hu as <- <-;
    rewrite Hfrom; done.
Qed.

(** What [moved] does to the views. *)
Lemma moved_owner s from to tokenId other :
  _ownerOf (moved s from to tokenId) other
  = if decide (other = tokenId) then to else _ownerOf s other.
Proof.
  unfold moved, _ownerOf.
  destruct (from =? 0), (to =? 0); cbn; case_decide as Hd; subst;
    by rewrite ?get_insert_eq, ?get_insert_ne by done.
Qed.

Lemma moved_approved s from to tokenId other :
  _getApproved (moved s from to tokenId) other
  = if decide (other = tokenId ∧ from ≠ 0) then 0 else _getApproved s other.
Proof.
  unfold moved, _getApproved.
  destruct (N.eqb_spec from 0) as [->|Hf], (to =? 0); cbn;
    case_decide as Hd; try (destruct Hd as [-> ?]); try done;
    try by rewrite get_insert_eq.
  all: rewrite get_insert_ne; [done|]; intros ->; by apply Hd.
Qed.

Lemma moved_frame s from to tokenId :
  let s' := moved s from to tokenId in
  _nextTokenId s' = _nextTokenId s ∧ _creators s' = _creators s
  ∧ defaultRoyaltyBps s' = defaultRoyaltyBps s
  ∧ _operatorApprovals s' = _operatorApprovals s
  ∧ _tokenURIs s' = _tokenURIs s
  ∧ _tokenRoyaltyInfo s' = _tokenRoyaltyInfo s ∧ _roles s' = _roles s.
Proof. unfold moved. by destruct (from =? 0), (to =? 0). Qed.

Section Ledger.
Variable acceptance : address → address → address → N → bool.

Lemma _safeMint_ok s operator to tokenId s' :
  _safeMint acceptance s operator to tokenId = Ok s' →
  to ≠ 0 ∧ _ownerOf s tokenId = 0 ∧ acceptance operator 0 to tokenId = true
  ∧ s' = moved s 0 to tokenId.
Proof.
  unfold _safeMint. intros Hm. require_inv Hm Hto.
  apply negb_true_iff, N.eqb_neq in Hto.
  bind_inv Hm r Hu. destruct r as [s1 prev].
  apply _update_moved in Hu as (-> & _ & ->).
  require_inv Hm Hprev. apply N.eqb_eq in Hprev.
  require_inv Hm Hacc. injection Hm as <-. by rewrite Hprev.
Qed.

Lemma minting_ok s sender to creator uri s' tokenId :
  (next ← checked_add (_nextTokenId s) 1;
   s1 ← _safeMint acceptance (set_counter s next) sender to (_nextTokenId s);
   let s2 := _setTokenURI s1 (_nextTokenId s) uri in
   let s3 := set_creators s2 (<[_nextTokenId s := creator]> (_creators s2)) in
   r ← _setTokenRoyalty (_tokenRoyaltyInfo s3) (_nextTokenId s) creator
         (defaultRoyaltyBps s3);
   Ok (set_royalties s3 r, _nextTokenId s)) = Ok (s', tokenId) →
  to ≠ 0 ∧ creator ≠ 0 ∧ _ownerOf s (_nextTokenId s) = 0
  ∧ acceptance sender 0 to (_nextTokenId s) = true
  ∧ _nextTokenId s + 1 ≤ MAX_UINT256 ∧ defaultRoyaltyBps s ≤ 10000
  ∧ tokenId = _nextTokenId s ∧ s' = minted s to creator uri.
Proof.
  intros Hm.
  bind_inv Hm next Hnext. apply checked_add_ok in Hnext as [-> Hfit].
  bind_inv Hm s1 Hs1. apply _safeMint_ok in Hs1 as (Hto & Hfree & Hacc & ->).
  cbv zeta in Hm. bind_inv Hm r Hr.
  apply _setTokenRoyalty_ok in Hr as (Hbps & Hcr & ->).
  injection Hm as <- <-.
  destruct (moved_frame (set_counter s (_nextTokenId s + 1)) 0 to (_nextTokenId s))
    as (_ & _ & Hd & _).
  cbn in Hbps, Hd. unfold _setTokenURI in *. cbn in Hbps.
  repeat split; done.
Qed.

Lemma mint_ok s sender to uri s' tokenId :
  mint acceptance s sender to uri = Ok (s', tokenId) →
  hasRole (_roles s) MINTER_ROLE sender = true
  ∧ to ≠ 0 ∧ _ownerOf s (_nextTokenId s) = 0
  ∧ acceptance sender 0 to (_nextTokenId s) = true
  ∧ _nextTokenId s + 1 ≤ MAX_UINT256 ∧ defaultRoyaltyBps s ≤ 10000
  ∧ tokenId = _nextTokenId s ∧ s' = minted s to to uri.
Proof.
  unfold mint. intros Hm. bind_inv Hm u Hrole. apply onlyRole_ok in Hrole.
  apply minting_ok in Hm as (? & ? & ? & ? & ? & ? & ? & ?). done.
Qed.

Lemma mintFor_ok s sender to creator uri s' tokenId :
  mintFor acceptance s sender to creator uri = Ok (s', tokenId) →
  hasRole (_roles s) MINTER_ROLE sender = true
  ∧ to ≠ 0 ∧ creator ≠ 0 ∧ _ownerOf s (_nextTokenId s) = 0
  ∧ acceptance sender 0 to (_nextTokenId s) = true
  ∧ _nextTokenId s + 1 ≤ MAX_UINT256 ∧ defaultRoyaltyBps s ≤ 10000
  ∧ tokenId = _nextTokenId s ∧ s' = minted s to creator uri.
Proof.
  unfold mintFor. intros Hm. bind_inv Hm u Hrole. apply onlyRole_ok in Hrole.
  require_inv Hm Hcr.
  apply minting_ok in Hm as (? & ? & ? & ? & ? & ? & ? & ?). done.
Qed.

Lemma transferFrom_ok s sender from to tokenId s' :
  transferFrom s sender from to tokenId = Ok s' →
  to ≠ 0 ∧ _ownerOf s tokenId = from
  ∧ (sender ≠ 0 → _isAuthorized s from sender tokenId = true)
  ∧ s' = moved s from to tokenId.
Proof.
  unfold transferFrom. intros Ht. require_inv Ht Hto.
  apply negb_true_iff, N.eqb_neq in Hto.
  bind_inv Ht r Hu. destruct r as [s1 prev].
  apply _update_moved in Hu as (-> & Hauth & ->).
  require_inv Ht Hprev. apply N.eqb_eq in Hprev. injection Ht as <-.
  by rewrite <- Hprev.
Qed.

Lemma safeTransferFrom_ok s sender from to tokenId s' :
  safeTransferFrom acceptance s sender from to tokenId = Ok s' →
  to ≠ 0 ∧ _ownerOf s tokenId = from
  ∧ (sender ≠ 0 → _isAuthorized s from sender tokenId = true)
  ∧ acceptance sender from to tokenId = true
  ∧ s' = moved s from to tokenId.
Proof.
  unfold safeTransferFrom. intros Ht. bind_inv Ht s1 Hs1.
  apply transferFrom_ok in Hs1 as (? & ? & ? & ->).
  require_inv Ht Hacc. by injection Ht as <-.
Qed.

Lemma burn_ok s sender tokenId s' :
  burn s sender tokenId = Ok s' →
  (sender ≠ 0 → _isAuthorized s (_ownerOf s tokenId) sender tokenId = true)
  ∧ s' = moved s (_ownerOf s tokenId) 0 tokenId.
Proof.
  unfold burn. intros Hb. apply fmap_ok in Hb as ([s1 prev] & Hu & ->).
  by apply _update_moved in Hu as (-> & ? & ->).
Qed.

Lemma setTokenRoyalty_ok s sender tokenId rcv bps s' :
  setTokenRoyalty s sender tokenId rcv bps = Ok s' →
  _ownerOf s tokenId ≠ 0 ∧ rcv ≠ 0 ∧ bps ≤ 1000
  ∧ (get 0 (_creators s) tokenId = sender
     ∨ hasRole (_roles s) DEFAULT_ADMIN_ROLE sender = true)
  ∧ s' = set_royalties s
           (<[tokenId := {| receiver := rcv; royaltyFraction := bps |}]>
              (_tokenRoyaltyInfo s)).
Proof.
  unfold setTokenRoyalty. intros Hs. require_inv Hs Hex.
  apply negb_true_iff, N.eqb_neq in Hex. require_inv Hs Hauth.
  require_inv Hs Hbps. apply N.leb_le in Hbps. bind_inv Hs r Hr.
  apply _setTokenRoyalty_ok in Hr as (_ & Hrcv & ->). injection Hs as <-.
  repeat split; try done.
  apply orb_true_iff in Hauth as [?%N.eqb_eq|?]; auto.
Qed.

(** One transaction changes the state in one of the ways of [change]. *)
Lemma exec_change s sender c s' :
  exec acceptance s sender c = Ok s' → change s sender s'.
Proof.
  destruct c; cbn [exec]; intros He.
  - apply fmap_ok in He as ([s1 id] & Hm & ->).
    apply mint_ok in Hm as (? & ? & ? & ? & ? & ? & ? & ->).
    by apply ch_minted.
  - apply fmap_ok in He as ([s1 id] & Hm & ->).
    apply mintFor_ok in Hm as (? & ? & ? & ? & ? & ? & ? & ? & ->).
    by apply ch_minted.
  - apply setTokenRoyalty_ok in He as (? & ? & ? & ? & ->).
    by apply ch_royalty.
  - unfold setDefaultRoyalty in He. bind_inv He u Hrole.
    apply onlyRole_ok in Hrole. require_inv He Hbps. apply N.leb_le in Hbps.
    injection He as <-. by apply ch_default.
  - unfold approve in He. bind_inv He owner Hown. unfold _requireOwned in Hown.
    require_inv Hown Hex. apply negb_true_iff, N.eqb_neq in Hex.
    require_inv He Hok. injection He as <-. by apply ch_approved.
  - unfold setApprovalForAll in He. require_inv He Hop.
    apply negb_true_iff, N.eqb_neq in Hop. injection He as <-.
    by apply ch_operator.
  - apply transferFrom_ok in He as (_ & <- & Hauth & ->). by apply ch_moved.
  - apply safeTransferFrom_ok in He as (_ & <- & Hauth & _ & ->).
    by apply ch_moved.
  - apply burn_ok in He as (Hauth & ->). by apply ch_moved.
  - apply fmap_ok in He as (r & _ & ->). apply ch_roles.
  - apply fmap_ok in He as (r & _ & ->). apply ch_roles.
  - apply fmap_ok in He as (r & _ & ->). apply ch_roles.
Qed.

Lemma step_change s tx :
  step acceptance s tx = s ∨ change s tx.1 (step acceptance s tx).
Proof.
  unfold step. destruct (exec acceptance s tx.1 tx.2) eqn:He; [|by left].
  right. by eapply exec_change.
Qed.

(** A call that succeeds, as the transaction it is. *)
Lemma exec_is_step s sender c :
  is_ok (exec acceptance s sender c) = true →
  exec acceptance s sender c = Ok (step acceptance s (sender, c)).
Proof. unfold step. cbn [fst snd]. by destruct (exec acceptance s sender c). Qed.

Lemma ledger_run_snoc s txs tx :
  run acceptance s (txs ++ [tx]) = step acceptance (run acceptance s txs) tx.
Proof. unfold run. by rewrite fold_left_app. Qed.

Lemma ledger_run_cons s tx txs :
  run acceptance s (tx :: txs) = run acceptance (step acceptance s tx) txs.
Proof. done. Qed.

End Ledger.

(** *** The identifiers *)

Lemma minted_owner s to creator uri other :
  _ownerOf (minted s to creator uri) other
  = if decide (other = _nextTokenId s) then to else _ownerOf s other.
Proof.
  transitivity (_ownerOf (moved (set_counter s (_nextTokenId s + 1)) 0 to
                            (_nextTokenId s)) other); [done|].
  by rewrite moved_owner.
Qed.

Lemma minted_approved s to creator uri other :
  _getApproved (minted s to creator uri) other = _getApproved s other.
Proof.
  transitivity (_getApproved (moved (set_counter s (_nextTokenId s + 1)) 0 to
                                (_nextTokenId s)) other); [done|].
  rewrite moved_approved. case_decide as Hd; [by destruct Hd|done].
Qed.

Lemma not_authorized_without_owner s sender tokenId :
  approvals_sane s → sender ≠ 0 → _ownerOf s tokenId = 0 →
  _isAuthorized s (_ownerOf s tokenId) sender tokenId = false.
Proof.
  intros [Happ Hop] Hs Ho. unfold _isAuthorized. rewrite Ho, Hop, (Happ _ Ho).
  assert ((0 =? sender) = false) as -> by (apply N.eqb_neq; congruence).
  by rewrite andb_false_r.
Qed.

Lemma invariants_change s sender s' :
  change s sender s' → sender ≠ 0 →
  unminted_above s ∧ approvals_sane s →
  unminted_above s' ∧ approvals_sane s'.
Proof.
  intros Hc Hs [Hun Hsane]. pose proof Hsane as [Happ Hop].
  destruct Hc as [to cr uri Hrole Hto Hcr Hfree Hfit Hbps | to id Hauth
                 | id rcv bps | bps | to id Hown | op b Hne | roles].
  - split; [|split].
    + intros id Hid. rewrite minted_owner.
      assert (_nextTokenId (minted s to cr uri) = _nextTokenId s + 1) as Hn
        by (unfold minted, moved; cbn; by destruct (to =? 0)).
      rewrite Hn in Hid. case_decide; [lia|]. apply Hun. lia.
    + intros id. rewrite minted_owner, minted_approved.
      case_decide; [done|]. apply Happ.
    + intros op. unfold minted, moved, isApprovedForAll. cbn.
      destruct (to =? 0); apply Hop.
  - specialize (Hauth Hs).
    assert (Hown : _ownerOf s id ≠ 0).
    { intros Ho. by rewrite not_authorized_without_owner in Hauth. }
    destruct (moved_frame s (_ownerOf s id) to id) as (Hn & _ & _ & Hops & _).
    split; [|split].
    + intros id' Hid'. rewrite Hn in Hid'. rewrite moved_owner.
      case_decide as Hd; [|by apply Hun]. subst id'.
      by rewrite Hun in Hown.
    + intros id'. rewrite moved_owner, moved_approved.
      case_decide as Hd.
      * subst id'. intros _. by rewrite decide_True.
      * intros Ho. rewrite decide_False by (by intros [? _]). by apply Happ.
    + intros op. unfold isApprovedForAll. rewrite Hops. apply Hop.
  - done.
  - done.
  - split; [done|]. split; [|done].
    intros id' Ho. unfold _getApproved. cbn.
    rewrite get_insert_ne; [by apply Happ|]. intros ->. apply Hown. exact Ho.
  - split; [done|]. split; [done|].
    intros op'. unfold isApprovedForAll. cbn.
    rewrite get_insert_ne; [apply Hop|]. congruence.
  - done.
Qed.

Section Runs.
Variable acceptance : address → address → address → N → bool.

Lemma invariants_step s tx :
  tx.1 ≠ 0 → unminted_above s ∧ approvals_sane s →
  unminted_above (step acceptance s tx) ∧ approvals_sane (step acceptance s tx).
Proof.
  intros Hs Hinv. destruct (step_change acceptance s tx) as [->|Hc]; [done|].
  by eapply invariants_change.
Qed.

Lemma invariants_run_from s txs :
  real_senders txs → unminted_above s ∧ approvals_sane s →
  unminted_above (run acceptance s txs) ∧ approvals_sane (run acceptance s txs).
Proof.
  revert s. induction txs as [|tx txs IH]; intros s Hreal Hinv; [done|].
  inversion Hreal; subst. rewrite ledger_run_cons. apply IH; [done|].
  by apply invariants_step.
Qed.

Lemma invariants_constructor deployer bps :
  unminted_above (constructor deployer bps)
  ∧ approvals_sane (constructor deployer bps).
Proof.
  split; [|split]; intros ?; try intros ?;
    unfold _ownerOf, _getApproved, isApprovedForAll, get; cbn;
    by rewrite lookup_empty.
Qed.

Lemma change_owner_of_unowned s sender s' tokenId :
  change s sender s' → sender ≠ 0 →
  unminted_above s ∧ approvals_sane s →
  tokenId < _nextTokenId s → _ownerOf s tokenId = 0 →
  tokenId < _nextTokenId s' ∧ _ownerOf s' tokenId = 0.
Proof.
  intros Hc Hs [Hun Hsane] Hlt Ho.
  destruct Hc as [to cr uri Hrole Hto Hcr Hfree Hfit Hbps | to id Hauth
                 | id rcv bps | bps | to id Hown | op b Hne | roles];
    try done.
  - split.
    + assert (_nextTokenId (minted s to cr uri) = _nextTokenId s + 1) as ->
        by (unfold minted, moved; cbn; by destruct (to =? 0)).
      lia.
    + rewrite minted_owner. case_decide; [lia|done].
  - specialize (Hauth Hs).
    destruct (moved_frame s (_ownerOf s id) to id) as (Hn & _).
    rewrite Hn. split; [done|]. rewrite moved_owner.
    case_decide as Hd; [|done]. subst id.
    by rewrite not_authorized_without_owner in Hauth.
Qed.

Lemma unowned_run s txs tokenId :
  real_senders txs →
  unminted_above s ∧ approvals_sane s →
  tokenId < _nextTokenId s → _ownerOf s tokenId = 0 →
  _ownerOf (run acceptance s txs) tokenId = 0.
Proof.
  revert s. induction txs as [|tx txs IH]; intros s Hreal Hinv Hlt Ho; [done|].
  inversion Hreal; subst. rewrite ledger_run_cons.
  destruct (step_change acceptance s tx) as [->|Hc]; [by apply IH|].
  destruct (change_owner_of_unowned _ _ _ _ Hc ltac:(done) Hinv Hlt Ho).
  apply IH; [done | by eapply invariants_change | done | done].
Qed.

(** X10: token identifiers are issued once.  In every state the ledger can
    reach from its deployment, a token that exists has an id below
    totalSupply(); and a token below totalSupply() that does not exist --
    a burned one -- never exists again, whatever is called afterwards:
    ownerOf keeps failing for it. *)
Theorem token_ids_are_never_reused
    (deployer bps : N) (txs : list (address * call)) (tokenId : N) :
  real_senders txs →
  let s := run acceptance (constructor deployer bps) txs in
  (exists_ s tokenId = true → tokenId < totalSupply s)
  ∧ (tokenId < totalSupply s → exists_ s tokenId = false →
     ∀ more, real_senders more →
       exists_ (run acceptance s more) tokenId = false
       ∧ is_ok (ownerOf (run acceptance s more) tokenId) = false).
Proof.
  intros Hreal s.
  pose proof (invariants_run_from (constructor deployer bps) txs Hreal
                (invariants_constructor deployer bps)) as Hinv.
  fold s in Hinv. split.
  - intros Hex. destruct (N.lt_ge_cases tokenId (totalSupply s)) as [|Hge];
      [done|].
    destruct Hinv as [Hun _]. unfold exists_ in Hex. rewrite (Hun _ Hge) in Hex.
    done.
  - intros Hlt Hex more Hmore.
    assert (Ho : _ownerOf s tokenId = 0).
    { unfold exists_ in Hex. by apply negb_false_iff, N.eqb_eq in Hex. }
    pose proof (unowned_run s more tokenId Hmore Hinv Hlt Ho) as Ho'.
    unfold exists_, ownerOf, _requireOwned. by rewrite Ho'.
Qed.

Lemma exec_token_counter s sender c s' :
  exec acceptance s sender c = Ok s' →
  _nextTokenId s' = _nextTokenId s + (if is_mint c then 1 else 0).
Proof.
  destruct c; cbn [exec is_mint]; intros He.
  - apply fmap_ok in He as ([s1 id] & Hm & ->).
    apply mint_ok in Hm as (_ & _ & _ & _ & _ & _ & _ & ->).
    unfold minted, moved. cbn. by destruct (to =? 0).
  - apply fmap_ok in He as ([s1 id] & Hm & ->).
    apply mintFor_ok in Hm as (_ & _ & _ & _ & _ & _ & _ & _ & ->).
    unfold minted, moved. cbn. by destruct (to =? 0).
  - apply setTokenRoyalty_ok in He as (_ & _ & _ & _ & ->). cbn. lia.
  - unfold setDefaultRoyalty in He. bind_inv He u Hrole. require_inv He Hbps.
    injection He as <-. cbn. lia.
  - unfold approve in He. bind_inv He owner Hown. require_inv He Hok.
    injection He as <-. cbn. lia.
  - unfold setApprovalForAll in He. require_inv He Hop. injection He as <-.
    cbn. lia.
  - apply transferFrom_ok in He as (_ & _ & _ & ->).
    destruct (moved_frame s from to tokenId) as (-> & _). lia.
  - apply safeTransferFrom_ok in He as (_ & _ & _ & _ & ->).
    destruct (moved_frame s from to tokenId) as (-> & _). lia.
  - apply burn_ok in He as (_ & ->).
    destruct (moved_frame s (_ownerOf s tokenId) 0 tokenId) as (-> & _). lia.
  - apply fmap_ok in He as (r & _ & ->). cbn. lia.
  - apply fmap_ok in He as (r & _ & ->). cbn. lia.
  - apply fmap_ok in He as (r & _ & ->). cbn. lia.
Qed.

(** X11: totalSupply() is the number of tokens ever minted, not of those
    that exist: along any sequence of transactions it grows by exactly the
    number of mint and mintFor calls that did not revert, so it never
    decreases; a successful burn leaves it as it was, although the burned
    token no longer exists. *)
Theorem totalSupply_counts_the_mints (s : State) (txs : list (address * call)) :
  totalSupply (run acceptance s txs)
  = totalSupply s + mints_performed acceptance s txs
  ∧ totalSupply s ≤ totalSupply (run acceptance s txs)
  ∧ ∀ sender tokenId s',
      burn s sender tokenId = Ok s' →
      totalSupply s' = totalSupply s ∧ exists_ s' tokenId = false.
Proof.
  assert (Hcount : ∀ s, totalSupply (run acceptance s txs)
                        = totalSupply s + mints_performed acceptance s txs).
  { induction txs as [|tx txs' IH]; intros s0.
    - cbn. unfold totalSupply. lia.
    - rewrite ledger_run_cons, IH. cbn [mints_performed]. unfold totalSupply, step.
      destruct (exec acceptance s0 tx.1 tx.2) as [s1|] eqn:He; cbn [is_ok].
      + rewrite (exec_token_counter _ _ _ _ He), andb_true_r.
        destruct (is_mint tx.2); lia.
      + rewrite andb_false_r. lia. }
  split; [apply Hcount|]. split; [rewrite Hcount; lia|].
  intros sender tokenId s' Hb. apply burn_ok in Hb as (_ & ->).
  destruct (moved_frame s (_ownerOf s tokenId) 0 tokenId) as (Hn & _).
  unfold totalSupply, exists_. rewrite Hn, moved_owner, decide_True by done.
  done.
Qed.

Lemma _update_fresh s to tokenId n :
  _ownerOf s tokenId = 0 →
  _update (set_counter s n) to tokenId 0
  = Ok (moved (set_counter s n) 0 to tokenId, 0).
Proof.
  intros Hfree. unfold _update, moved.
  change (_ownerOf (set_counter s n) tokenId) with (_ownerOf s tokenId).
  by rewrite Hfree.
Qed.



Lemma minted_views s to creator uri :
  let s' := minted s to creator uri in
  _nextTokenId s' = _nextTokenId s + 1
  ∧ get 0 (_creators s') (_nextTokenId s) = creator
  ∧ get no_royalty (_tokenRoyaltyInfo s') (_nextTokenId s)
    = {| receiver := creator; royaltyFraction := defaultRoyaltyBps s |}
  ∧ get EmptyString (_tokenURIs s') (_nextTokenId s) = uri.
Proof.
  unfold minted, moved. cbn. destruct (to =? 0); cbn;
    by rewrite !get_insert_eq.
Qed.


(** *** Creator and royalty of a token *)

Lemma change_creator s sender s' tokenId :
  change s sender s' → tokenId < _nextTokenId s →
  get 0 (_creators s') tokenId = get 0 (_creators s) tokenId
  ∧ tokenId < _nextTokenId s'.
Proof.
  intros Hc Hlt.
  destruct Hc as [to cr uri Hrole Hto Hcr Hfree Hfit Hbps | to id Hauth
                 | id rcv bps | bps | to id Hown | op b Hne | roles];
    try done.
  - unfold minted, moved. cbn. destruct (to =? 0); cbn;
      (rewrite get_insert_ne by lia; split; [done|lia]).
  - by destruct (moved_frame s (_ownerOf s id) to id) as (-> & -> & _).
Qed.

(** X13: the creator of a token is fixed when the token is minted: no
    later transaction -- transfer, approval, burn, royalty update, role
    change, further mints -- changes what creatorOf answers for an issued
    id. *)
Theorem creator_is_fixed_at_mint
    (s : State) (txs : list (address * call)) (tokenId : N) :
  tokenId < totalSupply s →
  get 0 (_creators (run acceptance s txs)) tokenId = get 0 (_creators s) tokenId
  ∧ (exists_ (run acceptance s txs) tokenId = true →
     creatorOf (run acceptance s txs) tokenId = Ok (get 0 (_creators s) tokenId)).
Proof.
  intros Hlt.
  assert (Hc : get 0 (_creators (run acceptance s txs)) tokenId
               = get 0 (_creators s) tokenId).
  { revert s Hlt. induction txs as [|tx txs' IH]; intros s Hlt; [done|].
    rewrite ledger_run_cons.
    destruct (step_change acceptance s tx) as [->|Hc]; [by apply IH|].
    destruct (change_creator _ _ _ _ Hc Hlt) as [<- Hlt']. by apply IH. }
  split; [done|]. intros Hex. unfold creatorOf. unfold exists_ in Hex.
  rewrite Hex. cbn. by rewrite Hc.
Qed.

(** X14: setTokenRoyalty of the single-edition ledger checks, in this
    order, that the token exists, that the caller is its creator or an
    administrator, that the rate is at most 1000 basis points, and -- in the
    royalty registry -- that the receiver is not the null address.  When all
    hold it overwrites the entry of the token, and of no other token; from
    then on royaltyInfo reports the new receiver and floor(salePrice * rate /
    10000), which is at most a tenth of the price.  The owner of the token
    has no say unless it is also the creator. *)
Theorem setTokenRoyalty_checks (s : State) (sender tokenId rcv bps : N) :
  let authorized := (get 0 (_creators s) tokenId =? sender)
                    || hasRole (_roles s) DEFAULT_ADMIN_ROLE sender in
  (exists_ s tokenId = false →
   setTokenRoyalty s sender tokenId rcv bps
   = Err (Reason "Token does not exist"))
  ∧ (exists_ s tokenId = true → authorized = false →
     setTokenRoyalty s sender tokenId rcv bps
     = Err (Reason "Only creator or admin can set royalty"))
  ∧ (exists_ s tokenId = true → authorized = true → 1000 < bps →
     setTokenRoyalty s sender tokenId rcv bps
     = Err (Reason "Royalty cannot exceed 10%"))
  ∧ (exists_ s tokenId = true → authorized = true → bps ≤ 1000 → rcv = 0 →
     setTokenRoyalty s sender tokenId rcv bps
     = Err (CustomError "ERC2981InvalidTokenRoyaltyReceiver"))
  ∧ (is_ok (setTokenRoyalty s sender tokenId rcv bps) = true
     ↔ exists_ s tokenId = true ∧ authorized = true ∧ bps ≤ 1000 ∧ rcv ≠ 0)
  ∧ (∀ s', setTokenRoyalty s sender tokenId rcv bps = Ok s' →
       (∀ salePrice, salePrice * bps ≤ MAX_UINT256 →
          royaltyInfo s' tokenId salePrice = Ok (rcv, salePrice * bps / 10000)
          ∧ 10 * (salePrice * bps / 10000) ≤ salePrice)
       ∧ (∀ other salePrice, other ≠ tokenId →
            royaltyInfo s' other salePrice = royaltyInfo s other salePrice)
       ∧ (∀ other, _ownerOf s' other = _ownerOf s other)
       ∧ _creators s' = _creators s
       ∧ totalSupply s' = totalSupply s).
Proof.
  intros authorized. unfold exists_, setTokenRoyalty. fold authorized.
  assert (Hfits : bps ≤ 1000 → rcv ≠ 0 →
            _setTokenRoyalty (_tokenRoyaltyInfo s) tokenId rcv bps
            = Ok (<[tokenId := {| receiver := rcv; royaltyFraction := bps |}]>
                    (_tokenRoyaltyInfo s))).
  { intros Hb Hr. unfold _setTokenRoyalty, _feeDenominator.
    assert ((bps <=? 10000) = true) as -> by (apply N.leb_le; lia).
    by apply N.eqb_neq in Hr as ->. }
  split; [by intros ->|]. split; [by intros -> ->|].
  split; [intros -> -> Hb; by apply N.leb_gt in Hb as ->|].
  split.
  { intros -> -> Hb ->. apply N.leb_le in Hb as Hb'. rewrite Hb'. cbn.
    unfold _setTokenRoyalty, _feeDenominator.
    by assert ((bps <=? 10000) = true) as -> by (apply N.leb_le; lia). }
  split.
  - split.
    + intros Hok.
      destruct (negb (_ownerOf s tokenId =? 0)); [|done].
      destruct authorized; [|done]. cbn in Hok.
      destruct (N.leb_spec bps 1000) as [Hb|Hb]; [|done]. cbn in Hok.
      split; [done|]. split; [done|]. split; [done|]. intros ->.
      unfold _setTokenRoyalty, _feeDenominator in Hok.
      by assert ((bps <=? 10000) = true) as Hle by (apply N.leb_le; lia);
        rewrite Hle in Hok.
    + intros (-> & -> & Hb & Hr). rewrite (Hfits Hb Hr).
      by apply N.leb_le in Hb as ->.
  - intros s' Hs.
    change (setTokenRoyalty s sender tokenId rcv bps = Ok s') in Hs.
    apply setTokenRoyalty_ok in Hs as (_ & Hr & Hb & _ & ->).
    split; [|split; [|done]].
    + intros P HP. unfold royaltyInfo, ERC2981.royaltyInfo. cbn [_tokenRoyaltyInfo set_royalties].
      rewrite get_insert_eq. cbv beta iota delta [receiver royaltyFraction].
      apply N.eqb_neq in Hr as ->. unfold checked_mul, _feeDenominator.
      apply N.leb_le in HP as ->. split; [done|].
      assert (salePrice_bound : P * bps ≤ P * 1000) by (by apply N.mul_le_mono_l).
      pose proof (N.Div0.div_le_mono _ _ 10000 salePrice_bound). lia.
    + intros other P Hne. unfold royaltyInfo, ERC2981.royaltyInfo.
      cbn [_tokenRoyaltyInfo set_royalties]. by rewrite get_insert_ne.
Qed.

(** X15: the royalty of a token changes in one way only.  If a
    transaction changes the royalty entry of a token that exists, the
    sender is the creator of the token or an administrator, the new rate is
    at most 1000 basis points and the new receiver is not the null address.
    Transfers, approvals, role changes, a new default rate and the minting
    of other tokens leave the entry alone; so does burning the token: its
    royalty is still reported afterwards. *)
Theorem royalty_changes_only_through_creator_or_admin
    (s s' : State) (sender : address) (c : call) (tokenId : N) :
  exec acceptance s sender c = Ok s' →
  exists_ s tokenId = true →
  let entry := get no_royalty (_tokenRoyaltyInfo s) tokenId in
  let entry' := get no_royalty (_tokenRoyaltyInfo s') tokenId in
  (entry' ≠ entry →
   (get 0 (_creators s) tokenId = sender
    ∨ hasRole (_roles s) DEFAULT_ADMIN_ROLE sender = true)
   ∧ royaltyFraction entry' ≤ 1000 ∧ receiver entry' ≠ 0)
  ∧ (exists_ s' tokenId = false → entry' = entry).
Proof.
  intros He Hex entry entry'. subst entry entry'.
  assert (Hown : _ownerOf s tokenId ≠ 0).
  { unfold exists_ in Hex. by apply negb_true_iff, N.eqb_neq in Hex. }
  apply exec_change in He.
  destruct He as [to cr uri Hrole Hto Hcr Hfree Hfit Hbps | to id Hauth
                 | id rcv bps Hid Hrcv Hb Hau | bps | to id Ho | op b Hne
                 | roles]; try done.
  - assert (Hne : _nextTokenId s ≠ tokenId) by (intros <-; done).
    assert (Hsame : get no_royalty (_tokenRoyaltyInfo (minted s to cr uri)) tokenId
                    = get no_royalty (_tokenRoyaltyInfo s) tokenId).
    { unfold minted, moved. cbn. destruct (to =? 0); cbn;
        by rewrite get_insert_ne. }
    by rewrite Hsame.
  - by destruct (moved_frame s (_ownerOf s id) to id) as (_ & _ & _ & _ & _ & -> & _).
  - cbn [_tokenRoyaltyInfo set_royalties].
    destruct (decide (id = tokenId)) as [->|Hne].
    + rewrite get_insert_eq. split; [done|].
      intros Hgone. unfold exists_, _ownerOf in Hgone. cbn in Hgone.
      apply negb_false_iff, N.eqb_eq in Hgone. done.
    + by rewrite get_insert_ne.
Qed.

(** X16: only the owner of a token, an address approved for it or an
    operator of the owner can give the token another owner or burn it: if
    a transaction of a real account changes the owner of a token that
    exists, the sender was authorized for that token in the state before;
    and the approval for the token is cleared by the change. *)
Theorem only_authorized_accounts_move_tokens
    (s s' : State) (sender : address) (c : call) (tokenId : N) :
  exec acceptance s sender c = Ok s' →
  sender ≠ 0 →
  exists_ s tokenId = true →
  _ownerOf s' tokenId ≠ _ownerOf s tokenId →
  _isAuthorized s (_ownerOf s tokenId) sender tokenId = true
  ∧ _getApproved s' tokenId = 0
  ∧ match c with
    | TransferFrom _ _ _ | SafeTransferFrom _ _ _ | Burn _ => True
    | _ => False
    end.
Proof.
  intros He Hs Hex Hmoved.
  assert (Hown : _ownerOf s tokenId ≠ 0).
  { unfold exists_ in Hex. by apply negb_true_iff, N.eqb_neq in Hex. }
  assert (Hmv : ∀ from to id,
            (sender ≠ 0 → _isAuthorized s from sender id = true) →
            from = _ownerOf s id →
            _ownerOf (moved s from to id) tokenId ≠ _ownerOf s tokenId →
            _isAuthorized s (_ownerOf s tokenId) sender tokenId = true
            ∧ _getApproved (moved s from to id) tokenId = 0).
  { intros from to id Hauth -> Hm. rewrite moved_owner in Hm.
    case_decide as Hd; [subst id|done]. split; [by apply Hauth|].
    rewrite moved_approved. by rewrite decide_True. }
  destruct c; cbn [exec] in He.
  - apply fmap_ok in He as ([s1 id] & Hm & ->).
    apply mint_ok in Hm as (_ & _ & Hfree & _ & _ & _ & _ & ->).
    cbn in Hmoved. rewrite minted_owner in Hmoved.
    case_decide; [subst|]; done.
  - apply fmap_ok in He as ([s1 id] & Hm & ->).
    apply mintFor_ok in Hm as (_ & _ & _ & Hfree & _ & _ & _ & _ & ->).
    cbn in Hmoved. rewrite minted_owner in Hmoved.
    case_decide; [subst|]; done.
  - by apply setTokenRoyalty_ok in He as (_ & _ & _ & _ & ->).
  - unfold setDefaultRoyalty in He. bind_inv He u Hrole. require_inv He Hbps.
    by injection He as <-.
  - unfold approve in He. bind_inv He owner Ho. require_inv He Hok.
    by injection He as <-.
  - unfold setApprovalForAll in He. require_inv He Hop. by injection He as <-.
  - apply transferFrom_ok in He as (_ & Hfrom & Hauth & ->).
    destruct (Hmv from to tokenId0 Hauth (eq_sym Hfrom) Hmoved); done.
  - apply safeTransferFrom_ok in He as (_ & Hfrom & Hauth & _ & ->).
    destruct (Hmv from to tokenId0 Hauth (eq_sym Hfrom) Hmoved); done.
  - apply burn_ok in He as (Hauth & ->).
    destruct (Hmv _ 0 tokenId0 Hauth eq_refl Hmoved); done.
  - by apply fmap_ok in He as (r & _ & ->).
  - by apply fmap_ok in He as (r & _ & ->).
  - by apply fmap_ok in He as (r & _ & ->).
Qed.

(** *** The royalty rates *)

Lemma exec_default s sender c s' :
  exec acceptance s sender c = Ok s' →
  defaultRoyaltyBps s' = defaultRoyaltyBps s
  ∨ (∃ b, c = SetDefaultRoyalty b ∧ defaultRoyaltyBps s' = b ∧ b ≤ 1000).
Proof.
  destruct c; cbn [exec]; intros He.
  - apply fmap_ok in He as ([s1 id] & Hm & ->).
    apply mint_ok in Hm as (_ & _ & _ & _ & _ & _ & _ & ->).
    left. unfold minted, moved. cbn. by destruct (to =? 0).
  - apply fmap_ok in He as ([s1 id] & Hm & ->).
    apply mintFor_ok in Hm as (_ & _ & _ & _ & _ & _ & _ & _ & ->).
    left. unfold minted, moved. cbn. by destruct (to =? 0).
  - apply setTokenRoyalty_ok in He as (_ & _ & _ & _ & ->). by left.
  - unfold setDefaultRoyalty in He. bind_inv He u Hrole. require_inv He Hbps.
    apply N.leb_le in Hbps. injection He as <-. right. by eexists.
  - unfold approve in He. bind_inv He owner Hown. require_inv He Hok.
    injection He as <-. by left.
  - unfold setApprovalForAll in He. require_inv He Hop. injection He as <-.
    by left.
  - apply transferFrom_ok in He as (_ & _ & _ & ->). left.
    by destruct (moved_frame s from to tokenId) as (_ & _ & -> & _).
  - apply safeTransferFrom_ok in He as (_ & _ & _ & _ & ->). left.
    by destruct (moved_frame s from to tokenId) as (_ & _ & -> & _).
  - apply burn_ok in He as (_ & ->). left.
    by destruct (moved_frame s (_ownerOf s tokenId) 0 tokenId) as (_ & _ & -> & _).
  - apply fmap_ok in He as (r & _ & ->). by left.
  - apply fmap_ok in He as (r & _ & ->). by left.
  - apply fmap_ok in He as (r & _ & ->). by left.
Qed.

Lemma mint_needs_a_valid_default s sender c s' :
  exec acceptance s sender c = Ok s' → is_mint c = true →
  defaultRoyaltyBps s ≤ 10000.
Proof.
  destruct c; cbn [exec is_mint]; intros He Hm; try discriminate.
  - apply fmap_ok in He as ([s1 id] & Hmint & ->).
    by apply mint_ok in Hmint as (_ & _ & _ & _ & _ & ? & _).
  - apply fmap_ok in He as ([s1 id] & Hmint & ->).
    by apply mintFor_ok in Hmint as (_ & _ & _ & _ & _ & _ & ? & _).
Qed.

Lemma rates_change s sender s' cap :
  change s sender s' → 1000 ≤ cap →
  defaultRoyaltyBps s ≤ cap
  ∧ (∀ id, royaltyFraction (get no_royalty (_tokenRoyaltyInfo s) id) ≤ cap) →
  defaultRoyaltyBps s' ≤ cap
  ∧ (∀ id, royaltyFraction (get no_royalty (_tokenRoyaltyInfo s') id) ≤ cap).
Proof.
  intros Hc Hcap [Hd Hr].
  destruct Hc as [to cr uri Hrole Hto Hcr Hfree Hfit Hbps | to id Hauth
                 | id rcv bps Hid Hrcv Hb Hau | bps Hrole Hb | to id Ho
                 | op b Hne | roles]; try done.
  - split.
    + unfold minted, moved. cbn. by destruct (to =? 0).
    + intros id. destruct (decide (_nextTokenId s = id)) as [<-|Hne].
      * by destruct (minted_views s to cr uri) as (_ & _ & -> & _).
      * assert (get no_royalty (_tokenRoyaltyInfo (minted s to cr uri)) id
                = get no_royalty (_tokenRoyaltyInfo s) id) as ->; [|done].
        unfold minted, moved. cbn. destruct (to =? 0); cbn;
          by rewrite get_insert_ne.
  - by destruct (moved_frame s (_ownerOf s id) to id)
      as (_ & _ & -> & _ & _ & -> & _).
  - split; [done|]. intros id'. cbn [_tokenRoyaltyInfo set_royalties].
    destruct (decide (id = id')) as [<-|Hne].
    + rewrite get_insert_eq. cbn. lia.
    + by rewrite get_insert_ne.
  - split; [cbn; lia|done].
Qed.

(** X17: the royalty rates stay within the larger of 1000 basis points and
    the default rate the ledger was deployed with.  In every state
    reachable from the deployment, the default rate and the rate of every
    token are at most that bound; so for a ledger deployed with a default
    of at most 1000, every royalty royaltyInfo reports is at most a tenth
    of the sale price. *)
Theorem royalty_rates_stay_within_the_deployed_bound
    (deployer bps : N) (txs : list (address * call)) :
  let s := run acceptance (constructor deployer bps) txs in
  let cap := N.max 1000 (defaultRoyaltyBps (constructor deployer bps)) in
  defaultRoyaltyBps s ≤ cap
  ∧ (∀ tokenId,
       royaltyFraction (get no_royalty (_tokenRoyaltyInfo s) tokenId) ≤ cap)
  ∧ (bps ≤ 1000 → ∀ tokenId salePrice rcv royaltyAmount,
       royaltyInfo s tokenId salePrice = Ok (rcv, royaltyAmount) →
       10 * royaltyAmount ≤ salePrice).
Proof.
  cbv zeta. set (cap := N.max 1000 _).
  assert (Hinv : defaultRoyaltyBps (run acceptance (constructor deployer bps) txs)
                 ≤ cap
                 ∧ ∀ id, royaltyFraction
                           (get no_royalty
                              (_tokenRoyaltyInfo
                                 (run acceptance (constructor deployer bps) txs))
                              id) ≤ cap).
  { induction txs as [|tx txs IH] using rev_ind.
    - split; [subst cap; cbn [run fold_left]; lia|].
      intros id. unfold get. cbn. rewrite lookup_empty. cbn. lia.
    - rewrite ledger_run_snoc.
      destruct (step_change acceptance
                  (run acceptance (constructor deployer bps) txs) tx)
        as [->|Hc]; [done|].
      eapply rates_change; [exact Hc | subst cap; lia | exact IH]. }
  destruct Hinv as [Hd Hr]. split; [done|]. split; [done|].
  intros Hbps id P rcv amt Hinfo.
  assert (Hcap : cap = 1000).
  { subst cap. cbn. destruct (0 <? bps); lia. }
  specialize (Hr id). rewrite Hcap in Hr.
  unfold royaltyInfo, ERC2981.royaltyInfo in Hinfo. cbv zeta in Hinfo.
  destruct (receiver (get no_royalty _ id) =? 0).
  - cbn in Hinfo. unfold checked_mul in Hinfo. rewrite N.mul_0_r in Hinfo.
    cbn in Hinfo. injection Hinfo as _ <-. cbn. lia.
  - bind_inv Hinfo p Hp. unfold checked_mul in Hp.
    destruct (_ <=? MAX_UINT256); [|done]. injection Hp as <-.
    injection Hinfo as _ <-. unfold _feeDenominator.
    set (f := royaltyFraction _) in *.
    assert (Hle : P * f ≤ P * 1000) by (by apply N.mul_le_mono_l).
    pose proof (N.Div0.div_le_mono _ _ 10000 Hle). lia.
Qed.

(** X18: the constructor stores the default royalty rate it is given
    without checking it.  On a ledger deployed with a default above 10000
    basis points no token can be minted: the royalty registry refuses the
    rate, so mint and mintFor revert for every caller and every argument,
    and totalSupply() stays 0, until an administrator replaces the rate
    with setDefaultRoyalty. *)
Theorem unchecked_default_royalty_blocks_minting
    (deployer bps : N) (txs : list (address * call)) :
  10000 < bps →
  Forall (λ tx, ∀ b, tx.2 ≠ SetDefaultRoyalty b) txs →
  let s := run acceptance (constructor deployer bps) txs in
  defaultRoyaltyBps s = bps
  ∧ totalSupply s = 0
  ∧ ∀ sender to creator uri,
      is_ok (mint acceptance s sender to uri) = false
      ∧ is_ok (mintFor acceptance s sender to creator uri) = false.
Proof.
  intros Hbps Hno. cbv zeta.
  assert (Hinv : defaultRoyaltyBps (run acceptance (constructor deployer bps) txs)
                 = bps
                 ∧ _nextTokenId (run acceptance (constructor deployer bps) txs)
                   = 0).
  { induction txs as [|tx txs IH] using rev_ind.
    - cbn. by assert ((0 <? bps) = true) as -> by (apply N.ltb_lt; lia).
    - apply Forall_app in Hno as [Hno Htx]. apply Forall_inv in Htx.
      specialize (IH Hno) as [Hd Hn]. rewrite ledger_run_snoc. unfold step.
      destruct (exec acceptance _ tx.1 tx.2) as [s1|] eqn:He; [|done].
      pose proof (exec_token_counter _ _ _ _ He) as Hcount.
      destruct (exec_default _ _ _ _ He) as [Hsame|(b & Hc & _)];
        [|by apply Htx in Hc].
      split; [congruence|]. rewrite Hcount, Hn.
      destruct (is_mint tx.2) eqn:Hm; [|done].
      pose proof (mint_needs_a_valid_default _ _ _ _ He Hm). lia. }
  destruct Hinv as [Hd Hn]. split; [done|]. split; [done|].
  intros sender to creator uri. split.
  - destruct (mint acceptance _ sender to uri) as [[s1 id]|] eqn:Hm; [|done].
    apply mint_ok in Hm as (_ & _ & _ & _ & _ & ? & _). lia.
  - destruct (mintFor acceptance _ sender to creator uri) as [[s1 id]|] eqn:Hm;
      [|done].
    apply mintFor_ok in Hm as (_ & _ & _ & _ & _ & _ & ? & _). lia.
Qed.

End Runs.
End NFTFacts.

(** ** The type records of the multi-edition ledger *)
Module NFTMultiEditionTypes.
Import AccessControl ERC2981 NFTMultiEdition NFTMultiEditionFacts.

Section Ledger.
Variable acceptance : address → address → address → list N → list N → bool.

(** What one transaction does to the type records: nothing, a new record
    with a creator at the next identifier, or more minted units in the
    record of an existing type. *)
Lemma exec_types s sender c s' :
  exec acceptance s sender c = Ok s' →
  (_nextTokenTypeId s' = _nextTokenTypeId s ∧ _tokenTypes s' = _tokenTypes s)
  ∨ (∃ t, creator t ≠ 0
          ∧ _nextTokenTypeId s' = _nextTokenTypeId s + 1
          ∧ _tokenTypes s' = <[_nextTokenTypeId s := t]> (_tokenTypes s))
  ∨ (∃ id amount, creator (tokenType s id) ≠ 0
          ∧ _nextTokenTypeId s' = _nextTokenTypeId s
          ∧ _tokenTypes s'
            = <[id := minted_type (tokenType s id) amount]> (_tokenTypes s)).
Proof.
  destruct c; cbn [exec]; intros He.
  - apply fmap_ok in He as ([s1 id] & Hc & ->).
    apply createEdition_ok in Hc as (_ & Hcr & _ & -> & _ & ->).
    right; left. eexists; split; [|split; reflexivity]; done.
  - apply mintEdition_ok in He as (_ & _ & Hex & _ & _ & ->).
    right; right. by exists tokenTypeId, amount.
  - apply fmap_ok in He as ([s1 id] & Hc & ->).
    apply createAndMint_ok in Hc as (_ & _ & _ & Hcr & _ & -> & _ & ->).
    right; left. eexists; split; [|split; reflexivity]; done.
  - unfold setTokenRoyalty in He. require_inv He H1. require_inv He H2.
    require_inv He H3. bind_inv He r Hr. injection He as <-. by left.
  - unfold setApprovalForAll in He. require_inv He H1. injection He as <-.
    by left.
  - unfold safeTransferFrom, safeBatchTransferFrom in He.
    require_inv He H1. require_inv He H2. require_inv He H3.
    apply _updateWithAcceptanceCheck_ok in He as (b & t & a & ->). by left.
  - unfold safeBatchTransferFrom in He.
    require_inv He H1. require_inv He H2. require_inv He H3.
    apply _updateWithAcceptanceCheck_ok in He as (b & t & a & ->). by left.
  - unfold burn, burnBatch, _burnBatch in He.
    require_inv He H1. require_inv He H2.
    apply _updateWithAcceptanceCheck_ok in He as (b & t & a & ->). by left.
  - unfold burnBatch, _burnBatch in He.
    require_inv He H1. require_inv He H2.
    apply _updateWithAcceptanceCheck_ok in He as (b & t & a & ->). by left.
  - apply fmap_ok in He as (r & _ & ->). by left.
  - apply fmap_ok in He as (r & _ & ->). by left.
  - apply fmap_ok in He as (r & _ & ->). by left.
Qed.

Lemma types_run_cons s tx txs :
  run acceptance s (tx :: txs) = run acceptance (step acceptance s tx) txs.
Proof. done. Qed.

(** The records below the counter have a creator, those at or above it
    are empty; one transaction keeps it so, and keeps the creator, the URI
    and the maximum of every record it finds. *)
Lemma exec_types_known s sender c s' :
  exec acceptance s sender c = Ok s' →
  (∀ id, creator (tokenType s id) ≠ 0 ↔ id < _nextTokenTypeId s) →
  (∀ id, creator (tokenType s' id) ≠ 0 ↔ id < _nextTokenTypeId s')
  ∧ _nextTokenTypeId s ≤ _nextTokenTypeId s'
  ∧ ∀ id, id < _nextTokenTypeId s →
      creator (tokenType s' id) = creator (tokenType s id)
      ∧ uri (tokenType s' id) = uri (tokenType s id)
      ∧ maxSupply (tokenType s' id) = maxSupply (tokenType s id)
      ∧ mintedSupply (tokenType s id) ≤ mintedSupply (tokenType s' id).
Proof.
  intros He Hk.
  destruct (exec_types _ _ _ _ He)
    as [[Hn Ht] | [(t & Hcr & Hn & Ht) | (id0 & a & Hex & Hn & Ht)]];
    unfold tokenType in *; rewrite Hn, Ht.
  - split; [done|]. split; [lia|]. intros id Hid. repeat split; lia.
  - split; [|split; [lia|]].
    + intros id. destruct (decide (_nextTokenTypeId s = id)) as [<-|Hne].
      * rewrite get_insert_eq. split; [lia|done].
      * rewrite get_insert_ne by done. rewrite Hk. lia.
    + intros id Hid. rewrite get_insert_ne by lia. repeat split; lia.
  - split; [|split; [lia|]].
    + intros id. destruct (decide (id0 = id)) as [<-|Hne].
      * rewrite get_insert_eq. cbn. by rewrite <- Hk.
      * by rewrite get_insert_ne.
    + intros id Hid. destruct (decide (id0 = id)) as [<-|Hne].
      * rewrite get_insert_eq. cbn. repeat split; lia.
      * rewrite get_insert_ne by done. repeat split; lia.
Qed.

Lemma run_types_known s txs :
  (∀ id, creator (tokenType s id) ≠ 0 ↔ id < _nextTokenTypeId s) →
  (∀ id, creator (tokenType (run acceptance s txs) id) ≠ 0
         ↔ id < _nextTokenTypeId (run acceptance s txs))
  ∧ _nextTokenTypeId s ≤ _nextTokenTypeId (run acceptance s txs)
  ∧ ∀ id, id < _nextTokenTypeId s →
      creator (tokenType (run acceptance s txs) id) = creator (tokenType s id)
      ∧ uri (tokenType (run acceptance s txs) id) = uri (tokenType s id)
      ∧ maxSupply (tokenType (run acceptance s txs) id)
        = maxSupply (tokenType s id)
      ∧ mintedSupply (tokenType s id)
        ≤ mintedSupply (tokenType (run acceptance s txs) id).
Proof.
  revert s. induction txs as [|tx txs IH]; intros s Hk.
  - split; [done|]. split; [cbn; lia|]. intros id _. cbn. repeat split; lia.
  - rewrite types_run_cons. unfold step.
    destruct (exec acceptance s tx.1 tx.2) as [s1|] eqn:He; [|by apply IH].
    destruct (exec_types_known _ _ _ _ He Hk) as (Hk1 & Hn1 & Hsame1).
    destruct (IH s1 Hk1) as (Hk2 & Hn2 & Hsame2).
    split; [done|]. split; [lia|]. intros id Hid.
    destruct (Hsame1 id Hid) as (<- & <- & <- & Hm1).
    destruct (Hsame2 id ltac:(lia)) as (-> & -> & -> & Hm2).
    repeat split; lia.
Qed.

(** X19: the token types are the identifiers below totalTokenTypes().  In
    every state the ledger can reach from its deployment a type exists
    exactly when its id is below the counter, and getTokenType, creatorOf
    and uri answer for exactly these ids and revert for the others.  The
    record of a type is permanent: whatever is called afterwards, its
    creator, URI and maximum supply stay as they were created, its minted
    supply never decreases -- burning units does not make room for new
    ones -- and the type keeps existing. *)
Theorem token_types_are_permanent
    (deployer bps : N) (txs more : list (address * call)) (id : N) :
  let s := run acceptance (constructor deployer bps) txs in
  let s' := run acceptance s more in
  (tokenTypeExists s id = true ↔ id < totalTokenTypes s)
  ∧ (id < totalTokenTypes s →
     getTokenType s id = Ok (tokenType s id)
     ∧ creatorOf s id = Ok (creator (tokenType s id))
     ∧ uri_ s id = Ok (uri (tokenType s id)))
  ∧ (totalTokenTypes s ≤ id →
     getTokenType s id = Err TypeNotFound
     ∧ creatorOf s id = Err TypeNotFound
     ∧ uri_ s id = Err TypeNotFound)
  ∧ (tokenTypeExists s id = true →
     tokenTypeExists s' id = true
     ∧ creator (tokenType s' id) = creator (tokenType s id)
     ∧ uri (tokenType s' id) = uri (tokenType s id)
     ∧ maxSupply (tokenType s' id) = maxSupply (tokenType s id)
     ∧ mintedSupply (tokenType s id) ≤ mintedSupply (tokenType s' id))
  ∧ totalTokenTypes s ≤ totalTokenTypes s'.
Proof.
  intros s s'.
  assert (H0 : ∀ id, creator (tokenType (constructor deployer bps) id) ≠ 0
                     ↔ id < _nextTokenTypeId (constructor deployer bps)).
  { intros id0. unfold tokenType, get. cbn. rewrite lookup_empty. cbn. lia. }
  destruct (run_types_known (constructor deployer bps) txs H0) as (Hk & _ & _).
  fold s in Hk.
  destruct (run_types_known s more Hk) as (Hk' & Hn' & Hsame'). fold s' in Hk', Hn', Hsame'.
  assert (Hex : ∀ x, tokenTypeExists x id = true ↔ creator (tokenType x id) ≠ 0).
  { intros x. unfold tokenTypeExists. rewrite negb_true_iff, N.eqb_neq. done. }
  unfold totalTokenTypes.
  split; [by rewrite Hex, Hk|]. split; [|split; [|split; [|done]]].
  - intros Hid. apply Hk, N.eqb_neq in Hid.
    unfold getTokenType, creatorOf, uri_. by rewrite Hid.
  - intros Hid.
    assert (Hnone : creator (tokenType s id) = 0).
    { destruct (N.eq_dec (creator (tokenType s id)) 0) as [|Hne]; [done|].
      apply Hk in Hne. lia. }
    unfold getTokenType, creatorOf, uri_. by rewrite Hnone.
  - intros Hid. apply Hex, Hk in Hid.
    destruct (Hsame' id Hid) as (Hc & Hu & Hm & Hms).
    split; [|done]. apply Hex, Hk'. lia.
Qed.

(** X20: createEdition checks, in this order, that the caller holds the
    minter role, that the creator is not the null address and that the URI
    is not empty; it succeeds exactly when these hold, the type counter fits
    256 bits and the default royalty rate is at most 10000 basis points.  A
    successful call returns the old value of totalTokenTypes() as the new
    id, stores the record with no unit minted -- a maximum of 0 is stored
    as it is and means unbounded --, registers the default royalty for the
    creator, and mints nothing: balances and supplies are as before. *)
Theorem createEdition_checks
    (s : State) (sender cr : address) (u : string) (m : N) :
  (hasRole (_roles s) MINTER_ROLE sender = false →
   createEdition s sender cr u m = Err AccessControlUnauthorizedAccount)
  ∧ (hasRole (_roles s) MINTER_ROLE sender = true → cr = 0 →
     createEdition s sender cr u m = Err InvalidCreator)
  ∧ (hasRole (_roles s) MINTER_ROLE sender = true → cr ≠ 0 → u = EmptyString →
     createEdition s sender cr u m = Err InvalidURI)
  ∧ (is_ok (createEdition s sender cr u m) = true
     ↔ hasRole (_roles s) MINTER_ROLE sender = true ∧ cr ≠ 0 ∧ u ≠ EmptyString
       ∧ totalTokenTypes s + 1 ≤ MAX_UINT256
       ∧ defaultRoyaltyBps s ≤ 10000)
  ∧ (∀ s' id, createEdition s sender cr u m = Ok (s', id) →
       id = totalTokenTypes s
       ∧ totalTokenTypes s' = totalTokenTypes s + 1
       ∧ getTokenType s' id
         = Ok {| creator := cr; uri := u; maxSupply := m; mintedSupply := 0 |}
       ∧ (∀ salePrice, salePrice * defaultRoyaltyBps s ≤ MAX_UINT256 →
            royaltyInfo s' id salePrice
            = Ok (cr, salePrice * defaultRoyaltyBps s / 10000))
       ∧ (∀ other, other ≠ id → tokenType s' other = tokenType s other)
       ∧ (∀ account tokenTypeId,
            balanceOf s' account tokenTypeId = balanceOf s account tokenTypeId)
       ∧ (∀ tokenTypeId, totalSupply s' tokenTypeId = totalSupply s tokenTypeId)).
Proof.
  unfold totalTokenTypes.
  assert (Huri : u ≠ EmptyString → (0 <? N.of_nat (String.length u)) = true).
  { intros Hu. apply N.ltb_lt. destruct u; [done | cbn; lia]. }
  split; [|split; [|split; [|split]]].
  - intros Hrole. unfold createEdition, onlyRole. by rewrite Hrole.
  - intros Hrole ->. unfold createEdition. by rewrite onlyRole_granted.
  - intros Hrole Hcr ->. unfold createEdition. rewrite onlyRole_granted by done.
    by apply N.eqb_neq in Hcr as ->.
  - split.
    + intros Hok.
      destruct (createEdition s sender cr u m) as [[s' id]|] eqn:Hc; [|done].
      pose proof Hc as Hc'.
      apply createEdition_ok in Hc as (? & ? & ? & -> & ? & _).
      unfold createEdition in Hc'. bind_inv Hc' u0 Hr0. require_inv Hc' Hq1.
      require_inv Hc' Hq2. bind_inv Hc' next Hnext. bind_inv Hc' r Hr.
      apply _setTokenRoyalty_ok in Hr as (Hb & _). done.
    + intros (Hrole & Hcr & Hu & Hfit & Hb). unfold createEdition.
      rewrite onlyRole_granted by done.
      apply N.eqb_neq in Hcr as Hcr'. rewrite Hcr', (Huri Hu).
      rewrite checked_add_fits by done.
      cbn [mbind result_bind negb require]. unfold _setTokenRoyalty, _feeDenominator.
      cbn [defaultRoyaltyBps set_types].
      apply N.leb_le in Hb as ->. by rewrite Hcr'.
  - intros s' id Hc. apply createEdition_ok in Hc as (_ & Hcr & _ & -> & _ & ->).
    apply N.eqb_neq in Hcr as Hcr'.
    split; [done|]. split; [done|]. split.
    { unfold getTokenType, tokenType. cbn [_tokenTypes set_royalties set_types].
      rewrite get_insert_eq. cbn [creator]. by rewrite Hcr'. }
    split.
    { intros P HP. unfold royaltyInfo, ERC2981.royaltyInfo.
      cbn [_tokenRoyaltyInfo set_royalties]. rewrite get_insert_eq.
      cbv beta iota delta [receiver royaltyFraction]. rewrite Hcr'.
      unfold checked_mul. by apply N.leb_le in HP as ->. }
    split; [|done].
    intros other Hne. unfold tokenType. cbn [_tokenTypes set_royalties set_types].
    by rewrite get_insert_ne.
Qed.

(** X23: createAndMint never looks at the URI, and leaves the check of
    the creator to the royalty registry.  Whether it succeeds does not
    depend on the URI it is given; with the empty URI, which createEdition
    refuses, a successful call creates a type that exists and whose uri()
    is empty.  With the null creator it fails: inside the registry, with
    ERC2981InvalidTokenRoyaltyReceiver, when its own checks pass and the
    default rate is valid. *)
Theorem createAndMint_does_not_check_the_uri
    (s : State) (sender to cr : address) (u : string) (m amount : N) :
  is_ok (createAndMint acceptance s sender to cr u m amount)
  = is_ok (createAndMint acceptance s sender to cr EmptyString m amount)
  ∧ (∀ s' id,
       createAndMint acceptance s sender to cr EmptyString m amount
       = Ok (s', id) →
       tokenTypeExists s' id = true
       ∧ uri_ s' id = Ok EmptyString
       ∧ mintedSupply (tokenType s' id) = amount
       ∧ createEdition s sender cr EmptyString m = Err InvalidURI)
  ∧ (hasRole (_roles s) MINTER_ROLE sender = true → 0 < amount →
     m = 0 ∨ amount ≤ m → totalTokenTypes s + 1 ≤ MAX_UINT256 →
     defaultRoyaltyBps s ≤ 10000 →
     createAndMint acceptance s sender to 0 u m amount
     = Err (CustomError "ERC2981InvalidTokenRoyaltyReceiver")).
Proof.
  split; [|split].
  - unfold createAndMint.
    destruct (onlyRole (_roles s) MINTER_ROLE sender) as [[]|]; [|done].
    destruct (require (0 <? amount) _) as [[]|]; [|done].
    destruct (require ((m =? 0) || (amount <=? m)) _) as [[]|]; [|done].
    destruct (checked_add (_nextTokenTypeId s) 1) as [next|]; [|done].
    cbn [mbind result_bind _tokenRoyaltyInfo defaultRoyaltyBps set_types].
    destruct (_setTokenRoyalty (_tokenRoyaltyInfo s) (_nextTokenTypeId s) cr
                (defaultRoyaltyBps s)) as [r|]; [|done].
    cbn [mbind result_bind]. rewrite !_mint_eq.
    unfold balanceOf, totalSupply.
    cbn [_balances _totalSupply _totalSupplyAll set_royalties set_types].
    destruct (ensure (negb (to =? 0)) _) as [[]|]; [|done].
    cbn [mbind result_bind].
    destruct (checked_add (get 0 (_balances s) (_nextTokenTypeId s, to)) amount);
      [|done].
    cbn [mbind result_bind].
    destruct (checked_add (get 0 (_totalSupply s) (_nextTokenTypeId s)) amount);
      [|done].
    cbn [mbind result_bind].
    destruct (checked_add 0 amount) as [v|]; [|done]. cbn [mbind result_bind].
    destruct (checked_add (_totalSupplyAll s) v); [|done].
    cbn [mbind result_bind].
    by destruct (ensure (acceptance sender 0 to [_nextTokenTypeId s] [amount]) _)
      as [[]|].
  - intros s' id Hc.
    apply createAndMint_ok in Hc as (Hrole & _ & _ & Hcr & _ & -> & _ & ->).
    apply N.eqb_neq in Hcr as Hcr'.
    unfold tokenTypeExists, uri_, tokenType.
    cbn [_tokenTypes set_ledger set_royalties set_types].
    rewrite !get_insert_eq. cbn [creator uri mintedSupply]. rewrite Hcr'.
    split; [done|]. split; [done|]. split; [done|].
    unfold createEdition. rewrite onlyRole_granted by done. by rewrite Hcr'.
  - intros Hrole Hamt Hmax Hfit Hbps. unfold createAndMint, totalTokenTypes in *.
    rewrite onlyRole_granted by done.
    apply N.ltb_lt in Hamt as ->.
    assert ((m =? 0) || (amount <=? m) = true) as ->.
    { apply orb_true_iff. destruct Hmax as [?%N.eqb_eq|?%N.leb_le]; auto. }
    rewrite checked_add_fits by done.
    cbn [mbind result_bind require defaultRoyaltyBps set_types].
    unfold _setTokenRoyalty, _feeDenominator.
    by apply N.leb_le in Hbps as ->.
Qed.

End Ledger.
End NFTMultiEditionTypes.

(** ** The marketplace on the two token contracts of the repository *)
Module DeploymentFacts.
Import Marketplace Deployment MarketplaceFacts MarketplaceSpec.

Section Deployed.
Variables nftAddress editionsAddress : address.
Variable accept721 : address → address → address → N → bool.
Variable accept1155 : address → address → address → list N → list N → bool.
Variable this : address.
Variable payable : address → bool.




End Deployed.
End DeploymentFacts.

(** ** The marketplace on the concrete chain, continued *)
Module MarketplaceSpecExamples.
Import Marketplace Deployment MarketplaceFacts MarketplaceSpec.

Lemma seller_index_is_the_sellers_listings_witness :
  constructor deployer feeAccount = Ok market0
  ∧ StronglySorted N.lt (getSellerListings (market sold) alice)
  ∧ (0 ∈ getSellerListings (market sold) alice
     ↔ 0 < totalListings (market sold)
       ∧ seller (getListing (market sold) 0) = alice).
Proof.
  destruct (seller_index_is_the_sellers_listings (T:=Chain) marketAt everyone
              deployer feeAccount market0 (tokens genesis) (balances genesis)
              (listing_events ++ [call_at bob ether (Buy 0)]) alice eq_refl)
    as [Hsorted Hin].
  split; [reflexivity|]. split; [exact Hsorted | exact (Hin 0)].
Defined.

Lemma only_the_owner_changes_the_configuration_witness :
  let e := call_at deployer 0 Pause in
  config (market (step marketAt everyone listed e)) ≠ config (market listed)
  ∧ ∃ x, e = Tx x
         ∧ tx_sender x = _owner (market listed)
         ∧ is_ok (exec marketAt everyone listed x) = true.
Proof.
  cbv zeta.
  assert (Hne : config (market (step marketAt everyone listed
                                  (call_at deployer 0 Pause)))
                ≠ config (market listed)) by by_compute.
  split; [exact Hne|].
  destruct (only_the_owner_changes_the_configuration (T:=Chain) marketAt
              everyone listed (call_at deployer 0 Pause) Hne)
    as (x & He & Hs & Hok & _).
  exists x. split; [exact He|]. split; [exact Hs | exact Hok].
Defined.

Lemma renounced_ownership_freezes_the_configuration_witness :
  let w := run marketAt everyone listed
             [call_at deployer 0 Pause; call_at deployer 0 RenounceOwnership] in
  let es := [call_at deployer 0 Unpause; call_at alice 0 (SetPlatformFee 0);
             call_at bob ether (Buy 0)] in
  _owner (market w) = 0
  ∧ config (market (run marketAt everyone w es)) = config (market w)
  ∧ _paused (market w) = true.
Proof.
  cbv zeta.
  assert (Ho : _owner (market (run marketAt everyone listed
                                 [call_at deployer 0 Pause;
                                  call_at deployer 0 RenounceOwnership])) = 0)
    by by_compute.
  split; [exact Ho|]. split; [|by_compute].
  apply (renounced_ownership_freezes_the_configuration (T:=Chain) marketAt
           everyone _ _ Ho).
  intros x Hx.
  apply elem_of_cons in Hx as [Hx | Hx]; [injection Hx as ->; by_compute|].
  apply elem_of_cons in Hx as [Hx | Hx]; [injection Hx as ->; by_compute|].
  apply elem_of_cons in Hx as [Hx | Hx]; [injection Hx as ->; by_compute|].
  apply elem_of_nil in Hx. destruct Hx.
Defined.

Lemma fee_and_recipient_stay_valid_witness :
  constructor deployer feeAccount = Ok market0
  ∧ platformFeeBps (market sold) ≤ 1000
  ∧ feeRecipient (market sold) ≠ 0.
Proof.
  split; [reflexivity|].
  exact (fee_and_recipient_stay_valid (T:=Chain) marketAt everyone
           deployer feeAccount market0 (tokens genesis) (balances genesis)
           (listing_events ++ [call_at bob ether (Buy 0)]) eq_refl).
Defined.


End MarketplaceSpecExamples.

(** ** The single-edition ledger on the concrete chain *)
Module NFTExamples.
Import AccessControl ERC2981 NFT NFTChanges Deployment NFTFacts.

(** The deployer mints token 0 for alice with creator carol. *)
Lemma token_ids_are_never_reused_witness :
  let txs := [(deployer, MintFor alice carol "ipfs://withRoyalty");
              (alice, Burn 0)] in
  let s := run everyone721 (constructor deployer 500) txs in
  real_senders txs
  ∧ 0 < totalSupply s
  ∧ exists_ s 0 = false
  ∧ exists_ (run everyone721 s [(deployer, Mint alice "ipfs://again")]) 0
    = false.
Proof.
  cbv zeta.
  assert (Hreal : real_senders [(deployer, MintFor alice carol "ipfs://withRoyalty");
                                (alice, Burn 0)]).
  { constructor; [discriminate|]. constructor; [discriminate|]. constructor. }
  assert (Hmore : real_senders [(deployer, Mint alice "ipfs://again")]).
  { constructor; [discriminate|]. constructor. }
  destruct (token_ids_are_never_reused everyone721 deployer 500 _ 0 Hreal)
    as [_ Hgone].
  assert (Hlt : 0 < totalSupply (run everyone721 (constructor deployer 500)
                                   [(deployer, MintFor alice carol "ipfs://withRoyalty");
                                    (alice, Burn 0)])) by by_compute.
  assert (Hex : exists_ (run everyone721 (constructor deployer 500)
                           [(deployer, MintFor alice carol "ipfs://withRoyalty");
                            (alice, Burn 0)]) 0 = false) by by_compute.
  split; [exact Hreal|]. split; [exact Hlt|]. split; [exact Hex|].
  exact (proj1 (Hgone Hlt Hex _ Hmore)).
Defined.


Lemma creator_is_fixed_at_mint_witness :
  let s := run everyone721 (constructor deployer 500)
             [(deployer, MintFor alice carol "ipfs://withRoyalty")] in
  let txs := [(alice, TransferFrom alice bob 0);
              (deployer, SetTokenRoyalty 0 bob 100);
              (deployer, Mint alice "ipfs://second")] in
  0 < totalSupply s
  ∧ get 0 (_creators (run everyone721 s txs)) 0 = get 0 (_creators s) 0.
Proof.
  cbv zeta.
  assert (Hlt : 0 < totalSupply
                      (run everyone721 (constructor deployer 500)
                         [(deployer, MintFor alice carol "ipfs://withRoyalty")]))
    by by_compute.
  split; [exact Hlt|].
  exact (proj1 (creator_is_fixed_at_mint everyone721 _ _ 0 Hlt)).
Defined.

Lemma royalty_changes_only_through_creator_or_admin_witness :
  let s := run everyone721 (constructor deployer 500)
             [(deployer, MintFor alice carol "ipfs://withRoyalty")] in
  let c := SetTokenRoyalty 0 bob 100 in
  let s' := step everyone721 s (carol, c) in
  exec everyone721 s carol c = Ok s'
  ∧ exists_ s 0 = true
  ∧ get no_royalty (_tokenRoyaltyInfo s') 0
    ≠ get no_royalty (_tokenRoyaltyInfo s) 0
  ∧ (get 0 (_creators s) 0 = carol
     ∨ hasRole (_roles s) DEFAULT_ADMIN_ROLE carol = true).
Proof.
  cbv zeta.
  set (s := run everyone721 (constructor deployer 500)
              [(deployer, MintFor alice carol "ipfs://withRoyalty")]).
  assert (Hexec : exec everyone721 s carol (SetTokenRoyalty 0 bob 100)
                  = Ok (step everyone721 s (carol, SetTokenRoyalty 0 bob 100)))
    by (apply exec_is_step; by_compute).
  assert (Hex : exists_ s 0 = true) by by_compute.
  assert (Hne : get no_royalty
                  (_tokenRoyaltyInfo
                     (step everyone721 s (carol, SetTokenRoyalty 0 bob 100))) 0
                ≠ get no_royalty (_tokenRoyaltyInfo s) 0) by by_compute.
  destruct (royalty_changes_only_through_creator_or_admin everyone721 s _ carol
              _ 0 Hexec Hex) as [Hwho _].
  split; [exact Hexec|]. split; [exact Hex|]. split; [exact Hne|].
  exact (proj1 (Hwho Hne)).
Defined.

Lemma only_authorized_accounts_move_tokens_witness :
  let s := run everyone721 (constructor deployer 500)
             [(deployer, MintFor alice carol "ipfs://withRoyalty");
              (alice, Approve bob 0)] in
  let c := TransferFrom alice carol 0 in
  let s' := step everyone721 s (bob, c) in
  exec everyone721 s bob c = Ok s'
  ∧ exists_ s 0 = true
  ∧ _ownerOf s' 0 ≠ _ownerOf s 0
  ∧ _isAuthorized s (_ownerOf s 0) bob 0 = true
  ∧ _getApproved s' 0 = 0.
Proof.
  cbv zeta.
  set (s := run everyone721 (constructor deployer 500)
              [(deployer, MintFor alice carol "ipfs://withRoyalty");
               (alice, Approve bob 0)]).
  assert (Hexec : exec everyone721 s bob (TransferFrom alice carol 0)
                  = Ok (step everyone721 s (bob, TransferFrom alice carol 0)))
    by (apply exec_is_step; by_compute).
  assert (Hbob : bob ≠ 0) by by_compute.
  assert (Hex : exists_ s 0 = true) by by_compute.
  assert (Hne : _ownerOf (step everyone721 s (bob, TransferFrom alice carol 0)) 0
                ≠ _ownerOf s 0) by by_compute.
  destruct (only_authorized_accounts_move_tokens everyone721 s _ bob _ 0
              Hexec Hbob Hex Hne) as (Hauth & Happ & _).
  split; [exact Hexec|]. split; [exact Hex|]. split; [exact Hne|].
  split; [exact Hauth | exact Happ].
Defined.

Lemma unchecked_default_royalty_blocks_minting_witness :
  let txs := [(deployer, Mint alice "ipfs://first");
              (deployer, MintFor alice carol "ipfs://second")] in
  let s := run everyone721 (constructor deployer 20000) txs in
  10000 < 20000
  ∧ totalSupply s = 0
  ∧ is_ok (mint everyone721 s deployer alice "ipfs://third") = false
  ∧ mint everyone721 (constructor deployer 20000) deployer alice "ipfs://first"
    = Err (CustomError "ERC2981InvalidTokenRoyalty").
Proof.
  cbv zeta.
  assert (Hbps : 10000 < 20000) by reflexivity.
  assert (Hno : Forall (λ tx : address * call, ∀ b, tx.2 ≠ SetDefaultRoyalty b)
                  [(deployer, Mint alice "ipfs://first");
                   (deployer, MintFor alice carol "ipfs://second")]).
  { constructor; [intros b; discriminate|].
    constructor; [intros b; discriminate|]. constructor. }
  destruct (unchecked_default_royalty_blocks_minting everyone721 deployer 20000
              _ Hbps Hno) as (_ & Hsupply & Hmint).
  split; [exact Hbps|]. split; [exact Hsupply|].
  split; [exact (proj1 (Hmint deployer alice alice "ipfs://third"))|].
  by_compute.
Defined.

End NFTExamples.

(** ** The multi-edition ledger on the concrete chain, continued *)
Module NFTMultiEditionTypesExamples.
Import AccessControl ERC2981 NFTMultiEdition Deployment NFTMultiEditionFacts.

Lemma createAndMint_agrees_witness :
  let s := constructor deployer 500 in
  let s' := step everyone1155 s
              (deployer, CreateAndMint alice carol "ipfs://token1155" 100 10) in
  "ipfs://token1155" ≠ EmptyString
  ∧ createEdition_then_mintEdition everyone1155 s deployer alice carol
      "ipfs://token1155" 100 10 = Ok (s', 0).
Proof.
  cbv zeta.
  assert (Hu : "ipfs://token1155" ≠ EmptyString) by discriminate.
  split; [exact Hu|].
  apply (proj1 (createAndMint_agrees everyone1155 (constructor deployer 500)
                  deployer alice carol "ipfs://token1155" 100 10 _ Hu)).
  apply createAndMint_is_step. by_compute.
Defined.

Lemma setTokenRoyalty_guarded_witness :
  let s := run everyone1155 (constructor deployer 500) half_minted in
  tokenTypeExists s 0 = true
  ∧ setTokenRoyalty s alice 0 alice 500 = Err Unauthorized
  ∧ setTokenRoyalty s carol 0 bob 1001 = Err InvalidRate
  ∧ is_ok (setTokenRoyalty s carol 0 bob 1000) = true.
Proof.
  cbv zeta.
  assert (Hex : tokenTypeExists
                  (run everyone1155 (constructor deployer 500) half_minted) 0
                = true) by by_compute.
  destruct (setTokenRoyalty_guarded everyone1155 _ alice 0 alice 500 Hex)
    as (_ & Hunauth & _).
  destruct (setTokenRoyalty_guarded everyone1155 _ carol 0 bob 1001 Hex)
    as (_ & _ & Hrate & _).
  destruct (setTokenRoyalty_guarded everyone1155 _ carol 0 bob 1000 Hex)
    as (_ & _ & _ & _ & Hok & _).
  split; [exact Hex|]. split; [apply Hunauth; by_compute|].
  split; [apply Hrate; [by_compute | reflexivity]|].
  apply Hok; [by_compute | by_compute | discriminate].
Defined.

End NFTMultiEditionTypesExamples.

(** ** The two token contracts behind the marketplace, on the concrete chain *)
Module DeploymentExamples.
Import Marketplace Deployment MarketplaceFacts MarketplaceSpec
  DeploymentFacts.



End DeploymentExamples.

(** ** The units in circulation of the multi-edition ledger *)
Module NFTMultiEditionSupplyFacts.
Import AccessControl ERC2981 NFTMultiEdition NFTMultiEditionSupply
  NFTMultiEditionFacts.

Lemma held_commute (id : N) (j1 j2 : N * N) (z1 z2 y : N) :
  (if j1.1 =? id then z1 + (if j2.1 =? id then z2 + y else y)
   else (if j2.1 =? id then z2 + y else y))
  = (if j2.1 =? id then z2 + (if j1.1 =? id then z1 + y else y)
     else (if j1.1 =? id then z1 + y else y)).
Proof. destruct (j1.1 =? id), (j2.1 =? id); lia. Qed.

Lemma held_insert_fresh bal k v id :
  bal !! k = None →
  held (<[k := v]> bal) id = (if k.1 =? id then v else 0) + held bal id.
Proof.
  intros Hk. unfold held. rewrite map_fold_insert_L; [|intros; apply held_commute|done].
  by destruct (k.1 =? id).
Qed.

Lemma held_lookup bal k x id :
  bal !! k = Some x →
  held bal id = (if k.1 =? id then x else 0) + held (delete k bal) id.
Proof.
  intros Hk. unfold held at 1.
  rewrite (map_fold_delete_L _ _ k x); [|intros; apply held_commute|done].
  by destruct (k.1 =? id).
Qed.

(** Writing one balance, in additive form. *)
Lemma held_insert bal k v id :
  held (<[k := v]> bal) id + (if k.1 =? id then get 0 bal k else 0)
  = held bal id + (if k.1 =? id then v else 0).
Proof.
  unfold get. destruct (bal !! k) as [x|] eqn:Hk; cbn.
  - rewrite (held_lookup bal k x id Hk), <- insert_delete_eq.
    rewrite held_insert_fresh by apply lookup_delete_eq.
    destruct (k.1 =? id); lia.
  - rewrite held_insert_fresh by done. destruct (k.1 =? id); lia.
Qed.

Lemma get_le_held bal k :
  get 0 bal k ≤ held bal k.1.
Proof.
  unfold get. destruct (bal !! k) as [x|] eqn:Hk; cbn; [|lia].
  rewrite (held_lookup bal k x _ Hk), N.eqb_refl. lia.
Qed.

Lemma wrap_sub a v :
  v ≤ a → a ≤ MAX_UINT256 → wrap (a + 2 ^ 256 - v) = a - v.
Proof.
  unfold wrap, MAX_UINT256. intros Hv Ha.
  assert (Hpos : 0 < 2 ^ 256) by (apply N.neq_0_lt_0, N.pow_nonzero; lia).
  set (M := 2 ^ 256) in *.
  replace (a + M - v) with ((a - v) + 1 * M) by lia.
  rewrite N.Div0.mod_add. apply N.mod_small. lia.
Qed.

Section Ledger.
Variable acceptance : address → address → address → list N → list N → bool.

(** ERC1155._update moves, for every id, the units of the batch from the
    balance of [from] to the balance of [to]. *)
Lemma _update_balances_held from to ids values :
  ∀ bal bal',
    _update_balances bal from to ids values = Ok bal' →
    ∀ id,
      held bal' id + (if from =? 0 then 0 else batch_total id ids values)
      = held bal id + (if to =? 0 then 0 else batch_total id ids values).
Proof.
  revert values. induction ids as [|i ids IH]; intros [|v values] bal bal' Hu id;
    cbn [_update_balances batch_total] in *; try discriminate.
  - injection Hu as <-. by destruct (from =? 0), (to =? 0).
  - bind_inv Hu bal1 Hb1. bind_inv Hu bal2 Hb2.
    specialize (IH _ _ _ Hu id).
    assert (H1 : held bal1 id + (if from =? 0 then 0 else if i =? id then v else 0)
                 = held bal id).
    { destruct (from =? 0); [injection Hb1 as <-; lia|].
      require_inv Hb1 Hle. apply N.leb_le in Hle. injection Hb1 as <-.
      pose proof (held_insert bal (i, from) (get 0 bal (i, from) - v) id) as Hh.
      cbn [fst] in Hh. destruct (i =? id); lia. }
    assert (H2 : held bal2 id
                 = held bal1 id + (if to =? 0 then 0 else if i =? id then v else 0)).
    { destruct (to =? 0); [injection Hb2 as <-; lia|].
      bind_inv Hb2 b Hb. apply checked_add_ok in Hb as [-> _].
      injection Hb2 as <-.
      pose proof (held_insert bal1 (i, to) (get 0 bal1 (i, to) + v) id) as Hh.
      cbn [fst] in Hh. destruct (i =? id); lia. }
    destruct (from =? 0), (to =? 0), (i =? id); lia.
Qed.

Lemma _supply_mint_total ids values :
  ∀ ts total ts' total',
    _supply_mint ts total ids values = Ok (ts', total') →
    (∀ id, get 0 ts id ≤ MAX_UINT256) →
    ∀ id, get 0 ts' id = get 0 ts id + batch_total id ids values
          ∧ get 0 ts' id ≤ MAX_UINT256.
Proof.
  revert values.
  induction ids as [|i ids IH]; intros [|v values] ts total ts' total' Hm Hmax id;
    cbn [_supply_mint batch_total] in *;
    try (injection Hm as <- <-; split; [lia | apply Hmax]).
  bind_inv Hm t Ht. apply checked_add_ok in Ht as [-> Hfit].
  bind_inv Hm total1 Htot.
  assert (Hmax1 : ∀ id, get 0 (<[i := get 0 ts i + v]> ts) id ≤ MAX_UINT256).
  { intros id'. destruct (decide (i = id')) as [<-|Hne].
    - by rewrite get_insert_eq.
    - by rewrite get_insert_ne. }
  destruct (IH _ _ _ _ _ Hm Hmax1 id) as [-> Hle]. split; [|done].
  destruct (N.eqb_spec i id) as [->|Hne].
  - rewrite get_insert_eq. lia.
  - rewrite get_insert_ne by done. lia.
Qed.

Lemma _supply_burn_total ids values :
  ∀ ts total,
    (∀ id, batch_total id ids values ≤ get 0 ts id) →
    (∀ id, get 0 ts id ≤ MAX_UINT256) →
    ∀ id, get 0 (_supply_burn ts total ids values).1 id
          + batch_total id ids values = get 0 ts id.
Proof.
  revert values.
  induction ids as [|i ids IH]; intros [|v values] ts total Hle Hmax id;
    cbn [_supply_burn batch_total fst] in *; try lia.
  assert (Hv : v ≤ get 0 ts i).
  { specialize (Hle i). rewrite N.eqb_refl in Hle. lia. }
  rewrite wrap_sub by done.
  assert (Hle1 : ∀ id', batch_total id' ids values
                        ≤ get 0 (<[i := get 0 ts i - v]> ts) id').
  { intros id'. specialize (Hle id').
    destruct (N.eqb_spec i id') as [->|Hne].
    - rewrite get_insert_eq. lia.
    - rewrite get_insert_ne by done. lia. }
  assert (Hmax1 : ∀ id', get 0 (<[i := get 0 ts i - v]> ts) id' ≤ MAX_UINT256).
  { intros id'. specialize (Hmax id').
    destruct (decide (i = id')) as [<-|Hne].
    - rewrite get_insert_eq. lia.
    - by rewrite get_insert_ne. }
  pose proof (IH values _ (wrap (total + v)) Hle1 Hmax1 id) as Hrec.
  destruct (N.eqb_spec i id) as [->|Hne].
  - rewrite get_insert_eq in Hrec. lia.
  - rewrite get_insert_ne in Hrec by done. lia.
Qed.

(** What _update does to the balances and the supplies, together. *)
Lemma _update_supply s from to ids values s' :
  _update s from to ids values = Ok s' →
  (from ≠ 0 ∨ to ≠ 0) →
  (∀ id, held (_balances s) id = totalSupply s id
         ∧ totalSupply s id ≤ MAX_UINT256) →
  _tokenTypes s' = _tokenTypes s
  ∧ _nextTokenTypeId s' = _nextTokenTypeId s
  ∧ ∀ id,
      held (_balances s') id = totalSupply s' id
      ∧ totalSupply s' id ≤ MAX_UINT256
      ∧ totalSupply s' id + (if from =? 0 then 0 else
                              if to =? 0 then batch_total id ids values else 0)
        = totalSupply s id + (if from =? 0 then batch_total id ids values
                              else 0).
Proof.
  unfold _update. intros Hu Hends Hinv. bind_inv Hu bal Hbal.
  pose proof (_update_balances_held _ _ _ _ _ _ Hbal) as Hheld.
  bind_inv Hu ta Hta. destruct ta as [ts all].
  unfold totalSupply in *.
  destruct (N.eqb_spec from 0) as [->|Hfrom].
  - (* a mint *)
    destruct Hends as [|Hto]; [done|]. apply N.eqb_neq in Hto.
    rewrite Hto in Hu, Hheld. injection Hu as <-.
    bind_inv Hta tm Hmint. destruct tm as [ts1 tmv]. bind_inv Hta all1 Hall.
    injection Hta as <- <-.
    pose proof (_supply_mint_total _ _ _ _ _ _ Hmint (λ id, proj2 (Hinv id)))
      as Hts.
    split; [done|]. split; [done|]. intros id. cbn [_balances _totalSupply set_ledger].
    destruct (Hts id) as [Heq Hle]. destruct (Hinv id) as [Hh _].
    specialize (Hheld id). split; [lia|]. split; [done|lia].
  - injection Hta as <- <-.
    destruct (N.eqb_spec to 0) as [->|Hto].
    + (* a burn *)
      destruct (_supply_burn (_totalSupply s) 0 ids values) as [ts' tbv] eqn:Hburn.
      injection Hu as <-.
      assert (Hle : ∀ id, batch_total id ids values ≤ get 0 (_totalSupply s) id).
      { intros id. specialize (Hheld id). destruct (Hinv id) as [Hh _]. lia. }
      pose proof (_supply_burn_total ids values (_totalSupply s) 0 Hle
                    (λ id, proj2 (Hinv id))) as Hts.
      rewrite Hburn in Hts. cbn [fst] in Hts.
      split; [done|]. split; [done|]. intros id.
      cbn [_balances _totalSupply set_ledger].
      specialize (Hheld id). specialize (Hts id). destruct (Hinv id) as [Hh Hm].
      split; [lia|]. split; lia.
    + (* a transfer *)
      injection Hu as <-. split; [done|]. split; [done|]. intros id.
      cbn [_balances _totalSupply set_ledger].
      specialize (Hheld id). destruct (Hinv id) as [Hh Hm].
      split; [lia|]. split; [done|lia].
Qed.

Lemma _updateWithAcceptanceCheck_supply s operator from to ids values s' :
  _updateWithAcceptanceCheck acceptance s operator from to ids values = Ok s' →
  (from ≠ 0 ∨ to ≠ 0) →
  (∀ id, held (_balances s) id = totalSupply s id
         ∧ totalSupply s id ≤ MAX_UINT256) →
  _tokenTypes s' = _tokenTypes s
  ∧ _nextTokenTypeId s' = _nextTokenTypeId s
  ∧ ∀ id,
      held (_balances s') id = totalSupply s' id
      ∧ totalSupply s' id ≤ MAX_UINT256
      ∧ totalSupply s' id + (if from =? 0 then 0 else
                              if to =? 0 then batch_total id ids values else 0)
        = totalSupply s id + (if from =? 0 then batch_total id ids values
                              else 0).
Proof.
  unfold _updateWithAcceptanceCheck. intros Hu. bind_inv Hu s1 Hs1.
  require_inv Hu Hacc. injection Hu as <-. by apply _update_supply.
Qed.

Lemma _mint_supply s operator to id value s' :
  _mint acceptance s operator to id value = Ok s' →
  (∀ id, held (_balances s) id = totalSupply s id
         ∧ totalSupply s id ≤ MAX_UINT256) →
  _tokenTypes s' = _tokenTypes s
  ∧ _nextTokenTypeId s' = _nextTokenTypeId s
  ∧ ∀ id',
      held (_balances s') id' = totalSupply s' id'
      ∧ totalSupply s' id' ≤ MAX_UINT256
      ∧ totalSupply s' id' = totalSupply s id' + (if id =? id' then value else 0).
Proof.
  unfold _mint. intros Hm Hinv. require_inv Hm Hto.
  apply negb_true_iff, N.eqb_neq in Hto.
  apply _updateWithAcceptanceCheck_supply in Hm as (Ht & Hn & Hs); [|auto|done].
  split; [done|]. split; [done|]. intros id'.
  destruct (Hs id') as (Hh & Hle & Heq). cbn [batch_total N.eqb] in Heq.
  split; [done|]. split; [done|]. lia.
Qed.

Lemma tokenType_fresh s id :
  fresh_above s → _nextTokenTypeId s ≤ id → tokenType s id = no_type.
Proof. intros Hf Hid. unfold tokenType, get. by rewrite (Hf id Hid). Qed.

(** One transaction keeps the supplies consistent. *)
Lemma exec_supply_consistent s sender c s' :
  exec acceptance s sender c = Ok s' →
  fresh_above s → supply_consistent s → supply_consistent s'.
Proof.
  intros He Hfresh Hinv.
  assert (Hbase : ∀ id, held (_balances s) id = totalSupply s id
                        ∧ totalSupply s id ≤ MAX_UINT256).
  { intros id. by destruct (Hinv id) as (? & _ & ?). }
  assert (Hnew : totalSupply s (_nextTokenTypeId s) = 0).
  { destruct (Hinv (_nextTokenTypeId s)) as (_ & Hle & _).
    rewrite (tokenType_fresh s _ Hfresh) in Hle by lia. cbn in Hle. lia. }
  assert (Hsame : ∀ s0 : State,
            _balances s0 = _balances s → _totalSupply s0 = _totalSupply s →
            _tokenTypes s0 = _tokenTypes s → supply_consistent s0).
  { intros s0 Hb Ht Hty id. unfold totalSupply, tokenType.
    rewrite Hb, Ht, Hty. apply Hinv. }
  assert (Hmoved : ∀ from to ids values,
            _updateWithAcceptanceCheck acceptance s sender from to ids values
            = Ok s' →
            from ≠ 0 → supply_consistent s').
  { intros from to ids values Hu Hfrom.
    apply _updateWithAcceptanceCheck_supply in Hu as (Ht & _ & Hs);
      [|auto|done].
    intros id. destruct (Hs id) as (Hh & Hle & Heq).
    destruct (Hinv id) as (_ & Hm & _).
    apply N.eqb_neq in Hfrom. rewrite Hfrom in Heq.
    split; [done|]. split; [|done].
    unfold tokenType. rewrite Ht. fold (tokenType s id).
    destruct (to =? 0); lia. }
  destruct c as [cr u0 m | to tid amt | to cr u0 m amt | tid rcv b | op ap
                | f t tid v | f t tids vs | a tid v | a tids vs
                | r a | r a | r a]; cbn [exec] in He.
  - apply fmap_ok in He as ([s1 id] & Hc & ->).
    apply createEdition_ok in Hc as (_ & _ & _ & -> & _ & ->).
    intros id. unfold totalSupply, tokenType.
    cbn [_balances _totalSupply _tokenTypes set_royalties set_types fst].
    destruct (Hinv id) as (Hh & Hm & Hle). split; [done|]. split; [|done].
    destruct (decide (_nextTokenTypeId s = id)) as [<-|Hne].
    + rewrite get_insert_eq. cbn. unfold totalSupply in Hnew. lia.
    + by rewrite get_insert_ne.
  - unfold mintEdition in He. bind_inv He u Hrole. require_inv He Hamt.
    require_inv He Hex. bind_inv He u' Hmax. bind_inv He minted Hminted.
    apply checked_add_ok in Hminted as [-> _].
    apply _mint_supply in He as (Ht & _ & Hs); [|done].
    intros id. destruct (Hs id) as (Hh & Hle & Heq).
    destruct (Hinv id) as (_ & Hm & _).
    split; [done|]. split; [|done]. rewrite Heq.
    unfold tokenType. rewrite Ht. cbn [_tokenTypes set_types].
    destruct (N.eqb_spec tid id) as [->|Hne].
    + rewrite get_insert_eq. cbn [mintedSupply].
      unfold totalSupply, tokenType in *. cbn [_totalSupply set_types] in *. lia.
    + rewrite get_insert_ne by done.
      unfold totalSupply, tokenType in *. cbn [_totalSupply set_types] in *. lia.
  - apply fmap_ok in He as ([s1 id0] & Hc & ->). cbn [fst].
    unfold createAndMint in Hc. bind_inv Hc u Hrole. require_inv Hc Hamt.
    require_inv Hc Hmax. bind_inv Hc next Hnext. bind_inv Hc r0 Hr.
    bind_inv Hc s2 Hs2. injection Hc as <- _.
    apply _mint_supply in Hs2 as (Ht & _ & Hs); [|done].
    intros id. destruct (Hs id) as (Hh & Hle & Heq).
    destruct (Hinv id) as (_ & Hm & _).
    split; [done|]. split; [|done]. rewrite Heq.
    unfold tokenType. rewrite Ht. cbn [_tokenTypes set_types set_royalties].
    destruct (N.eqb_spec (_nextTokenTypeId s) id) as [<-|Hne].
    + rewrite get_insert_eq. cbn [mintedSupply].
      unfold totalSupply in *. cbn [_totalSupply set_types set_royalties] in *.
      lia.
    + rewrite get_insert_ne by done.
      unfold totalSupply, tokenType in *.
      cbn [_totalSupply set_types set_royalties] in *. lia.
  - unfold setTokenRoyalty in He. require_inv He H1. require_inv He H2.
    require_inv He H3. bind_inv He r0 Hr. injection He as <-. by apply Hsame.
  - unfold setApprovalForAll in He. require_inv He H1. injection He as <-.
    by apply Hsame.
  - unfold safeTransferFrom, safeBatchTransferFrom in He.
    require_inv He H1. require_inv He H2. require_inv He H3.
    apply negb_true_iff, N.eqb_neq in H3. by eapply Hmoved.
  - unfold safeBatchTransferFrom in He.
    require_inv He H1. require_inv He H2. require_inv He H3.
    apply negb_true_iff, N.eqb_neq in H3. by eapply Hmoved.
  - unfold burn, burnBatch, _burnBatch in He.
    require_inv He H1. require_inv He H2.
    apply negb_true_iff, N.eqb_neq in H2. by eapply Hmoved.
  - unfold burnBatch, _burnBatch in He.
    require_inv He H1. require_inv He H2.
    apply negb_true_iff, N.eqb_neq in H2. by eapply Hmoved.
  - apply fmap_ok in He as (r0 & _ & ->). by apply Hsame.
  - apply fmap_ok in He as (r0 & _ & ->). by apply Hsame.
  - apply fmap_ok in He as (r0 & _ & ->). by apply Hsame.
Qed.

Lemma supply_consistent_run deployer bps txs :
  supply_consistent (run acceptance (constructor deployer bps) txs).
Proof.
  induction txs as [|tx txs IH] using rev_ind.
  - intros id. unfold held, totalSupply, tokenType, get. cbn.
    rewrite map_fold_empty, !lookup_empty. cbn. lia.
  - rewrite run_snoc. unfold step.
    destruct (exec acceptance _ tx.1 tx.2) as [s1|] eqn:He; [|done].
    eapply exec_supply_consistent; [exact He | | exact IH].
    apply (invariants_run acceptance deployer bps txs).
Qed.

(** X27: the units in circulation.  In every state the ledger can reach
    from its deployment, totalSupply(id) is exactly what all accounts hold
    of the type together, so no balance exceeds it; it is at most the
    minted supply of the type -- burning lowers totalSupply but not
    mintedSupply -- and hence at most maxSupply for a bounded type; and a
    type that does not exist has no units.  The unchecked subtractions of
    the supply counters never wrap. *)
Theorem circulating_supply_stays_within_the_minted_supply
    (deployer bps : N) (txs : list (address * call)) (id : N)
    (account : address) :
  let s := run acceptance (constructor deployer bps) txs in
  let t := tokenType s id in
  held (_balances s) id = totalSupply s id
  ∧ balanceOf s account id ≤ totalSupply s id
  ∧ totalSupply s id ≤ mintedSupply t
  ∧ (0 < maxSupply t → totalSupply s id ≤ maxSupply t)
  ∧ (tokenTypeExists s id = false →
     totalSupply s id = 0 ∧ balanceOf s account id = 0).
Proof.
  intros s t.
  destruct (supply_consistent_run deployer bps txs id) as (Hh & Hm & _).
  destruct (invariants_run acceptance deployer bps txs) as [Hfresh Hmax].
  fold s in Hh, Hm, Hfresh, Hmax. fold t in Hm.
  assert (Hbal : balanceOf s account id ≤ totalSupply s id).
  { rewrite <- Hh. apply (get_le_held (_balances s) (id, account)). }
  split; [done|]. split; [done|]. split; [done|]. split.
  - intros Hb. specialize (Hmax id Hb). fold t in Hmax. lia.
  - intros Hex.
    assert (H0 : ∀ i, creator (tokenType (constructor deployer bps) i) ≠ 0
                      ↔ i < _nextTokenTypeId (constructor deployer bps)).
    { intros i. unfold tokenType, get. cbn. rewrite lookup_empty. cbn. lia. }
    destruct (NFTMultiEditionTypes.run_types_known acceptance _ txs H0)
      as (Hk & _). fold s in Hk.
    unfold tokenTypeExists in Hex. apply negb_false_iff, N.eqb_eq in Hex.
    assert (Hid : _nextTokenTypeId s ≤ id).
    { destruct (N.le_gt_cases (_nextTokenTypeId s) id) as [|Hlt]; [done|].
      apply Hk in Hlt. done. }
    assert (Hz : totalSupply s id = 0).
    { unfold t in Hm. rewrite (tokenType_fresh s id Hfresh Hid) in Hm.
      cbn in Hm. lia. }
    split; [done|]. lia.
Qed.

End Ledger.
End NFTMultiEditionSupplyFacts.
